(** * ogl-editor: the OGLEditor component, its project file format and its
      run/stop lifecycle

    A shallow embedding of [src/components/OGLEditor.tsx] together with the
    constants of [src/lib/examples.ts] and [src/shaders/examples.ts].

    - JavaScript strings are sequences of UTF-16 code units ([jsstring]).
    - Values that reach the three text buffers at run time are JavaScript
      values ([jsval]): [importCode] stores whatever [JSON.parse] returned.
    - The host functions the component calls ([String.prototype.replace],
      [JSON.stringify], [JSON.parse], property lookup on object literals)
      are modelled after ECMA-262.
    - A handler is a function on a [World]: the component state, the refs
      and the part of the page the component touches. *)

From Stdlib Require Import List NArith ZArith String Ascii Bool Lia Arith DecimalString.
Import ListNotations.

Local Open Scope N_scope.

(* ================================================================= *)
(** ** JavaScript strings and values *)

(** A string is its sequence of code units.  No function below relies on
    a code unit being smaller than 2^16. *)
Definition jsstring := list N.

(** [js "abc"] is the JavaScript string with the same (ASCII) characters. *)
Definition js (s : string) : jsstring :=
  map N_of_ascii (list_ascii_of_string s).

Fixpoint jsstring_eqb (a b : jsstring) : bool :=
  match a, b with
  | [], [] => true
  | x :: a', y :: b' => (x =? y) && jsstring_eqb a' b'
  | _, _ => false
  end.

(** [s.startsWith(p)], with the remainder of [s] after [p]. *)
Fixpoint strip_prefix (p s : jsstring) : option jsstring :=
  match p with
  | [] => Some s
  | x :: p' =>
      match s with
      | y :: s' => if x =? y then strip_prefix p' s' else None
      | [] => None
      end
  end.

Unset Elimination Schemes.
Inductive jsval : Type :=
| JUndefined
| JNull
| JBool (b : bool)
| JNumber (literal : jsstring)
| JString (s : jsstring)
| JArray (items : list jsval)
| JObject (props : list (jsstring * jsval)).
Set Elimination Schemes.

(** A number is kept as the JSON literal it was read from; the numeric
    questions the component asks are whether the number is zero (its
    truth value) and whether it is finite (how it is printed). *)
Definition is_digit (c : N) : bool := (48 <=? c) && (c <=? 57).

Fixpoint digits_value (acc : N) (s : jsstring) : N * jsstring :=
  match s with
  | c :: r => if is_digit c then digits_value (10 * acc + (c - 48)) r else (acc, s)
  | [] => (acc, [])
  end.

Fixpoint count_digits (s : jsstring) : nat :=
  match s with
  | c :: r => if is_digit c then S (count_digits r) else O
  | [] => O
  end.

(** The literal [-i.f e±x] denotes [m * 10^k] up to sign, where [m] is
    the digit string [i ++ f] and [k = ±x - length f]. *)
Definition decimal_of_literal (lit : jsstring) : N * Z :=
  let unsigned := match lit with c :: r => if c =? 45 then r else lit | [] => lit end in
  let '(i, s1) := digits_value 0 unsigned in
  let '(m, fracLen, s2) :=
    match s1 with
    | c :: r =>
        if c =? 46
        then let '(m, s2) := digits_value i r in (m, count_digits r, s2)
        else (i, O, s1)
    | [] => (i, O, s1)
    end in
  let e : Z :=
    match s2 with
    | c :: r =>
        if (c =? 101) || (c =? 69) then
          match r with
          | d :: r' =>
              if d =? 45 then (- Z.of_N (fst (digits_value 0 r')))%Z
              else if d =? 43 then Z.of_N (fst (digits_value 0 r'))
              else Z.of_N (fst (digits_value 0 r))
          | [] => 0%Z
          end
        else 0%Z
    | [] => 0%Z
    end in
  (m, (e - Z.of_nat fracLen)%Z).

(** A decimal rounds to the double [0] (or [-0]) exactly when it is zero
    or at most half the smallest subnormal, [2^-1075] (ties go to even). *)
Definition number_is_zero (lit : jsstring) : bool :=
  let '(m, k) := decimal_of_literal lit in
  (m =? 0) ||
  ((k <? 0)%Z && (Z.of_N m * 2 ^ 1075 <=? 10 ^ (- k))%Z).

(** A decimal rounds to an infinity exactly when it reaches the midpoint
    between the largest double and [2^1024]. *)
Definition number_is_infinite (lit : jsstring) : bool :=
  let '(m, k) := decimal_of_literal lit in
  let limit := (2 ^ 1024 - 2 ^ 970)%Z in
  if (0 <=? k)%Z then (limit <=? Z.of_N m * 10 ^ k)%Z
  else (limit * 10 ^ (- k) <=? Z.of_N m)%Z.

(** ToBoolean *)
Definition truthy (v : jsval) : bool :=
  match v with
  | JUndefined | JNull => false
  | JBool b => b
  | JNumber lit => negb (number_is_zero lit)
  | JString s => match s with [] => false | _ => true end
  | JArray _ | JObject _ => true
  end.

(** [a || b] *)
Definition js_or (a b : jsval) : jsval := if truthy a then a else b.

(** Exceptions the modelled code can raise. *)
Inductive jserror : Type :=
| TypeError (what : jsstring)
| SyntaxError
| HostError (what : jsstring).

(** Own properties of an object, in creation order. *)
Fixpoint lookup_prop (k : jsstring) (props : list (jsstring * jsval)) : option jsval :=
  match props with
  | [] => None
  | (k', v) :: rest => if jsstring_eqb k k' then Some v else lookup_prop k rest
  end.

(** CreateDataProperty: an existing key keeps its place and takes the
    new value, a new key goes last. *)
Fixpoint set_prop (k : jsstring) (v : jsval) (props : list (jsstring * jsval))
  : list (jsstring * jsval) :=
  match props with
  | [] => [(k, v)]
  | (k', v') :: rest =>
      if jsstring_eqb k k' then (k, v) :: rest else (k', v') :: set_prop k v rest
  end.

(** The properties every ordinary object inherits from [Object.prototype]. *)
Definition objectPrototypeKeys : list jsstring :=
  map js [ "constructor"; "hasOwnProperty"; "isPrototypeOf";
           "propertyIsEnumerable"; "toLocaleString"; "toString"; "valueOf";
           "__proto__"; "__defineGetter__"; "__defineSetter__";
           "__lookupGetter__"; "__lookupSetter__" ]%string.

(** Result of [table[key]] on an object literal [table]. *)
Inductive property (A : Type) : Type :=
| Own (a : A)
| Inherited
| Absent.
Arguments Own {A} a.
Arguments Inherited {A}.
Arguments Absent {A}.

Fixpoint assoc {A : Type} (k : jsstring) (table : list (jsstring * A)) : option A :=
  match table with
  | [] => None
  | (k', a) :: rest => if jsstring_eqb k k' then Some a else assoc k rest
  end.

Definition get_property {A : Type} (table : list (jsstring * A)) (k : jsstring)
  : property A :=
  match assoc k table with
  | Some a => Own a
  | None =>
      if existsb (jsstring_eqb k) objectPrototypeKeys then Inherited else Absent
  end.

(** [data.key] for a value that came out of [JSON.parse] and a [key] that
    no built-in prototype defines (the three keys of the project file):
    reading a property of [null] or [undefined] throws, an object answers
    with its own property, every other value answers [undefined]. *)
Definition get_field (data : jsval) (key : jsstring) : jsval + jserror :=
  match data with
  | JUndefined | JNull => inr (TypeError key)
  | JObject props =>
      inl (match lookup_prop key props with Some v => v | None => JUndefined end)
  | _ => inl JUndefined
  end.

(* ================================================================= *)
(** ** String.prototype.replace with a global, literal pattern *)

(** GetSubstitution for a pattern without capture groups: [$$] is a
    dollar sign, [$&] the matched text, [$`] the text before the match,
    [$'] the text after it; any other [$] stands for itself. *)
Fixpoint getSubstitution (matched before after replacement : jsstring) : jsstring :=
  match replacement with
  | [] => []
  | c :: r =>
      if c =? 36 then
        match r with
        | d :: r' =>
            if d =? 36 then 36 :: getSubstitution matched before after r'
            else if d =? 38 then matched ++ getSubstitution matched before after r'
            else if d =? 96 then before ++ getSubstitution matched before after r'
            else if d =? 39 then after ++ getSubstitution matched before after r'
            else 36 :: getSubstitution matched before after r
        | [] => [36]
        end
      else c :: getSubstitution matched before after r
  end.

(** [s.replace(/pat/g, replacement)] where the regular expression is the
    literal, non-empty text [pat].  [skip] counts the code units of the
    current match still to be passed over; [before] is the text of [s]
    already passed. *)
Fixpoint replace_from (pat replacement : jsstring) (skip : nat)
         (before s : jsstring) : jsstring :=
  match s with
  | [] => []
  | c :: s' =>
      match skip with
      | S k => replace_from pat replacement k (before ++ [c]) s'
      | O =>
          match strip_prefix pat s with
          | Some after =>
              getSubstitution pat before after replacement
                ++ replace_from pat replacement (Nat.pred (List.length pat))
                                (before ++ [c]) s'
          | None => c :: replace_from pat replacement O (before ++ [c]) s'
          end
      end
  end.

Definition replace_all (pat replacement s : jsstring) : jsstring :=
  replace_from pat replacement O [] s.

(* ================================================================= *)
(** ** JSON.stringify *)

Definition hex_digit (d : N) : N := if d <? 10 then 48 + d else 87 + d.

(** UnicodeEscape: a backslash, [u] and four lower-case hex digits. *)
Definition unicode_escape (c : N) : jsstring :=
  [ 92; 117; hex_digit (c / 4096 mod 16); hex_digit (c / 256 mod 16);
    hex_digit (c / 16 mod 16); hex_digit (c mod 16) ].

Definition is_high_surrogate (c : N) : bool := (55296 <=? c) && (c <=? 56319).
Definition is_low_surrogate (c : N) : bool := (56320 <=? c) && (c <=? 57343).

(** QuoteJSONString on one code point that is a single code unit (a
    surrogate met here is unpaired). *)
Definition quote_unit (c : N) : jsstring :=
  if c =? 8 then [92; 98]
  else if c =? 9 then [92; 116]
  else if c =? 10 then [92; 110]
  else if c =? 12 then [92; 102]
  else if c =? 13 then [92; 114]
  else if c =? 34 then [92; 34]
  else if c =? 92 then [92; 92]
  else if (c <? 32) || is_high_surrogate c || is_low_surrogate c
       then unicode_escape c
  else [c].

(** The text between the quotes: a surrogate pair is one code point and
    is copied, everything else goes through [quote_unit]. *)
Fixpoint quote_chars (s : jsstring) : jsstring :=
  match s with
  | [] => []
  | c :: r =>
      if is_high_surrogate c then
        match r with
        | d :: r' =>
            if is_low_surrogate d then c :: d :: quote_chars r'
            else unicode_escape c ++ quote_chars r
        | [] => unicode_escape c
        end
      else quote_unit c ++ quote_chars r
  end.

Definition quote (s : jsstring) : jsstring := 34 :: quote_chars s ++ [34].

(** An array index is the canonical decimal form of an integer below
    [2^32 - 1]; such keys are enumerated first, in numeric order. *)
Definition array_index (k : jsstring) : option N :=
  match k with
  | [] => None
  | c :: r =>
      if forallb is_digit k && ((negb (c =? 48)) || match r with [] => true | _ => false end)
      then let n := fst (digits_value 0 k) in
           if n <? 4294967295 then Some n else None
      else None
  end.

Fixpoint insert_index {A : Type} (n : N) (x : A) (l : list (N * A)) : list (N * A) :=
  match l with
  | [] => [(n, x)]
  | (m, y) :: l' => if n <? m then (n, x) :: l else (m, y) :: insert_index n x l'
  end.

(** OrdinaryOwnPropertyKeys applied to entries kept in creation order. *)
Definition own_property_order {A : Type} (entries : list (jsstring * A))
  : list (jsstring * A) :=
  let indexed :=
    fold_left (fun acc e =>
                 match array_index (fst e) with
                 | Some n => insert_index n e acc
                 | None => acc
                 end) entries [] in
  map snd indexed
  ++ filter (fun e => match array_index (fst e) with Some _ => false | None => true end)
            entries.

Fixpoint join (sep : jsstring) (parts : list jsstring) : jsstring :=
  match parts with
  | [] => []
  | [p] => p
  | p :: rest => p ++ sep ++ join sep rest
  end.

Definition spaces (n : nat) : jsstring := repeat 32 n.

(** SerializeJSONProperty with a gap of [gap] spaces; [indent] is the
    current indentation.  [None] is JavaScript's [undefined] result.  A
    finite number is printed as the literal it was read from, which
    denotes the same number as the shortest form JavaScript prints; an
    infinite one is printed as [null]. *)
Fixpoint serialize (gap indent : nat) (v : jsval) : option jsstring :=
  match v with
  | JUndefined => None
  | JNull => Some (js "null")
  | JBool true => Some (js "true")
  | JBool false => Some (js "false")
  | JNumber lit => Some (if number_is_infinite lit then js "null" else lit)
  | JString s => Some (quote s)
  | JArray items =>
      let inner := (indent + gap)%nat in
      let parts :=
        (fix each (l : list jsval) : list jsstring :=
           match l with
           | [] => []
           | x :: l' =>
               match serialize gap inner x with
               | Some t => t
               | None => js "null"
               end :: each l'
           end) items in
      Some (match parts with
            | [] => js "[]"
            | _ =>
                match gap with
                | O => js "[" ++ join (js ",") parts ++ js "]"
                | _ =>
                    js "[" ++ 10 :: spaces inner
                       ++ join (js "," ++ 10 :: spaces inner) parts
                       ++ 10 :: spaces indent ++ js "]"
                end
            end)
  | JObject props =>
      let inner := (indent + gap)%nat in
      let entries :=
        (fix each (l : list (jsstring * jsval)) : list (jsstring * jsstring) :=
           match l with
           | [] => []
           | (k, x) :: l' =>
               match serialize gap inner x with
               | Some t =>
                   (k, quote k ++ js ":" ++ match gap with O => [] | _ => [32] end ++ t)
                     :: each l'
               | None => each l'
               end
           end) props in
      let parts := map snd (own_property_order entries) in
      Some (match parts with
            | [] => js "{}"
            | _ =>
                match gap with
                | O => js "{" ++ join (js ",") parts ++ js "}"
                | _ =>
                    js "{" ++ 10 :: spaces inner
                       ++ join (js "," ++ 10 :: spaces inner) parts
                       ++ 10 :: spaces indent ++ js "}"
                end
            end)
  end.

(** [JSON.stringify(value, null, gap)] *)
Definition JSON_stringify (value : jsval) (gap : nat) : option jsstring :=
  serialize gap O value.

(* ================================================================= *)
(** ** JSON.parse *)

Definition is_ws (c : N) : bool :=
  (c =? 32) || (c =? 9) || (c =? 10) || (c =? 13).

Fixpoint skip_ws (s : jsstring) : jsstring :=
  match s with
  | c :: r => if is_ws c then skip_ws r else s
  | [] => []
  end.

Definition hex_value (c : N) : option N :=
  if (48 <=? c) && (c <=? 57) then Some (c - 48)
  else if (97 <=? c) && (c <=? 102) then Some (c - 87)
  else if (65 <=? c) && (c <=? 70) then Some (c - 55)
  else None.

Definition hex4 (a b c d : N) : option N :=
  match hex_value a, hex_value b, hex_value c, hex_value d with
  | Some x, Some y, Some z, Some w => Some (4096 * x + 256 * y + 16 * z + w)
  | _, _, _, _ => None
  end.

Definition simple_escape (e : N) : option N :=
  if e =? 34 then Some 34
  else if e =? 92 then Some 92
  else if e =? 47 then Some 47
  else if e =? 98 then Some 8
  else if e =? 102 then Some 12
  else if e =? 110 then Some 10
  else if e =? 114 then Some 13
  else if e =? 116 then Some 9
  else None.

Definition cons_char (c : N) (r : option (jsstring * jsstring))
  : option (jsstring * jsstring) :=
  match r with
  | Some (str, rest) => Some (c :: str, rest)
  | None => None
  end.

(** The characters of a string literal after its opening quote, up to and
    including the closing quote; returns the string and what follows. *)
Fixpoint parse_string_chars (s : jsstring) : option (jsstring * jsstring) :=
  match s with
  | [] => None
  | c :: r =>
      if c =? 34 then Some ([], r)
      else if c =? 92 then
        match r with
        | e :: r' =>
            if e =? 117 then
              match r' with
              | h1 :: h2 :: h3 :: h4 :: r'' =>
                  match hex4 h1 h2 h3 h4 with
                  | Some u => cons_char u (parse_string_chars r'')
                  | None => None
                  end
              | _ => None
              end
            else
              match simple_escape e with
              | Some u => cons_char u (parse_string_chars r')
              | None => None
              end
        | [] => None
        end
      else if c <? 32 then None
      else cons_char c (parse_string_chars r)
  end.

Fixpoint span_digits (s : jsstring) : jsstring * jsstring :=
  match s with
  | c :: r =>
      if is_digit c then let '(ds, rest) := span_digits r in (c :: ds, rest)
      else ([], s)
  | [] => ([], [])
  end.

(** A JSON number is an optional minus sign, an integer part, an
    optional fraction and an optional exponent.  Each lexer returns the
    characters it took and what follows. *)
Definition lex_sign (s : jsstring) : jsstring * jsstring :=
  match s with
  | c :: r => if c =? 45 then ([45], r) else ([], s)
  | [] => ([], s)
  end.

(** The integer part: a single 0, or a digit run that starts otherwise. *)
Definition lex_int (s : jsstring) : option (jsstring * jsstring) :=
  match s with
  | [] => None
  | d :: r =>
      if negb (is_digit d) then None
      else if d =? 48 then Some ([48], r)
      else Some (span_digits s)
  end.

(** The fraction: a dot and at least one digit. *)
Definition lex_fraction (s : jsstring) : option (jsstring * jsstring) :=
  match s with
  | c :: r =>
      if c =? 46 then
        match span_digits r with
        | ([], _) => None
        | (ds, rest) => Some (46 :: ds, rest)
        end
      else Some ([], s)
  | [] => Some ([], s)
  end.

(** The exponent: e or E, an optional sign, at least one digit. *)
Definition lex_exponent (s : jsstring) : option (jsstring * jsstring) :=
  match s with
  | c :: r =>
      if (c =? 101) || (c =? 69) then
        let '(sg, r') :=
          match r with
          | x :: r' => if (x =? 43) || (x =? 45) then ([x], r') else ([], r)
          | [] => ([], r)
          end in
        match span_digits r' with
        | ([], _) => None
        | (ds, rest) => Some (c :: sg ++ ds, rest)
        end
      else Some ([], s)
  | [] => Some ([], s)
  end.

Definition lex_number (s : jsstring) : option (jsstring * jsstring) :=
  let '(sign, s1) := lex_sign s in
  match lex_int s1 with
  | None => None
  | Some (int, s2) =>
      match lex_fraction s2 with
      | None => None
      | Some (fr, s3) =>
          match lex_exponent s3 with
          | None => None
          | Some (ex, s4) => Some (sign ++ int ++ fr ++ ex, s4)
          end
      end
  end.

(** Recursive descent over the JSON grammar, on a fuel that bounds the
    depth of the calls.  [JSON_parse] supplies more than a text can use:
    see [JSON_parse_fuel]. *)
Fixpoint parse_value (fuel : nat) (s : jsstring) : option (jsval * jsstring) :=
  match fuel with
  | O => None
  | S fuel' =>
      match skip_ws s with
      | [] => None
      | c :: r =>
          if c =? 34 then
            match parse_string_chars r with
            | Some (str, rest) => Some (JString str, rest)
            | None => None
            end
          else if c =? 123 then
            match skip_ws r with
            | c2 :: r2 =>
                if c2 =? 125 then Some (JObject [], r2)
                else parse_members fuel' [] r
            | [] => None
            end
          else if c =? 91 then
            match skip_ws r with
            | c2 :: r2 =>
                if c2 =? 93 then Some (JArray [], r2)
                else parse_elements fuel' [] r
            | [] => None
            end
          else
            match strip_prefix (js "true") (c :: r) with
            | Some rest => Some (JBool true, rest)
            | None =>
                match strip_prefix (js "false") (c :: r) with
                | Some rest => Some (JBool false, rest)
                | None =>
                    match strip_prefix (js "null") (c :: r) with
                    | Some rest => Some (JNull, rest)
                    | None =>
                        match lex_number (c :: r) with
                        | Some (lit, rest) => Some (JNumber lit, rest)
                        | None => None
                        end
                    end
                end
            end
      end
  end

with parse_members (fuel : nat) (acc : list (jsstring * jsval)) (s : jsstring)
  : option (jsval * jsstring) :=
  match fuel with
  | O => None
  | S fuel' =>
      match skip_ws s with
      | c :: r =>
          if c =? 34 then
            match parse_string_chars r with
            | Some (key, r1) =>
                match skip_ws r1 with
                | c1 :: r2 =>
                    if c1 =? 58 then
                      match parse_value fuel' r2 with
                      | Some (v, r3) =>
                          let acc' := set_prop key v acc in
                          match skip_ws r3 with
                          | c3 :: r4 =>
                              if c3 =? 44 then parse_members fuel' acc' r4
                              else if c3 =? 125 then Some (JObject acc', r4)
                              else None
                          | [] => None
                          end
                      | None => None
                      end
                    else None
                | [] => None
                end
            | None => None
            end
          else None
      | [] => None
      end
  end

with parse_elements (fuel : nat) (acc : list jsval) (s : jsstring)
  : option (jsval * jsstring) :=
  match fuel with
  | O => None
  | S fuel' =>
      match parse_value fuel' s with
      | Some (v, r1) =>
          match skip_ws r1 with
          | c :: r2 =>
              if c =? 44 then parse_elements fuel' (acc ++ [v]) r2
              else if c =? 93 then Some (JArray (acc ++ [v]), r2)
              else None
          | [] => None
          end
      | None => None
      end
  end.

(** [JSON.parse(text)]: one value, then only white space. *)
Definition JSON_parse (text : jsstring) : jsval + jserror :=
  match parse_value (S (2 * List.length text)) text with
  | Some (v, rest) =>
      match skip_ws rest with
      | [] => inl v
      | _ => inr SyntaxError
      end
  | None => inr SyntaxError
  end.


(* ================================================================= *)
(** ** Built-in sources: src/lib/examples.ts *)

Definition defaultVertexShader : jsstring := js
"attribute vec3 position;
attribute vec2 uv;

uniform mat4 modelViewMatrix;
uniform mat4 projectionMatrix;

varying vec2 vUv;

void main() {
  vUv = uv;
  gl_Position = projectionMatrix * modelViewMatrix * vec4(position, 1.0);
}".

Definition defaultFragmentShader : jsstring := js
"precision mediump float;

uniform float time;
uniform vec2 resolution;
uniform vec2 mouse;

varying vec2 vUv;

void main() {
  vec2 st = vUv;
  
  // Animated gradient
  vec3 color = vec3(0.0);
  color.r = sin(time + st.x * 3.14159) * 0.5 + 0.5;
  color.g = cos(time + st.y * 3.14159) * 0.5 + 0.5;
  color.b = sin(time * 2.0 + st.x * st.y * 10.0) * 0.5 + 0.5;
  
  // Mouse interaction
  vec2 mousePos = mouse / resolution;
  float dist = distance(st, mousePos);
  color *= 1.0 - dist * 2.0;
  
  gl_FragColor = vec4(color, 1.0);
}".

Definition defaultJavaScript : jsstring := js
"// WebGL setup without OGL - Pure WebGL implementation
(function() {
  'use strict';
  
  // Stop any existing animation
  if (window.currentAnimationFrame) {
    cancelAnimationFrame(window.currentAnimationFrame);
  }
  
  const canvas = document.getElementById('glCanvas');
  if (!canvas) {
    console.error('Canvas element not found');
    return;
  }
  
  const gl = canvas.getContext('webgl') || canvas.getContext('experimental-webgl');

  if (!gl) {
    console.error('WebGL not supported');
    return;
  }

  // Set canvas size
  canvas.width = canvas.clientWidth;
  canvas.height = canvas.clientHeight;
  gl.viewport(0, 0, canvas.width, canvas.height);

  // Vertex data for a full-screen quad
  const vertices = new Float32Array([
    -1, -1,  0, 1,
     1, -1,  1, 1,
    -1,  1,  0, 0,
     1,  1,  1, 0
  ]);

  // Create and bind vertex buffer
  const vertexBuffer = gl.createBuffer();
  gl.bindBuffer(gl.ARRAY_BUFFER, vertexBuffer);
  gl.bufferData(gl.ARRAY_BUFFER, vertices, gl.STATIC_DRAW);

  // Shader compilation helper
  function createShader(gl, type, source) {
    const shader = gl.createShader(type);
    gl.shaderSource(shader, source);
    gl.compileShader(shader);
    
    if (!gl.getShaderParameter(shader, gl.COMPILE_STATUS)) {
      console.error('Shader compilation error:', gl.getShaderInfoLog(shader));
      gl.deleteShader(shader);
      return null;
    }
    
    return shader;
  }

  // Create shader program
  function createProgram(gl, vertexSource, fragmentSource) {
    const vertexShader = createShader(gl, gl.VERTEX_SHADER, vertexSource);
    const fragmentShader = createShader(gl, gl.FRAGMENT_SHADER, fragmentSource);
    
    if (!vertexShader || !fragmentShader) {
      return null;
    }
    
    const program = gl.createProgram();
    gl.attachShader(program, vertexShader);
    gl.attachShader(program, fragmentShader);
    gl.linkProgram(program);
    
    if (!gl.getProgramParameter(program, gl.LINK_STATUS)) {
      console.error('Program linking error:', gl.getProgramInfoLog(program));
      gl.deleteProgram(program);
      return null;
    }
    
    return program;
  }

  // Create the shader program
  const program = createProgram(gl, `${vertexShader}`, `${fragmentShader}`);

  if (!program) {
    console.error('Failed to create shader program');
    return;
  }

  // Get attribute and uniform locations
  const positionLocation = gl.getAttribLocation(program, 'position');
  const uvLocation = gl.getAttribLocation(program, 'uv');
  const timeLocation = gl.getUniformLocation(program, 'time');
  const resolutionLocation = gl.getUniformLocation(program, 'resolution');
  const mouseLocation = gl.getUniformLocation(program, 'mouse');
  const modelViewMatrixLocation = gl.getUniformLocation(program, 'modelViewMatrix');
  const projectionMatrixLocation = gl.getUniformLocation(program, 'projectionMatrix');

  // Mouse tracking
  let mouse = { x: 0, y: 0 };
  
  function handleMouseMove(e) {
    const rect = canvas.getBoundingClientRect();
    mouse.x = e.clientX - rect.left;
    mouse.y = canvas.height - (e.clientY - rect.top);
  }
  
  canvas.addEventListener('mousemove', handleMouseMove);

  // Create identity matrix
  function createIdentityMatrix() {
    return [
      1, 0, 0, 0,
      0, 1, 0, 0,
      0, 0, 1, 0,
      0, 0, 0, 1
    ];
  }

  // Render function
  function render(time) {
    // Resize canvas if needed
    if (canvas.width !== canvas.clientWidth || canvas.height !== canvas.clientHeight) {
      canvas.width = canvas.clientWidth;
      canvas.height = canvas.clientHeight;
      gl.viewport(0, 0, canvas.width, canvas.height);
    }
    
    // Clear canvas
    gl.clearColor(0, 0, 0, 1);
    gl.clear(gl.COLOR_BUFFER_BIT);
    
    // Use program
    gl.useProgram(program);
    
    // Set up attributes
    gl.bindBuffer(gl.ARRAY_BUFFER, vertexBuffer);
    
    if (positionLocation >= 0) {
      gl.enableVertexAttribArray(positionLocation);
      gl.vertexAttribPointer(positionLocation, 2, gl.FLOAT, false, 16, 0);
    }
    
    if (uvLocation >= 0) {
      gl.enableVertexAttribArray(uvLocation);
      gl.vertexAttribPointer(uvLocation, 2, gl.FLOAT, false, 16, 8);
    }
    
    // Set uniforms
    if (timeLocation) {
      gl.uniform1f(timeLocation, time * 0.001);
    }
    
    if (resolutionLocation) {
      gl.uniform2f(resolutionLocation, canvas.width, canvas.height);
    }
    
    if (mouseLocation) {
      gl.uniform2f(mouseLocation, mouse.x, mouse.y);
    }
    
    if (modelViewMatrixLocation) {
      gl.uniformMatrix4fv(modelViewMatrixLocation, false, createIdentityMatrix());
    }
    
    if (projectionMatrixLocation) {
      gl.uniformMatrix4fv(projectionMatrixLocation, false, createIdentityMatrix());
    }
    
    // Draw
    gl.drawArrays(gl.TRIANGLE_STRIP, 0, 4);
    
    window.currentAnimationFrame = requestAnimationFrame(render);
  }

  // Start rendering
  window.currentAnimationFrame = requestAnimationFrame(render);
  
  // Cleanup function for when shader stops
  window.cleanupShader = function() {
    if (window.currentAnimationFrame) {
      cancelAnimationFrame(window.currentAnimationFrame);
      window.currentAnimationFrame = null;
    }
    canvas.removeEventListener('mousemove', handleMouseMove);
  };
})();".

(* ================================================================= *)
(** ** The example catalog: src/shaders/examples.ts *)

Record Example : Type := { vertex : jsstring; fragment : jsstring }.

Definition basic_vertex : jsstring := js
"attribute vec3 position;
attribute vec2 uv;

uniform mat4 modelViewMatrix;
uniform mat4 projectionMatrix;

varying vec2 vUv;

void main() {
  vUv = uv;
  gl_Position = projectionMatrix * modelViewMatrix * vec4(position, 1.0);
}".

Definition basic_fragment : jsstring := js
"precision mediump float;

uniform float time;
uniform vec2 resolution;
uniform vec2 mouse;

varying vec2 vUv;

void main() {
  vec2 st = vUv;
  
  // Animated gradient
  vec3 color = vec3(0.0);
  color.r = sin(time + st.x * 3.14159) * 0.5 + 0.5;
  color.g = cos(time + st.y * 3.14159) * 0.5 + 0.5;
  color.b = sin(time * 2.0 + st.x * st.y * 10.0) * 0.5 + 0.5;
  
  // Mouse interaction
  vec2 mousePos = mouse / resolution;
  float dist = distance(st, mousePos);
  color *= 1.0 - dist * 2.0;
  
  gl_FragColor = vec4(color, 1.0);
}".

Definition raymarching_vertex : jsstring := js
"attribute vec3 position;
attribute vec2 uv;

uniform mat4 modelViewMatrix;
uniform mat4 projectionMatrix;

varying vec2 vUv;

void main() {
  vUv = uv;
  gl_Position = projectionMatrix * modelViewMatrix * vec4(position, 1.0);
}".

Definition raymarching_fragment : jsstring := js
"precision mediump float;

uniform float time;
uniform vec2 resolution;
uniform vec2 mouse;

varying vec2 vUv;

// Distance function for a sphere
float sdSphere(vec3 p, float r) {
  return length(p) - r;
}

// Distance function for a box
float sdBox(vec3 p, vec3 b) {
  vec3 q = abs(p) - b;
  return length(max(q, 0.0)) + min(max(q.x, max(q.y, q.z)), 0.0);
}

// Scene distance function
float map(vec3 p) {
  // Animate position
  p.y += sin(time + p.x) * 0.2;
  p.x += cos(time * 0.7 + p.z) * 0.3;
  
  // Create multiple spheres
  float sphere1 = sdSphere(p - vec3(0.0, 0.0, 0.0), 0.5);
  float sphere2 = sdSphere(p - vec3(sin(time) * 2.0, 0.0, cos(time) * 2.0), 0.3);
  float box = sdBox(p - vec3(0.0, sin(time * 1.3) * 0.5, 0.0), vec3(0.3));
  
  return min(min(sphere1, sphere2), box);
}

// Calculate normal
vec3 calcNormal(vec3 p) {
  const float h = 0.001;
  const vec2 k = vec2(1, -1);
  return normalize(k.xyy * map(p + k.xyy * h) +
                   k.yyx * map(p + k.yyx * h) +
                   k.yxy * map(p + k.yxy * h) +
                   k.xxx * map(p + k.xxx * h));
}

// Raymarching
float rayMarch(vec3 ro, vec3 rd) {
  float t = 0.0;
  for (int i = 0; i < 100; i++) {
    vec3 p = ro + rd * t;
    float d = map(p);
    if (d < 0.001) break;
    t += d;
    if (t > 100.0) break;
  }
  return t;
}

void main() {
  vec2 st = (vUv - 0.5) * 2.0;
  st.x *= resolution.x / resolution.y;
  
  // Camera
  vec3 ro = vec3(0.0, 0.0, 3.0);
  vec3 rd = normalize(vec3(st, -1.0));
  
  // Raymarching
  float t = rayMarch(ro, rd);
  
  vec3 color = vec3(0.0);
  
  if (t < 100.0) {
    vec3 p = ro + rd * t;
    vec3 n = calcNormal(p);
    
    // Lighting
    vec3 lightPos = vec3(2.0, 2.0, 4.0);
    vec3 lightDir = normalize(lightPos - p);
    float diff = max(dot(n, lightDir), 0.0);
    
    // Colors based on position and normal
    color = vec3(0.2 + 0.8 * diff);
    color *= vec3(0.5 + 0.5 * n.x, 0.5 + 0.5 * n.y, 0.5 + 0.5 * n.z);
  } else {
    // Background gradient
    color = vec3(0.1, 0.2, 0.4) + st.y * 0.1;
  }
  
  gl_FragColor = vec4(color, 1.0);
}".

Definition fractal_vertex : jsstring := js
"attribute vec3 position;
attribute vec2 uv;

uniform mat4 modelViewMatrix;
uniform mat4 projectionMatrix;

varying vec2 vUv;

void main() {
  vUv = uv;
  gl_Position = projectionMatrix * modelViewMatrix * vec4(position, 1.0);
}".

Definition fractal_fragment : jsstring := js
"precision mediump float;

uniform float time;
uniform vec2 resolution;
uniform vec2 mouse;

varying vec2 vUv;

vec2 complexMul(vec2 a, vec2 b) {
  return vec2(a.x * b.x - a.y * b.y, a.x * b.y + a.y * b.x);
}

float julia(vec2 z, vec2 c) {
  for (int i = 0; i < 100; i++) {
    if (length(z) > 2.0) {
      return float(i) / 100.0;
    }
    z = complexMul(z, z) + c;
  }
  return 0.0;
}

void main() {
  vec2 st = (vUv - 0.5) * 2.0;
  st.x *= resolution.x / resolution.y;
  
  // Zoom and pan
  st *= 1.5;
  st += vec2(sin(time * 0.1) * 0.3, cos(time * 0.13) * 0.3);
  
  // Julia set parameters
  vec2 c = vec2(
    sin(time * 0.2) * 0.7,
    cos(time * 0.3) * 0.7
  );
  
  float iter = julia(st, c);
  
  // Color based on iterations
  vec3 color = vec3(0.0);
  color.r = sin(iter * 3.14159 * 2.0) * 0.5 + 0.5;
  color.g = sin(iter * 3.14159 * 4.0 + 2.0) * 0.5 + 0.5;
  color.b = sin(iter * 3.14159 * 6.0 + 4.0) * 0.5 + 0.5;
  
  // Add some brightness variation
  color *= 0.5 + 0.5 * iter;
  
  gl_FragColor = vec4(color, 1.0);
}".

Definition noise_vertex : jsstring := js
"attribute vec3 position;
attribute vec2 uv;

uniform mat4 modelViewMatrix;
uniform mat4 projectionMatrix;

varying vec2 vUv;

void main() {
  vUv = uv;
  gl_Position = projectionMatrix * modelViewMatrix * vec4(position, 1.0);
}".

Definition noise_fragment : jsstring := js
"precision mediump float;

uniform float time;
uniform vec2 resolution;
uniform vec2 mouse;

varying vec2 vUv;

// Noise functions
float random(vec2 st) {
  return fract(sin(dot(st.xy, vec2(12.9898, 78.233))) * 43758.5453123);
}

float noise(vec2 st) {
  vec2 i = floor(st);
  vec2 f = fract(st);
  
  float a = random(i);
  float b = random(i + vec2(1.0, 0.0));
  float c = random(i + vec2(0.0, 1.0));
  float d = random(i + vec2(1.0, 1.0));
  
  vec2 u = f * f * (3.0 - 2.0 * f);
  
  return mix(a, b, u.x) + (c - a) * u.y * (1.0 - u.x) + (d - b) * u.x * u.y;
}

float fbm(vec2 st) {
  float value = 0.0;
  float amplitude = 0.5;
  float frequency = 0.0;
  
  for (int i = 0; i < 5; i++) {
    value += amplitude * noise(st);
    st *= 2.0;
    amplitude *= 0.5;
  }
  return value;
}

void main() {
  vec2 st = vUv;
  
  // Scale and move
  st *= 3.0;
  st += vec2(time * 0.1, time * 0.05);
  
  // Generate fractal noise
  float n = fbm(st);
  
  // Add some movement
  vec2 q = vec2(fbm(st + vec2(0.0, 0.0)),
                fbm(st + vec2(5.2, 1.3)));
  
  vec2 r = vec2(fbm(st + 4.0 * q + vec2(1.7, 9.2) + time * 0.15),
                fbm(st + 4.0 * q + vec2(8.3, 2.8) + time * 0.126));
  
  float f = fbm(st + r);
  
  // Color mapping
  vec3 color = vec3(0.0);
  color = mix(vec3(0.101961, 0.619608, 0.666667),
              vec3(0.666667, 0.666667, 0.498039),
              clamp((f * f) * 4.0, 0.0, 1.0));
              
  color = mix(color,
              vec3(0.0, 0.0, 0.164706),
              clamp(length(q), 0.0, 1.0));
              
  color = mix(color,
              vec3(0.666667, 1.0, 1.0),
              clamp(length(r.x), 0.0, 1.0));
  
  gl_FragColor = vec4(color, 1.0);
}".

(** The object literal [shaderExamples], in source order. *)
Definition shaderExamples : list (jsstring * Example) :=
  [ (js "basic", {| vertex := basic_vertex; fragment := basic_fragment |});
    (js "raymarching", {| vertex := raymarching_vertex; fragment := raymarching_fragment |});
    (js "fractal", {| vertex := fractal_vertex; fragment := fractal_fragment |});
    (js "noise", {| vertex := noise_vertex; fragment := noise_fragment |}) ].

(* ================================================================= *)
(** ** The world a handler runs in *)

(** An element of the page, as far as the component looks at it. *)
Record Element : Type := {
  el_tag : jsstring;
  el_type : jsstring;
  el_id : jsstring;
  el_text : jsstring
}.

(** What [canvas.getContext] answers for both context names: a context,
    [null], or an exception (a canvas whose control was transferred). *)
Inductive Context : Type := WebGL | NoContext | ContextThrows.

(** [window.cleanupShader] when it is set to something truthy: calling it
    returns or throws. *)
Record Hook : Type := { hook_throws : bool }.

(** What the injected script does to [window.cleanupShader] when the page
    executes it. *)
Inductive ScriptEffect : Type :=
| KeepHook
| InstallHook (h : Hook)
| RemoveHook.

(** Observable effects, oldest first. *)
Inductive Effect : Type :=
| ConsoleError (msg : jsstring) (e : jserror)
| ConsoleWarn (msg : jsstring) (e : jserror)
| ClearSurface (withDepth : bool)
| CleanupCalled
| CancelAnimationFrame (handle : N)
| ScriptExecuted (code : jsstring)
| Download (name : jsstring) (content : jsstring).

Record World : Type := {
  (* useState *)
  vertexShader : jsval;
  fragmentShader : jsval;
  jsCode : jsval;
  isRunning : bool;
  activeTab : jsstring;
  showExamples : bool;
  (* useRef *)
  canvasRef : bool;                  (* is [canvasRef.current] the canvas? *)
  animationFrameRef : option N;
  (* the page *)
  head : list Element;               (* children of [document.head] *)
  cleanupShader : option Hook;       (* [window.cleanupShader] *)
  context : Context;
  trace : list Effect
}.

Definition setVertexShader (v : jsval) (w : World) : World :=
  {| vertexShader := v; fragmentShader := fragmentShader w; jsCode := jsCode w;
     isRunning := isRunning w; activeTab := activeTab w;
     showExamples := showExamples w; canvasRef := canvasRef w;
     animationFrameRef := animationFrameRef w; head := head w;
     cleanupShader := cleanupShader w; context := context w; trace := trace w |}.

Definition setFragmentShader (v : jsval) (w : World) : World :=
  {| vertexShader := vertexShader w; fragmentShader := v; jsCode := jsCode w;
     isRunning := isRunning w; activeTab := activeTab w;
     showExamples := showExamples w; canvasRef := canvasRef w;
     animationFrameRef := animationFrameRef w; head := head w;
     cleanupShader := cleanupShader w; context := context w; trace := trace w |}.

Definition setJsCode (v : jsval) (w : World) : World :=
  {| vertexShader := vertexShader w; fragmentShader := fragmentShader w; jsCode := v;
     isRunning := isRunning w; activeTab := activeTab w;
     showExamples := showExamples w; canvasRef := canvasRef w;
     animationFrameRef := animationFrameRef w; head := head w;
     cleanupShader := cleanupShader w; context := context w; trace := trace w |}.

Definition setIsRunning (b : bool) (w : World) : World :=
  {| vertexShader := vertexShader w; fragmentShader := fragmentShader w;
     jsCode := jsCode w; isRunning := b; activeTab := activeTab w;
     showExamples := showExamples w; canvasRef := canvasRef w;
     animationFrameRef := animationFrameRef w; head := head w;
     cleanupShader := cleanupShader w; context := context w; trace := trace w |}.

Definition setActiveTab (t : jsstring) (w : World) : World :=
  {| vertexShader := vertexShader w; fragmentShader := fragmentShader w;
     jsCode := jsCode w; isRunning := isRunning w; activeTab := t;
     showExamples := showExamples w; canvasRef := canvasRef w;
     animationFrameRef := animationFrameRef w; head := head w;
     cleanupShader := cleanupShader w; context := context w; trace := trace w |}.

Definition setShowExamples (b : bool) (w : World) : World :=
  {| vertexShader := vertexShader w; fragmentShader := fragmentShader w;
     jsCode := jsCode w; isRunning := isRunning w; activeTab := activeTab w;
     showExamples := b; canvasRef := canvasRef w;
     animationFrameRef := animationFrameRef w; head := head w;
     cleanupShader := cleanupShader w; context := context w; trace := trace w |}.

Definition setAnimationFrameRef (h : option N) (w : World) : World :=
  {| vertexShader := vertexShader w; fragmentShader := fragmentShader w;
     jsCode := jsCode w; isRunning := isRunning w; activeTab := activeTab w;
     showExamples := showExamples w; canvasRef := canvasRef w;
     animationFrameRef := h; head := head w;
     cleanupShader := cleanupShader w; context := context w; trace := trace w |}.

Definition setHead (h : list Element) (w : World) : World :=
  {| vertexShader := vertexShader w; fragmentShader := fragmentShader w;
     jsCode := jsCode w; isRunning := isRunning w; activeTab := activeTab w;
     showExamples := showExamples w; canvasRef := canvasRef w;
     animationFrameRef := animationFrameRef w; head := h;
     cleanupShader := cleanupShader w; context := context w; trace := trace w |}.

Definition setCleanupShader (h : option Hook) (w : World) : World :=
  {| vertexShader := vertexShader w; fragmentShader := fragmentShader w;
     jsCode := jsCode w; isRunning := isRunning w; activeTab := activeTab w;
     showExamples := showExamples w; canvasRef := canvasRef w;
     animationFrameRef := animationFrameRef w; head := head w;
     cleanupShader := h; context := context w; trace := trace w |}.

Definition emit (e : Effect) (w : World) : World :=
  {| vertexShader := vertexShader w; fragmentShader := fragmentShader w;
     jsCode := jsCode w; isRunning := isRunning w; activeTab := activeTab w;
     showExamples := showExamples w; canvasRef := canvasRef w;
     animationFrameRef := animationFrameRef w; head := head w;
     cleanupShader := cleanupShader w; context := context w;
     trace := trace w ++ [e] |}.

(** *** Computations that change the world and may throw

    An exception keeps the changes made before it. *)
Definition M (A : Type) : Type := World -> (A + jserror) * World.

Definition ret {A : Type} (a : A) : M A := fun w => (inl a, w).

Definition throw {A : Type} (e : jserror) : M A := fun w => (inr e, w).

Definition bind {A B : Type} (m : M A) (k : A -> M B) : M B :=
  fun w =>
    match m w with
    | (inl a, w') => k a w'
    | (inr e, w') => (inr e, w')
    end.

Definition try_catch {A : Type} (body : M A) (handler : jserror -> M A) : M A :=
  fun w =>
    match body w with
    | (inl a, w') => (inl a, w')
    | (inr e, w') => handler e w'
    end.

Definition get : M World := fun w => (inl w, w).

Definition modify (f : World -> World) : M unit := fun w => (inl tt, f w).

Definition lift {A : Type} (r : A + jserror) : M A :=
  match r with
  | inl a => ret a
  | inr e => throw e
  end.

Notation "x <- m ;; k" := (bind m (fun x => k))
  (at level 61, m at next level, right associativity).
Notation "m ;; k" := (bind m (fun _ => k))
  (at level 61, right associativity).

Definition console_error (msg : string) (e : jserror) : M unit :=
  modify (emit (ConsoleError (js msg) e)).

Definition console_warn (msg : string) (e : jserror) : M unit :=
  modify (emit (ConsoleWarn (js msg) e)).

(* ================================================================= *)
(** ** The page operations the handlers use *)

Definition shader_script_id : jsstring := js "shader-script".

Definition has_id (id : jsstring) (e : Element) : bool := jsstring_eqb (el_id e) id.

(** [document.getElementById(id)]: the first element with that id.  Only
    [document.head] is searched: the component renders no element with
    the id of the injected script. *)
Definition getElementById (id : jsstring) : M (option Element) :=
  w <- get ;; ret (find (has_id id) (head w)).

(** [parent.removeChild(node)] for the node [getElementById id] returned:
    the first child with that id goes.  Removing a child from its own
    parent does not throw. *)
Fixpoint remove_first (id : jsstring) (l : list Element) : list Element :=
  match l with
  | [] => []
  | e :: l' => if has_id id e then l' else e :: remove_first id l'
  end.

Definition removeChild (id : jsstring) : M unit :=
  w <- get ;; modify (setHead (remove_first id (head w))).

(** [canvas.getContext('webgl') || canvas.getContext('experimental-webgl')] *)
Definition getContext : M bool :=
  w <- get ;;
  match context w with
  | WebGL => ret true
  | NoContext => ret false
  | ContextThrows => throw (HostError (js "getContext"))
  end.

(** [document.head.appendChild(script)]: the script becomes the last
    child of the head and the page executes it at once; an exception of
    the script is reported by the page, not thrown to the caller. *)
Definition appendChild (script : Element) (effect : ScriptEffect) : M unit :=
  w <- get ;;
  modify (setHead (head w ++ [script])) ;;
  modify (emit (ScriptExecuted (el_text script))) ;;
  match effect with
  | KeepHook => ret tt
  | InstallHook h => modify (setCleanupShader (Some h))
  | RemoveHook => modify (setCleanupShader None)
  end.

(** [window.cleanupShader()] *)
Definition call_hook (h : Hook) : M unit :=
  modify (emit CleanupCalled) ;;
  if hook_throws h then throw (HostError (js "cleanupShader")) else ret tt.

(** [value.replace(/pat/g, replacement)]: only a string has the method;
    on every other value the call throws a TypeError. *)
Definition method_replace (value : jsval) (pat replacement : jsstring)
  : jsstring + jserror :=
  match value with
  | JString s => inl (replace_all pat replacement s)
  | _ => inr (TypeError (js "replace"))
  end.

(** Sequencing of expressions that may throw. *)
Definition and_then {A B : Type} (r : A + jserror) (k : A -> B + jserror)
  : B + jserror :=
  match r with
  | inl a => k a
  | inr e => inr e
  end.

(* ================================================================= *)
(** ** The handlers of OGLEditor *)

(** The three chained [replace] calls that escape a shader source:
    backslash, then backtick, then dollar sign. *)
Definition escapeShader (source : jsval) : jsstring + jserror :=
  and_then (method_replace source (js "\") (js "\\")) (fun s1 =>
  and_then (method_replace (JString s1) (js "`") (js "\`")) (fun s2 =>
  method_replace (JString s2) (js "$") (js "\$"))).

(** [codeWithShaders]: both placeholders of [jsCode] replaced, the vertex
    one first, the fragment one in the result of that. *)
Definition buildScript (vertexShader fragmentShader jsCode : jsval)
  : jsstring + jserror :=
  and_then (escapeShader vertexShader) (fun escapedVertexShader =>
  and_then (escapeShader fragmentShader) (fun escapedFragmentShader =>
  and_then (method_replace jsCode (js "${vertexShader}") escapedVertexShader)
           (fun s1 =>
  method_replace (JString s1) (js "${fragmentShader}") escapedFragmentShader))).

(** [if (existingScript && existingScript.parentNode) try removeChild] *)
Definition removeExistingScript (warning : string) : M unit :=
  existingScript <- getElementById shader_script_id ;;
  match existingScript with
  | Some _ => try_catch (removeChild shader_script_id) (console_warn warning)
  | None => ret tt
  end.

(** Call cleanup function if it exists *)
Definition callCleanup : M unit :=
  w <- get ;;
  match cleanupShader w with
  | Some h => try_catch (call_hook h) (console_warn "Error during shader cleanup:")
  | None => ret tt
  end.

(** Cancel any animation frames *)
Definition cancelAnimationFrames : M unit :=
  w <- get ;;
  match animationFrameRef w with
  | Some handle =>
      if handle =? 0 then ret tt
      else modify (emit (CancelAnimationFrame handle)) ;;
           modify (setAnimationFrameRef None)
  | None => ret tt
  end.

(** Clear canvas *)
Definition clearCanvas : M unit :=
  w <- get ;;
  if canvasRef w then
    try_catch
      (gl <- getContext ;;
       if gl then modify (emit (ClearSurface false)) else ret tt)
      (console_warn "Could not clear WebGL context:")
  else ret tt.

Definition stopShader : M unit :=
  modify (setIsRunning false) ;;
  callCleanup ;;
  cancelAnimationFrames ;;
  removeExistingScript "Could not remove shader script:" ;;
  clearCanvas.

(** Clear any existing WebGL context *)
Definition clearContext : M unit :=
  gl <- getContext ;;
  if gl then modify (emit (ClearSurface true)) else ret tt.

(** The body of the [try] of [runShader]; [c] is the state the handler
    closed over. *)
Definition injectScript (c : World) (effect : ScriptEffect) : M unit :=
  removeExistingScript "Could not remove existing script:" ;;
  clearContext ;;
  codeWithShaders <- lift (buildScript (vertexShader c) (fragmentShader c) (jsCode c)) ;;
  appendChild {| el_tag := js "script"; el_type := js "text/javascript";
                 el_id := shader_script_id; el_text := codeWithShaders |}
              effect.

Definition runShader (effect : ScriptEffect) : M unit :=
  c <- get ;;
  if negb (canvasRef c) then ret tt
  else
    (* First stop any existing shader *)
    (if isRunning c then stopShader else ret tt) ;;
    modify (setIsRunning true) ;;
    try_catch
      (injectScript c effect)
      (fun error =>
         console_error "Error running shader:" error ;;
         modify (setIsRunning false)).

Definition resetCode : M unit :=
  modify (setVertexShader (JString defaultVertexShader)) ;;
  modify (setFragmentShader (JString defaultFragmentShader)) ;;
  modify (setJsCode (JString defaultJavaScript)).

(** The object [exportCode] serializes; [timestamp] is
    [new Date().toISOString()]. *)
Definition exportData (c : World) (timestamp : jsstring) : jsval :=
  JObject [ (js "vertexShader", vertexShader c);
            (js "fragmentShader", fragmentShader c);
            (js "jsCode", jsCode c);
            (js "timestamp", JString timestamp) ].

(** The content of the downloaded file. *)
Definition exportDocument (c : World) (timestamp : jsstring) : jsstring :=
  match JSON_stringify (exportData c timestamp) 2 with
  | Some text => text
  | None => js "undefined"
  end.

Definition decimal (n : N) : jsstring :=
  js (DecimalString.NilEmpty.string_of_uint (N.to_uint n)).

(** [nowISO] is [new Date().toISOString()], [nowMs] is [Date.now()]. *)
Definition exportCode (nowISO : jsstring) (nowMs : N) : M unit :=
  c <- get ;;
  modify (emit (Download (js "ogl-shader-" ++ decimal nowMs ++ js ".json")
                         (exportDocument c nowISO))).

(** [reader.onload] of [importCode], with the text of the chosen file. *)
Definition importOnLoad (text : jsstring) : M unit :=
  try_catch
    (data <- lift (JSON_parse text) ;;
     v <- lift (get_field data (js "vertexShader")) ;;
     modify (setVertexShader (js_or v (JString defaultVertexShader))) ;;
     f <- lift (get_field data (js "fragmentShader")) ;;
     modify (setFragmentShader (js_or f (JString defaultFragmentShader))) ;;
     j <- lift (get_field data (js "jsCode")) ;;
     modify (setJsCode (js_or j (JString defaultJavaScript))))
    (console_error "Error importing file:").

(** [importCode] once the user has closed the file dialog: [file] is the
    text of the chosen file, if one was chosen. *)
Definition importCode (file : option jsstring) : M unit :=
  match file with
  | Some text => importOnLoad text
  | None => ret tt
  end.

Definition loadExample (exampleName : jsstring) : M unit :=
  try_catch
    (match get_property shaderExamples exampleName with
     | Own example =>
         modify (setVertexShader (JString (vertex example))) ;;
         modify (setFragmentShader (JString (fragment example))) ;;
         modify (setShowExamples false)
     | Inherited =>
         (* a built-in of Object.prototype: it has no vertex or fragment *)
         modify (setVertexShader JUndefined) ;;
         modify (setFragmentShader JUndefined) ;;
         modify (setShowExamples false)
     | Absent =>
         (* example is undefined: reading example.vertex throws *)
         throw (TypeError (js "vertex"))
     end)
    (console_error "Error loading example:").

(** [onChange] of an editor: [value || ""]. *)
Definition editorValue (value : option jsstring) : jsval :=
  match value with
  | Some s => JString s
  | None => JString []
  end.

(** What the user and the page can do to a mounted component. *)
Inductive Event : Type :=
| Run (effect : ScriptEffect)
| Stop
| Reset
| Export (nowISO : jsstring) (nowMs : N)
| Import (file : option jsstring)
| LoadExample (exampleName : jsstring)
| EditVertex (value : option jsstring)
| EditFragment (value : option jsstring)
| EditJavaScript (value : option jsstring)
| SelectTab (tab : jsstring)
| ToggleExamples.

Definition handle (ev : Event) : M unit :=
  match ev with
  | Run effect => runShader effect
  | Stop => stopShader
  | Reset => resetCode
  | Export nowISO nowMs => exportCode nowISO nowMs
  | Import file => importCode file
  | LoadExample exampleName => loadExample exampleName
  | EditVertex value => modify (setVertexShader (editorValue value))
  | EditFragment value => modify (setFragmentShader (editorValue value))
  | EditJavaScript value => modify (setJsCode (editorValue value))
  | SelectTab tab => modify (setActiveTab tab)
  | ToggleExamples => w <- get ;; modify (setShowExamples (negb (showExamples w)))
  end.

(** The world after a handler, and whether the handler returned. *)
Definition after {A : Type} (m : M A) (w : World) : World := snd (m w).

Definition returns {A : Type} (m : M A) (w : World) : bool :=
  match fst (m w) with
  | inl _ => true
  | inr _ => false
  end.

(** The component right after it was mounted with the given props, in a
    page with the given head, cleanup hook and canvas behaviour. *)
Definition mount (initialVertexShader initialFragmentShader initialJavaScript : jsstring)
           (pageHead : list Element) (hook : option Hook) (ctx : Context) : World :=
  {| vertexShader := JString initialVertexShader;
     fragmentShader := JString initialFragmentShader;
     jsCode := JString initialJavaScript;
     isRunning := false;
     activeTab := js "vertex";
     showExamples := false;
     canvasRef := true;
     animationFrameRef := None;
     head := pageHead;
     cleanupShader := hook;
     context := ctx;
     trace := [] |}.

(** The number of elements of the head that carry the id of the injected
    script. *)
Definition shaderScripts (w : World) : nat :=
  List.length (filter (has_id shader_script_id) (head w)).

(** States a mounted component can be in: it starts in a page that holds
    at most one element with the id of the injected script, and then
    handles events. *)
Inductive reachable : World -> Prop :=
| reachable_mount : forall iv ifr ij pageHead hook ctx,
    (List.length (filter (has_id shader_script_id) pageHead) <= 1)%nat ->
    reachable (mount iv ifr ij pageHead hook ctx)
| reachable_step : forall w ev,
    reachable w -> reachable (after (handle ev) w).

(* ================================================================= *)
(** ** Signature help *)

Definition is_word_char (c : N) : bool :=
  ((97 <=? c) && (c <=? 122)) || ((65 <=? c) && (c <=? 90))
  || is_digit c || (c =? 95).

(** The class [\s] of a JavaScript regular expression. *)
Definition is_space (c : N) : bool :=
  ((9 <=? c) && (c <=? 13)) || (c =? 32) || (c =? 160) || (c =? 5760)
  || ((8192 <=? c) && (c <=? 8202)) || (c =? 8232) || (c =? 8233)
  || (c =? 8239) || (c =? 8287) || (c =? 12288) || (c =? 65279).

Fixpoint span (p : N -> bool) (s : jsstring) : jsstring * jsstring :=
  match s with
  | c :: r => if p c then let '(a, b) := span p r in (c :: a, b) else ([], s)
  | [] => ([], [])
  end.

(** The regular expression of [provideSignatureHelp] tried at one start
    position: a non-empty run of word characters, white space, an opening
    parenthesis, and then no closing parenthesis up to the end.  Neither
    run can give characters back: what follows a shorter run is a character
    of the run, which is not what the pattern asks for next.  The result is
    the first capture group. *)
Definition match_here (s : jsstring) : option jsstring :=
  let '(word, r) := span is_word_char s in
  match word with
  | [] => None
  | _ =>
      match snd (span is_space r) with
      | c :: rest =>
          if (c =? 40) && forallb (fun x => negb (x =? 41)) rest
          then Some word else None
      | [] => None
      end
  end.

(** [beforeCursor.match(...)]: the match at the leftmost start position. *)
Fixpoint functionMatch (beforeCursor : jsstring) : option jsstring :=
  match beforeCursor with
  | [] => None
  | _ :: r =>
      match match_here beforeCursor with
      | Some name => Some name
      | None => functionMatch r
      end
  end.

Record ParameterInformation : Type := {
  parameter_label : jsstring;
  parameter_documentation : jsstring
}.

Record SignatureInformation : Type := {
  label : jsstring;
  documentation : jsstring;
  parameters : list ParameterInformation
}.

Definition parameter (l d : string) : ParameterInformation :=
  {| parameter_label := js l; parameter_documentation := js d |}.

(** The object literal [signatures]. *)
Definition signatures : list (jsstring * SignatureInformation) :=
  [ (js "mix",
     {| label := js "mix(x: T, y: T, a: float) -> T";
        documentation := js "Linear interpolation between x and y based on a";
        parameters := [ parameter "x" "First value";
                        parameter "y" "Second value";
                        parameter "a" "Interpolation factor (0.0 to 1.0)" ] |});
    (js "smoothstep",
     {| label := js "smoothstep(edge0: float, edge1: float, x: float) -> float";
        documentation := js "Smooth Hermite interpolation";
        parameters := [ parameter "edge0" "Lower edge";
                        parameter "edge1" "Upper edge";
                        parameter "x" "Value to interpolate" ] |});
    (js "vec3",
     {| label := js "vec3(x: float, y: float, z: float) -> vec3";
        documentation := js "Create a 3-component vector";
        parameters := [ parameter "x" "X component";
                        parameter "y" "Y component";
                        parameter "z" "Z component" ] |});
    (js "vec4",
     {| label := js "vec4(x: float, y: float, z: float, w: float) -> vec4";
        documentation := js "Create a 4-component vector";
        parameters := [ parameter "x" "X component";
                        parameter "y" "Y component";
                        parameter "z" "Z component";
                        parameter "w" "W component" ] |}) ].

(** An entry of the [signatures] array of the answer: an entry of the
    table, or a built-in the table inherits. *)
Inductive SignatureEntry : Type :=
| Signature (s : SignatureInformation)
| BuiltIn (name : jsstring).

Record SignatureHelp : Type := {
  help_signatures : list SignatureEntry;
  activeSignature : N;
  activeParameter : N
}.

(** [provideSignatureHelp(model, position)], given the content of the line
    of the position and its (1-based) column; [None] is [undefined]. *)
Definition provideSignatureHelp (line : jsstring) (column : nat) : option SignatureHelp :=
  let beforeCursor := firstn (column - 1) line in
  match functionMatch beforeCursor with
  | Some functionName =>
      let answer entry :=
        Some {| help_signatures := [entry]; activeSignature := 0; activeParameter := 0 |} in
      match get_property signatures functionName with
      | Own sig => answer (Signature sig)
      | Inherited => answer (BuiltIn functionName)
      | Absent => None
      end
  | None => None
  end.

(* ================================================================= *)
(** ** Notions used in the statements *)

(** A text written with apostrophes where it has double quotes. *)
Definition dq (s : string) : jsstring :=
  map (fun c => if c =? 39 then 34 else c) (js s).

(** A freshly mounted component with the built-in sources. *)
Definition freshWorld : World :=
  mount defaultVertexShader defaultFragmentShader defaultJavaScript [] None WebGL.

(** A small project, mounted in a page with a context. *)
Definition smallWorld : World :=
  mount (js "void main(){gl_Position=vec4(0.0);}")
        (js "void main(){gl_FragColor=vec4(1.0);}")
        (js "draw(`${vertexShader}`, `${fragmentShader}`);")
        [] None WebGL.

(** The small project with an empty vertex buffer. *)
Definition emptyVertexWorld : World :=
  after (handle (EditVertex None)) smallWorld.

(** The state after a project file whose vertex field is a number was
    imported. *)
Definition numberWorld : World :=
  after (handle (Import (Some (dq "{'vertexShader': 5}")))) smallWorld.

(** Everything of the world but the trace and the animation-frame ref. *)
Definition core (w : World) :=
  (vertexShader w, fragmentShader w, jsCode w, isRunning w,
   (activeTab w, showExamples w, canvasRef w),
   (head w, cleanupShader w, context w)).

(** The buffers, the running flag, the canvas ref and the context: what
    [runShader] reads. *)
Definition component (w : World) :=
  (vertexShader w, fragmentShader w, jsCode w, isRunning w, canvasRef w, context w).

(** A block that returns and leaves the core of the world alone. *)
Definition quiet (m : M unit) : Prop :=
  forall w, fst (m w) = inl tt /\ core (snd (m w)) = core w.

(** What the [try] block of [runShader] throws, if anything: the context
    lookup fails, or a buffer is not a string. *)
Definition injectionFailure (c : World) : option jserror :=
  match context c with
  | ContextThrows => Some (HostError (js "getContext"))
  | _ =>
      match buildScript (vertexShader c) (fragmentShader c) (jsCode c) with
      | inl _ => None
      | inr e => Some e
      end
  end.

(** The script element [runShader] appends when nothing fails. *)
Definition injectedScripts (c : World) : list Element :=
  match buildScript (vertexShader c) (fragmentShader c) (jsCode c) with
  | inl code =>
      [ {| el_tag := js "script"; el_type := js "text/javascript";
           el_id := shader_script_id; el_text := code |} ]
  | inr _ => []
  end.

(** The world in which [runShader] enters its [try] block. *)
Definition tryEntry (w : World) : World :=
  setIsRunning true (if isRunning w then snd (stopShader w) else w).

(** [data.key] once [data] is known not to be [null] or [undefined]. *)
Definition field (data : jsval) (key : jsstring) : jsval :=
  match data with
  | JObject props =>
      match lookup_prop key props with Some v => v | None => JUndefined end
  | _ => JUndefined
  end.

(** The three assignments of [importCode]. *)
Definition imported (data : jsval) (w : World) : World :=
  setJsCode (js_or (field data (js "jsCode")) (JString defaultJavaScript))
    (setFragmentShader
       (js_or (field data (js "fragmentShader")) (JString defaultFragmentShader))
       (setVertexShader
          (js_or (field data (js "vertexShader")) (JString defaultVertexShader))
          w)).

Definition logged (msg : string) (e : jserror) (w : World) : World :=
  emit (ConsoleError (js msg) e) w.

Definition countId (id : jsstring) (l : list Element) : nat :=
  List.length (filter (has_id id) l).

(** One member of the project file, followed by [rest]: a line break, two
    spaces, the quoted key, a colon, a space and the quoted string. *)
Definition memberText (key value rest : jsstring) : jsstring :=
  10 :: 32 :: 32 :: 34 :: quote_chars key
     ++ 34 :: 58 :: 32 :: 34 :: quote_chars value ++ 34 :: rest.

(** The project file of a project whose buffers are the given strings. *)
Definition projectText (v f j timestamp : jsstring) : jsstring :=
  123 :: memberText (js "vertexShader") v
    (44 :: memberText (js "fragmentShader") f
       (44 :: memberText (js "jsCode") j
          (44 :: memberText (js "timestamp") timestamp [10; 125]))).

(** What [value || fallback] is for a string [value]. *)
Definition orDefault (value fallback : jsstring) : jsstring :=
  match value with
  | [] => fallback
  | _ => value
  end.

(** What [escapeShader] writes for one code unit of the source. *)
Definition escapeUnit (c : N) : jsstring :=
  if (c =? 92) || (c =? 96) || (c =? 36) then [92; c] else [c].


(** No dollar sign of the source is followed by [&] or by an apostrophe. *)
Fixpoint dollarSafe (s : jsstring) : bool :=
  match s with
  | [] => true
  | c :: r =>
      negb ((c =? 36)
            && match r with
               | d :: _ => (d =? 38) || (d =? 39)
               | [] => false
               end)
      && dollarSafe r
  end.
(* ================================================================= *)
(** ** The cleanup effect of the component *)

(** The function the cleanup [useEffect] returns, run when the component
    unmounts: it calls [window.cleanupShader] if it is set and warns when
    the call throws. *)
Definition unmountCleanup : M unit :=
  w <- get ;;
  match cleanupShader w with
  | Some h =>
      try_catch (call_hook h)
                (console_warn "Error during component unmount cleanup:")
  | None => ret tt
  end.

(* ================================================================= *)
(** ** Further notions used in the statements *)

(** The events whose handlers write a buffer. *)
Definition writesBuffers (ev : Event) : bool :=
  match ev with
  | Reset | Import (Some _) | LoadExample _
  | EditVertex _ | EditFragment _ | EditJavaScript _ => true
  | _ => false
  end.

(** The world after a sequence of events, oldest first. *)
Definition afterAll (evs : list Event) (w : World) : World :=
  fold_left (fun w ev => after (handle ev) w) evs w.

(** The effects of calling [window.cleanupShader] when it is set, with
    the warning that is logged when the call throws. *)
Definition hookEffects (w : World) (warning : string) : list Effect :=
  match cleanupShader w with
  | Some h =>
      CleanupCalled
        :: (if hook_throws h
            then [ConsoleWarn (js warning) (HostError (js "cleanupShader"))]
            else [])
  | None => []
  end.

(** The animation-frame ref after [stopShader]. *)
Definition cancelledRef (w : World) : option N :=
  match animationFrameRef w with
  | Some handle => if handle =? 0 then Some handle else None
  | None => None
  end.

(** What [stopShader] does that can be observed, in order. *)
Definition stopEffects (w : World) : list Effect :=
  hookEffects w "Error during shader cleanup:"
  ++ match animationFrameRef w with
     | Some handle => if handle =? 0 then [] else [CancelAnimationFrame handle]
     | None => []
     end
  ++ (if canvasRef w then
        match context w with
        | WebGL => [ClearSurface false]
        | NoContext => []
        | ContextThrows =>
            [ConsoleWarn (js "Could not clear WebGL context:")
                         (HostError (js "getContext"))]
        end
      else []).

(** The world [stopShader] leaves. *)
Definition stopped (w : World) : World :=
  {| vertexShader := vertexShader w; fragmentShader := fragmentShader w;
     jsCode := jsCode w; isRunning := false; activeTab := activeTab w;
     showExamples := showExamples w; canvasRef := canvasRef w;
     animationFrameRef := cancelledRef w;
     head := remove_first shader_script_id (head w);
     cleanupShader := cleanupShader w; context := context w;
     trace := trace w ++ stopEffects w |}.

(** What the [try] of [runShader] and its [catch] do that can be
    observed, in order. *)
Definition injectEffects (w : World) : list Effect :=
  match context w with
  | ContextThrows =>
      [ConsoleError (js "Error running shader:") (HostError (js "getContext"))]
  | ctx =>
      match ctx with WebGL => [ClearSurface true] | _ => [] end
      ++ match buildScript (vertexShader w) (fragmentShader w) (jsCode w) with
         | inl code => [ScriptExecuted code]
         | inr e => [ConsoleError (js "Error running shader:") e]
         end
  end.

(** What [runShader] does that can be observed, in order. *)
Definition runEffects (w : World) : list Effect :=
  if canvasRef w
  then (if isRunning w then stopEffects w else []) ++ injectEffects w
  else [].

(** [window.cleanupShader] after the injected script ran. *)
Definition hookAfter (effect : ScriptEffect) (hook : option Hook) : option Hook :=
  match effect with
  | KeepHook => hook
  | InstallHook h => Some h
  | RemoveHook => None
  end.

Definition isCancel (e : Effect) : bool :=
  match e with CancelAnimationFrame _ => true | _ => false end.

Definition isCleanup (e : Effect) : bool :=
  match e with CleanupCalled => true | _ => false end.

Definition isExecuted (e : Effect) : bool :=
  match e with ScriptExecuted _ => true | _ => false end.

(** Is the value a JavaScript string? *)
Definition isString (v : jsval) : bool :=
  match v with JString _ => true | _ => false end.

(** Are the three buffers strings, as their TypeScript type says? *)
Definition stringBuffers (w : World) : bool :=
  isString (vertexShader w) && isString (fragmentShader w) && isString (jsCode w).

(** The script element with the given text. *)
Definition scriptElement (code : jsstring) : Element :=
  {| el_tag := js "script"; el_type := js "text/javascript";
     el_id := shader_script_id; el_text := code |}.

(** A value that [value || fallback] turns into a string when the
    fallback is one: a string, or a value that is not truthy. *)
Definition stringOrFalsy (v : jsval) : bool := isString v || negb (truthy v).

(** Does importing the text keep the buffers strings?  It does unless the
    text is a JSON object in which a field of the project holds a truthy
    value that is not a string. *)
Definition importsStrings (text : jsstring) : bool :=
  match JSON_parse text with
  | inl (JObject props) =>
      forallb (fun key => stringOrFalsy (field (JObject props) key))
              [js "vertexShader"; js "fragmentShader"; js "jsCode"]
  | _ => true
  end.

(** The events that keep the buffers strings: all but the import of such
    a text and the loading of a name the catalog inherits. *)
Definition keepsStrings (ev : Event) : bool :=
  match ev with
  | Import (Some text) => importsStrings text
  | LoadExample exampleName =>
      match get_property shaderExamples exampleName with
      | Inherited => false
      | _ => true
      end
  | _ => true
  end.

(** The escaped form of a source. *)
Definition escaped (s : jsstring) : jsstring := flat_map escapeUnit s.

(* ================================================================= *)
(** ** A driver script in pieces *)

(** The text has no dollar sign. *)
Definition noDollar (s : jsstring) : bool := forallb (fun c => negb (c =? 36)) s.

(** A text cut at the occurrences of a pattern [$body]: plain text, an
    occurrence of the pattern, or an occurrence of another text [$other]
    that starts with a dollar sign. *)
Inductive Piece : Type :=
| Plain (t : jsstring)
| Hole
| Kept.

Definition plainPiece (p : Piece) : bool :=
  match p with Plain t => noDollar t | _ => true end.

(** The text the pieces stand for, with [hole] at the occurrences of the
    pattern and [kept] at those of the other text. *)
Definition piecesText (hole kept : jsstring) (ps : list Piece) : jsstring :=
  flat_map (fun p => match p with Plain t => t | Hole => hole | Kept => kept end) ps.

(** A driver script cut at its placeholders. *)
Inductive Segment : Type :=
| Text (t : jsstring)
| VertexSource
| FragmentSource.

Definition plainText (seg : Segment) : bool :=
  match seg with Text t => noDollar t | _ => true end.

(** The driver script the segments stand for. *)
Definition driverText (segs : list Segment) : jsstring :=
  flat_map (fun seg => match seg with
                       | Text t => t
                       | VertexSource => js "${vertexShader}"
                       | FragmentSource => js "${fragmentShader}"
                       end) segs.

(** The driver script with the given texts at its placeholders. *)
Definition expandedScript (atVertex atFragment : jsstring) (segs : list Segment)
  : jsstring :=
  flat_map (fun seg => match seg with
                       | Text t => t
                       | VertexSource => atVertex
                       | FragmentSource => atFragment
                       end) segs.

(** Cutting a driver script at its placeholders: each placeholder is a
    segment, every other code unit a text of its own.  [skip] counts the
    code units of the current placeholder still to be passed over. *)
Fixpoint segmentsFrom (skip : nat) (s : jsstring) : list Segment :=
  match s with
  | [] => []
  | c :: s' =>
      match skip with
      | S k => segmentsFrom k s'
      | O =>
          match strip_prefix (js "${vertexShader}") s with
          | Some _ =>
              VertexSource
                :: segmentsFrom (Nat.pred (List.length (js "${vertexShader}"))) s'
          | None =>
              match strip_prefix (js "${fragmentShader}") s with
              | Some _ =>
                  FragmentSource
                    :: segmentsFrom (Nat.pred (List.length (js "${fragmentShader}"))) s'
              | None => Text [c] :: segmentsFrom O s'
              end
          end
      end
  end.

Definition segmentsOf (s : jsstring) : list Segment := segmentsFrom O s.

(** Reading a property of the value throws: it is [null] or [undefined]. *)
Definition nullish (v : jsval) : bool :=
  match v with JUndefined | JNull => true | _ => false end.


(* ================================================================= *)
(** ** The code action provider *)

(** What [provideCodeActions] reads of a marker. *)
Record Marker : Type := {
  marker_message : jsstring;
  marker_startLineNumber : N
}.

(** [new monaco.Range(startLineNumber, startColumn, endLineNumber, endColumn)] *)
Record Range : Type := {
  range_startLineNumber : N;
  range_startColumn : N;
  range_endLineNumber : N;
  range_endColumn : N
}.

(** A code action with one text edit. *)
Record CodeAction : Type := {
  action_title : jsstring;
  action_kind : jsstring;
  action_resource : jsstring;
  action_range : Range;
  action_text : jsstring
}.

(** [s.includes(sub)] *)
Fixpoint includes (s sub : jsstring) : bool :=
  match strip_prefix sub s with
  | Some _ => true
  | None =>
      match s with
      | [] => false
      | _ :: r => includes r sub
      end
  end.

(** The quick fix pushed for a marker: a declaration inserted at the
    start of the marker's first line. *)
Definition declareVariable (uri : jsstring) (marker : Marker) : CodeAction :=
  {| action_title := js "Add variable declaration";
     action_kind := js "quickfix";
     action_resource := uri;
     action_range :=
       {| range_startLineNumber := marker_startLineNumber marker;
          range_startColumn := 1;
          range_endLineNumber := marker_startLineNumber marker;
          range_endColumn := 1 |};
     action_text := js "float variable_name;" ++ [10] |}.

(** The [actions] of [provideCodeActions(model, _range, context)], given
    [model.uri] and [context.markers]. *)
Definition provideCodeActions (uri : jsstring) (markers : list Marker)
  : list CodeAction :=
  fold_left
    (fun actions marker =>
       if includes (marker_message marker) (js "undefined")
       then actions ++ [declareVariable uri marker]
       else actions)
    markers [].

(* ================================================================= *)
(** ** The toolbar *)

(** The first button of the toolbar: [onClick={isRunning ? stopShader :
    runShader}]; [effect] is what the script does to the hook if the
    click starts one. *)
Definition toolbarClick (effect : ScriptEffect) : M unit :=
  w <- get ;;
  if isRunning w then stopShader else runShader effect.

(** The label of that button: [{isRunning ? "Stop" : "Run"}]. *)
Definition buttonLabel (w : World) : jsstring :=
  if isRunning w then js "Stop" else js "Run".

(* ================================================================= *)
(** ** The hover provider *)









(* ================================================================= *)
(** * Properties *)

(** ** Tactics *)

(** The sequencing of a handler, unfolded. *)
Ltac unfold_monad :=
  cbv [bind ret get modify throw try_catch lift console_error console_warn].

(** Projections of a world built by setters. *)
Ltac world_simpl :=
  cbn [vertexShader fragmentShader jsCode isRunning activeTab showExamples
       canvasRef animationFrameRef head cleanupShader context trace
       setVertexShader setFragmentShader setJsCode setIsRunning setActiveTab
       setShowExamples setAnimationFrameRef setHead setCleanupShader emit
       fst snd] in *.

(** ** The model on small inputs *)

Example replace_all_matched :
  replace_all (js "x") (js "[$&]") (js "axbxc") = js "a[x]b[x]c".
Proof. reflexivity. Qed.

Example replace_all_context :
  replace_all (js "x") (js "<$`|$'>") (js "axb") = js "a<a|b>b".
Proof. reflexivity. Qed.

Example replace_all_dollars :
  replace_all (js "x") (js "$$ $1 $") (js "x") = js "$ $1 $".
Proof. reflexivity. Qed.

Example escapeShader_example :
  escapeShader (JString (js "a\b`c${d}")) = inl (js "a\\b\`c\${d}").
Proof. reflexivity. Qed.

Example buildScript_example :
  buildScript (JString (js "V`")) (JString (js "F$"))
              (JString (js "run(`${vertexShader}`, `${fragmentShader}`, `${vertexShader}`)"))
  = inl (js "run(`V\``, `F\$`, `V\``)").
Proof. reflexivity. Qed.

Example JSON_parse_nested :
  JSON_parse (dq "{'a': [1, -2.5e3, true, null, {'b': 'x\ny'}], 'a': false}")
  = inl (JObject [(js "a", JBool false)]).
Proof. reflexivity. Qed.

Example JSON_parse_escapes :
  JSON_parse (dq "'A\t\/\\'") = inl (JString [65; 9; 47; 92]).
Proof. reflexivity. Qed.

Example JSON_parse_rejects :
  map JSON_parse [dq "[1,]"; dq "01"; dq "1."; dq "{'a' 1}"; dq "{} x"; dq "'a"; []]
  = repeat (inr SyntaxError) 7.
Proof. reflexivity. Qed.

Example JSON_stringify_order :
  JSON_stringify (JObject [(js "b", JString (js "x")); (js "10", JNull);
                           (js "2", JArray [JUndefined]); (js "u", JUndefined)]) 0
  = Some (dq "{'2':[null],'10':null,'b':'x'}").
Proof. reflexivity. Qed.

Example exportDocument_example :
  exportDocument (mount (js "V") (js "F") (js "J") [] None WebGL) (js "T")
  = dq "{
  'vertexShader': 'V',
  'fragmentShader': 'F',
  'jsCode': 'J',
  'timestamp': 'T'
}".
Proof. reflexivity. Qed.

Example JSON_stringify_numbers :
  JSON_stringify (JArray [JNumber (js "1.5e3"); JNumber (js "1e309"); JNumber (js "-2E400");
                          JNumber (js "1.797693134862315807e308");
                          JNumber (js "1.797693134862315808e308")]) 0
  = Some (js "[1.5e3,null,null,1.797693134862315807e308,null]").
Proof. reflexivity. Qed.

Example truthy_examples :
  map truthy [JString []; JString (js "0"); JNumber (js "0"); JNumber (js "-0.0e7");
              JNumber (js "1e-400"); JNumber (js "5e-324"); JNull; JArray []; JObject []]
  = [false; true; false; false; false; true; false; true; true].
Proof. reflexivity. Qed.

Example functionMatch_examples :
  map functionMatch [js "mix(a, b,"; js "  vec3 c = vec3(mix(a, b), "; js "mix(a, b)";
                     js "x = smoothstep (0.0"; js "(a"]
  = [Some (js "mix"); None; None; Some (js "smoothstep"); None].
Proof. reflexivity. Qed.

Example loadExample_inherited :
  vertexShader (after (loadExample (js "toString")) smallWorld) = JUndefined.
Proof. reflexivity. Qed.

(** ** How the blocks of a handler change the world *)

Lemma callCleanup_quiet : quiet callCleanup.
Proof.
  intros w. unfold callCleanup, call_hook. unfold_monad.
  destruct (cleanupShader w) as [[[|]]|]; split; reflexivity.
Qed.

Lemma cancelAnimationFrames_quiet : quiet cancelAnimationFrames.
Proof.
  intros w. unfold cancelAnimationFrames. unfold_monad.
  destruct (animationFrameRef w) as [[|p]|]; split; reflexivity.
Qed.

Lemma clearCanvas_quiet : quiet clearCanvas.
Proof.
  intros w. unfold clearCanvas, getContext. unfold_monad.
  destruct (canvasRef w), (context w); split; reflexivity.
Qed.

Lemma remove_first_absent (id : jsstring) (l : list Element) :
  find (has_id id) l = None -> remove_first id l = l.
Proof.
  induction l as [|e l IH]; cbn; [reflexivity|].
  destruct (has_id id e); [discriminate|]. intros H; f_equal; auto.
Qed.

Lemma removeExistingScript_eq (msg : string) (w : World) :
  removeExistingScript msg w
  = (inl tt, setHead (remove_first shader_script_id (head w)) w).
Proof.
  unfold removeExistingScript, getElementById, removeChild. unfold_monad.
  destruct (find (has_id shader_script_id) (head w)) eqn:E; [reflexivity|].
  rewrite (remove_first_absent _ _ E). destruct w; reflexivity.
Qed.

(** Sequencing after a block that returns. *)
Lemma bind_returns {B : Type} (m : M unit) (k : M B) (w : World) :
  fst (m w) = inl tt -> (m ;; k) w = k (snd (m w)).
Proof.
  unfold bind. destruct (m w) as [[[]|e] w']; cbn; intros H;
    [reflexivity | discriminate].
Qed.

Lemma bind_quiet {B : Type} (m : M unit) (k : M B) (w : World) :
  quiet m -> (m ;; k) w = k (snd (m w)).
Proof. intros Q. apply bind_returns, Q. Qed.

(** [stopShader] returns; it clears the running flag and removes the
    injected script, and touches nothing else of the core. *)
Lemma stopShader_spec (w : World) :
  fst (stopShader w) = inl tt
  /\ core (snd (stopShader w))
     = core (setHead (remove_first shader_script_id (head w)) (setIsRunning false w)).
Proof.
  unfold stopShader.
  rewrite bind_returns by reflexivity.
  rewrite (bind_quiet _ _ _ callCleanup_quiet).
  rewrite (bind_quiet _ _ _ cancelAnimationFrames_quiet).
  rewrite bind_returns by (rewrite removeExistingScript_eq; reflexivity).
  rewrite removeExistingScript_eq. cbn [snd].
  destruct (callCleanup_quiet (snd (modify (setIsRunning false) w))) as [_ H1].
  destruct (cancelAnimationFrames_quiet
              (snd (callCleanup (snd (modify (setIsRunning false) w))))) as [_ H2].
  set (w2 := snd (cancelAnimationFrames _)) in *.
  destruct (clearCanvas_quiet
              (setHead (remove_first shader_script_id (head w2)) w2)) as [H3 H4].
  split; [exact H3|]. rewrite H4.
  rewrite H1 in H2. cbn [modify snd] in H2.
  unfold core in *. world_simpl. congruence.
Qed.

Lemma stopShader_head (w : World) :
  head (snd (stopShader w)) = remove_first shader_script_id (head w).
Proof.
  destruct (stopShader_spec w) as [_ H]. unfold core in H. world_simpl.
  congruence.
Qed.

Lemma injectScript_spec (c : World) (effect : ScriptEffect) (w : World) :
  context w = context c ->
  let r := injectScript c effect w in
  fst r = match injectionFailure c with Some e => inr e | None => inl tt end
  /\ component (snd r) = component w
  /\ head (snd r)
     = remove_first shader_script_id (head w)
       ++ match injectionFailure c with Some _ => [] | None => injectedScripts c end.
Proof.
  intros Hctx. unfold injectScript, injectionFailure, injectedScripts.
  rewrite bind_returns by (rewrite removeExistingScript_eq; reflexivity).
  rewrite removeExistingScript_eq. cbn [snd].
  unfold clearContext, getContext, appendChild. unfold_monad.
  rewrite <- Hctx.
  destruct w as [v f j r t s cv a h k x tr]. cbn [context setHead head].
  destruct x; cbn -[buildScript]; rewrite ?app_nil_r; auto;
    destruct (buildScript (vertexShader c) (fragmentShader c) (jsCode c));
    cbn; rewrite ?app_nil_r; auto; destruct effect; cbn; auto.
Qed.

Lemma runShader_eq (effect : ScriptEffect) (w : World) :
  runShader effect w =
  if negb (canvasRef w) then (inl tt, w)
  else
    match injectScript w effect (tryEntry w) with
    | (inl _, w') => (inl tt, w')
    | (inr e, w') =>
        (inl tt, setIsRunning false (emit (ConsoleError (js "Error running shader:") e) w'))
    end.
Proof.
  unfold runShader, tryEntry. unfold bind at 1. unfold get at 1.
  destruct (canvasRef w); cbn [negb]; [|reflexivity].
  rewrite bind_returns
    by (destruct (isRunning w); [apply stopShader_spec | reflexivity]).
  rewrite bind_returns by reflexivity.
  unfold try_catch. cbn [modify snd].
  replace (snd ((if isRunning w then stopShader else ret tt) w))
    with (if isRunning w then snd (stopShader w) else w)
    by (destruct (isRunning w); reflexivity).
  destruct (injectScript w effect _) as [[[]|e] w']; reflexivity.
Qed.

Lemma tryEntry_spec (w : World) :
  component (tryEntry w)
  = (vertexShader w, fragmentShader w, jsCode w, true, canvasRef w, context w)
  /\ head (tryEntry w)
     = if isRunning w then remove_first shader_script_id (head w) else head w.
Proof.
  unfold tryEntry. destruct (isRunning w) eqn:R.
  - destruct (stopShader_spec w) as [_ H]. unfold core, component in *.
    world_simpl. split; congruence.
  - split; reflexivity.
Qed.

(** [runShader] when the canvas is mounted. *)
Lemma runShader_spec (effect : ScriptEffect) (w : World) :
  canvasRef w = true ->
  let w' := snd (runShader effect w) in
  component w'
  = (vertexShader w, fragmentShader w, jsCode w,
     match injectionFailure w with Some _ => false | None => true end,
     canvasRef w, context w)
  /\ head w'
     = remove_first shader_script_id
         (if isRunning w then remove_first shader_script_id (head w) else head w)
       ++ match injectionFailure w with Some _ => [] | None => injectedScripts w end.
Proof.
  intros Hc. rewrite runShader_eq, Hc. cbn [negb].
  destruct (tryEntry_spec w) as [Hcomp Hhead].
  assert (Hctx : context (tryEntry w) = context w)
    by (unfold component in Hcomp; congruence).
  destruct (injectScript_spec w effect (tryEntry w) Hctx) as (Hr & Hk & Hh).
  destruct (injectScript w effect (tryEntry w)) as [[[]|e] w1]; cbn [fst snd] in *;
    destruct (injectionFailure w) as [e'|]; try discriminate;
    rewrite <- Hhead, <- Hh; unfold component in *; world_simpl; split; congruence.
Qed.

(** ** Import, example loading and the other handlers *)

Lemma importOnLoad_eq (text : jsstring) (w : World) :
  importOnLoad text w =
  match JSON_parse text with
  | inr e => (inl tt, logged "Error importing file:" e w)
  | inl JUndefined | inl JNull =>
      (inl tt, logged "Error importing file:" (TypeError (js "vertexShader")) w)
  | inl data => (inl tt, imported data w)
  end.
Proof.
  unfold importOnLoad, imported, logged, field.
  destruct (JSON_parse text) as [data|e]; [|reflexivity].
  destruct data; reflexivity.
Qed.

Lemma loadExample_eq (exampleName : jsstring) (w : World) :
  loadExample exampleName w =
  match get_property shaderExamples exampleName with
  | Own example =>
      (inl tt, setShowExamples false
                 (setFragmentShader (JString (fragment example))
                    (setVertexShader (JString (vertex example)) w)))
  | Inherited =>
      (inl tt, setShowExamples false
                 (setFragmentShader JUndefined (setVertexShader JUndefined w)))
  | Absent =>
      (inl tt, logged "Error loading example:" (TypeError (js "vertex")) w)
  end.
Proof.
  unfold loadExample, logged.
  destruct (get_property shaderExamples exampleName); reflexivity.
Qed.

(** Only [runShader] and [stopShader] touch the page and the refs. *)
Lemma handle_page (ev : Event) (w : World) :
  match ev with Run _ | Stop => True | _ =>
    head (after (handle ev) w) = head w
    /\ canvasRef (after (handle ev) w) = canvasRef w
    /\ context (after (handle ev) w) = context w
  end.
Proof.
  destruct ev as [eff| | |iso ms|[text|]|name|v|v|v|tab|]; try exact I;
    unfold after; cbn [handle importCode]; try (repeat split; reflexivity).
  - rewrite importOnLoad_eq.
    destruct (JSON_parse text) as [[]|e]; repeat split; reflexivity.
  - rewrite loadExample_eq.
    destruct (get_property shaderExamples name); repeat split; reflexivity.
Qed.

(** ** Counting the injected scripts *)

Lemma countId_remove_first (id : jsstring) (l : list Element) :
  countId id (remove_first id l) = Nat.pred (countId id l).
Proof.
  unfold countId. induction l as [|e l IH]; cbn; [reflexivity|].
  destruct (has_id id e) eqn:E; cbn; [reflexivity|].
  rewrite E. exact IH.
Qed.

Lemma countId_app (id : jsstring) (l1 l2 : list Element) :
  countId id (l1 ++ l2) = (countId id l1 + countId id l2)%nat.
Proof. unfold countId. rewrite filter_app, length_app. reflexivity. Qed.

Lemma countId_injectedScripts (c : World) :
  countId shader_script_id (injectedScripts c)
  = match buildScript (vertexShader c) (fragmentShader c) (jsCode c) with
    | inl _ => 1%nat
    | inr _ => 0%nat
    end.
Proof.
  unfold injectedScripts.
  destruct (buildScript (vertexShader c) (fragmentShader c) (jsCode c));
    reflexivity.
Qed.

(** After [runShader] on a mounted canvas the page holds one injected
    script if the injection went through and none if it failed, provided
    it held at most one before. *)
Lemma runShader_count (effect : ScriptEffect) (w : World) :
  canvasRef w = true ->
  (shaderScripts w <= 1)%nat ->
  shaderScripts (after (runShader effect) w)
  = match injectionFailure w with Some _ => 0%nat | None => 1%nat end.
Proof.
  intros Hc Hle. unfold after, shaderScripts in *.
  destruct (runShader_spec effect w Hc) as [_ Hh]. rewrite Hh.
  fold (countId shader_script_id (head w)) in Hle.
  match goal with |- List.length (filter _ ?l) = _ =>
    change (countId shader_script_id l = match injectionFailure w with Some _ => 0%nat | None => 1%nat end) end.
  rewrite countId_app, countId_remove_first.
  assert (H0 : Nat.pred (countId shader_script_id
             (if isRunning w then remove_first shader_script_id (head w) else head w)) = 0%nat).
  { destruct (isRunning w); [rewrite countId_remove_first|]; lia. }
  rewrite H0. unfold injectionFailure.
  destruct (context w); [ | | reflexivity];
    unfold injectedScripts;
    destruct (buildScript (vertexShader w) (fragmentShader w) (jsCode w));
    reflexivity.
Qed.

Lemma handle_keeps_canvas (ev : Event) (w : World) :
  canvasRef w = true -> canvasRef (after (handle ev) w) = true.
Proof.
  intros Hc. pose proof (handle_page ev w) as H.
  destruct ev; try (destruct H as (_ & H & _); congruence).
  - cbn [handle]. unfold after.
    destruct (runShader_spec effect w Hc) as [H' _].
    unfold component in H'. injection H' as _ _ _ _ H' _. congruence.
  - cbn [handle]. unfold after. destruct (stopShader_spec w) as [_ H'].
    unfold core in H'. world_simpl. congruence.
Qed.

Lemma handle_keeps_count (ev : Event) (w : World) :
  canvasRef w = true ->
  (shaderScripts w <= 1)%nat -> (shaderScripts (after (handle ev) w) <= 1)%nat.
Proof.
  intros Hc Hle. pose proof (handle_page ev w) as H.
  destruct ev;
    try (destruct H as (H & _); unfold shaderScripts in *; rewrite H; exact Hle).
  - cbn [handle]. rewrite (runShader_count effect w Hc Hle).
    destruct (injectionFailure w); lia.
  - cbn [handle]. unfold after, shaderScripts in *.
    rewrite stopShader_head.
    change (countId shader_script_id (remove_first shader_script_id (head w)) <= 1)%nat.
    rewrite countId_remove_first. unfold countId. lia.
Qed.

Lemma reachable_invariant (w : World) :
  reachable w -> canvasRef w = true /\ (shaderScripts w <= 1)%nat.
Proof.
  induction 1 as [iv ifr ij pageHead hook ctx Hle | w ev Hr [Hc Hle]].
  - split; [reflexivity | exact Hle].
  - split; [apply handle_keeps_canvas | apply handle_keeps_count]; assumption.
Qed.

(** ** JSON.parse does not depend on its fuel *)

Lemma skip_ws_length (s : jsstring) :
  (List.length (skip_ws s) <= List.length s)%nat.
Proof.
  induction s as [|c s IH]; cbn [skip_ws]; [reflexivity|].
  destruct (is_ws c); cbn [List.length]; lia.
Qed.

Lemma skip_ws_cons_length (s r : jsstring) (c : N) :
  skip_ws s = c :: r -> (List.length r < List.length s)%nat.
Proof.
  intros H. pose proof (skip_ws_length s) as L. rewrite H in L.
  cbn [List.length] in L. lia.
Qed.

Lemma strip_prefix_length (p s r : jsstring) :
  strip_prefix p s = Some r -> (List.length r <= List.length s)%nat.
Proof.
  revert s. induction p as [|x p IH]; intros s H; cbn [strip_prefix] in H.
  - injection H as ->. reflexivity.
  - destruct s as [|y s]; [discriminate|].
    destruct (x =? y); [|discriminate].
    apply IH in H. cbn [List.length]. lia.
Qed.

Lemma cons_char_length (c : N) (p : option (jsstring * jsstring)) (str r : jsstring) :
  cons_char c p = Some (str, r) -> exists str', p = Some (str', r).
Proof.
  destruct p as [[str' r']|]; cbn [cons_char]; [|discriminate].
  intros H. injection H as _ <-. exists str'. reflexivity.
Qed.

Lemma parse_string_chars_length_bounded (n : nat) :
  forall s str r,
    (List.length s <= n)%nat ->
    parse_string_chars s = Some (str, r) -> (List.length r < List.length s)%nat.
Proof.
  induction n as [|n IH]; intros s str r Hn H.
  - destruct s; [discriminate | cbn in Hn; lia].
  - destruct s as [|c s]; [discriminate|].
    cbn [List.length] in *. cbn [parse_string_chars] in H.
    destruct (c =? 34); [injection H as _ <-; lia|].
    destruct (c =? 92).
    + destruct s as [|e s]; [discriminate|].
      destruct (e =? 117).
      * destruct s as [|h1 [|h2 [|h3 [|h4 s]]]]; try discriminate.
        destruct (hex4 h1 h2 h3 h4); [|discriminate].
        apply cons_char_length in H. destruct H as [str' H].
        apply IH in H; cbn [List.length] in *; lia.
      * destruct (simple_escape e); [|discriminate].
        apply cons_char_length in H. destruct H as [str' H].
        apply IH in H; cbn [List.length] in *; lia.
    + destruct (c <? 32); [discriminate|].
      apply cons_char_length in H. destruct H as [str' H].
      apply IH in H; lia.
Qed.

Lemma parse_string_chars_length (s str r : jsstring) :
  parse_string_chars s = Some (str, r) -> (List.length r < List.length s)%nat.
Proof. apply (parse_string_chars_length_bounded (List.length s)). reflexivity. Qed.

Lemma span_digits_length (s : jsstring) :
  (List.length (snd (span_digits s)) <= List.length s)%nat.
Proof.
  induction s as [|c s IH]; cbn [span_digits]; [reflexivity|].
  destruct (is_digit c); [|reflexivity].
  destruct (span_digits s) as [ds rest]. cbn [snd List.length] in *. lia.
Qed.

Lemma lex_sign_length (s : jsstring) :
  (List.length (snd (lex_sign s)) <= List.length s)%nat.
Proof.
  unfold lex_sign. destruct s as [|c r]; [reflexivity|].
  destruct (c =? 45); cbn [snd List.length]; lia.
Qed.

Lemma lex_int_length (s t r : jsstring) :
  lex_int s = Some (t, r) -> (List.length r <= List.length s)%nat.
Proof.
  unfold lex_int. destruct s as [|d s']; [discriminate|].
  destruct (negb (is_digit d)); [discriminate|].
  destruct (d =? 48); intros H.
  - injection H as _ <-. cbn [List.length]. lia.
  - assert (E : span_digits (d :: s') = (t, r)) by (injection H as H; exact H).
    pose proof (span_digits_length (d :: s')) as L. rewrite E in L. exact L.
Qed.

Lemma lex_fraction_length (s t r : jsstring) :
  lex_fraction s = Some (t, r) -> (List.length r <= List.length s)%nat.
Proof.
  unfold lex_fraction. destruct s as [|c s']; [intros H; injection H as _ <-; lia|].
  destruct (c =? 46); [|intros H; injection H as _ <-; lia].
  pose proof (span_digits_length s') as L.
  destruct (span_digits s') as [[|x ds] rest]; [discriminate|].
  intros H; injection H as _ <-. cbn [snd List.length] in *. lia.
Qed.

Lemma lex_exponent_length (s t r : jsstring) :
  lex_exponent s = Some (t, r) -> (List.length r <= List.length s)%nat.
Proof.
  unfold lex_exponent. destruct s as [|c s']; [intros H; injection H as _ <-; lia|].
  destruct ((c =? 101) || (c =? 69)); [|intros H; injection H as _ <-; lia].
  assert (Hg : forall sg r',
             match s' with
             | [] => ([], s')
             | x :: r0 => if (x =? 43) || (x =? 45) then ([x], r0) else ([], s')
             end = (sg, r') -> (List.length r' <= List.length s')%nat).
  { intros sg r'. destruct s' as [|x r0]; [intros H; injection H as _ <-; lia|].
    destruct ((x =? 43) || (x =? 45)); intros H; injection H as _ <-;
      cbn [List.length]; lia. }
  destruct (match s' with
            | [] => ([], s')
            | x :: r0 => if (x =? 43) || (x =? 45) then ([x], r0) else ([], s')
            end) as [sg r'].
  specialize (Hg sg r' eq_refl).
  pose proof (span_digits_length r') as L.
  destruct (span_digits r') as [[|x ds] rest]; [discriminate|].
  intros H; injection H as _ <-. cbn [snd List.length] in *. lia.
Qed.

Lemma lex_number_length (s lit r : jsstring) :
  lex_number s = Some (lit, r) -> (List.length r <= List.length s)%nat.
Proof.
  unfold lex_number. pose proof (lex_sign_length s) as L0.
  destruct (lex_sign s) as [sign s1]. cbn [snd] in L0.
  destruct (lex_int s1) as [[int s2]|] eqn:E1; [|discriminate].
  destruct (lex_fraction s2) as [[fr s3]|] eqn:E2; [|discriminate].
  destruct (lex_exponent s3) as [[ex s4]|] eqn:E3; [|discriminate].
  intros H; injection H as _ <-.
  apply lex_int_length in E1. apply lex_fraction_length in E2.
  apply lex_exponent_length in E3. lia.
Qed.

(** What a parser leaves is not longer than what it was given. *)
Lemma parse_consumes (n : nat) :
  (forall s v r, parse_value n s = Some (v, r) ->
                 (List.length r <= List.length s)%nat)
  /\ (forall acc s v r, parse_members n acc s = Some (v, r) ->
                        (List.length r <= List.length s)%nat)
  /\ (forall acc s v r, parse_elements n acc s = Some (v, r) ->
                        (List.length r <= List.length s)%nat).
Proof.
  induction n as [|n (IHv & IHm & IHe)];
    [repeat split; intros; discriminate|].
  repeat split.
  - intros s v r. cbn [parse_value].
    destruct (skip_ws s) as [|c t] eqn:E; [discriminate|].
    apply skip_ws_cons_length in E.
    destruct (c =? 34).
    { destruct (parse_string_chars t) as [[str rest]|] eqn:Es; [|discriminate].
      apply parse_string_chars_length in Es.
      intros H; injection H as _ <-. lia. }
    destruct (c =? 123).
    { destruct (skip_ws t) as [|c2 t2] eqn:E2; [discriminate|].
      apply skip_ws_cons_length in E2.
      destruct (c2 =? 125); [intros H; injection H as _ <-; lia|].
      intros H. apply IHm in H. lia. }
    destruct (c =? 91).
    { destruct (skip_ws t) as [|c2 t2] eqn:E2; [discriminate|].
      apply skip_ws_cons_length in E2.
      destruct (c2 =? 93); [intros H; injection H as _ <-; lia|].
      intros H. apply IHe in H. lia. }
    destruct (strip_prefix (js "true") (c :: t)) as [rest|] eqn:P1.
    { apply strip_prefix_length in P1. cbn [List.length] in P1.
      intros H; injection H as _ <-. lia. }
    destruct (strip_prefix (js "false") (c :: t)) as [rest|] eqn:P2.
    { apply strip_prefix_length in P2. cbn [List.length] in P2.
      intros H; injection H as _ <-. lia. }
    destruct (strip_prefix (js "null") (c :: t)) as [rest|] eqn:P3.
    { apply strip_prefix_length in P3. cbn [List.length] in P3.
      intros H; injection H as _ <-. lia. }
    destruct (lex_number (c :: t)) as [[lit rest]|] eqn:P4; [|discriminate].
    apply lex_number_length in P4. cbn [List.length] in P4.
    intros H; injection H as _ <-. lia.
  - intros acc s v r. cbn [parse_members].
    destruct (skip_ws s) as [|c t] eqn:E; [discriminate|].
    apply skip_ws_cons_length in E.
    destruct (c =? 34); [|discriminate].
    destruct (parse_string_chars t) as [[key r1]|] eqn:Ek; [|discriminate].
    apply parse_string_chars_length in Ek.
    destruct (skip_ws r1) as [|c1 r2] eqn:E1; [discriminate|].
    apply skip_ws_cons_length in E1.
    destruct (c1 =? 58); [|discriminate].
    destruct (parse_value n r2) as [[x r3]|] eqn:Ev; [|discriminate].
    apply IHv in Ev.
    destruct (skip_ws r3) as [|c3 r4] eqn:E3; [discriminate|].
    apply skip_ws_cons_length in E3.
    destruct (c3 =? 44); [intros H; apply IHm in H; lia|].
    destruct (c3 =? 125); [|discriminate].
    intros H; injection H as _ <-. lia.
  - intros acc s v r. cbn [parse_elements].
    destruct (parse_value n s) as [[x r1]|] eqn:Ev; [|discriminate].
    apply IHv in Ev.
    destruct (skip_ws r1) as [|c r2] eqn:E; [discriminate|].
    apply skip_ws_cons_length in E.
    destruct (c =? 44); [intros H; apply IHe in H; lia|].
    destruct (c =? 93); [|discriminate].
    intros H; injection H as _ <-. lia.
Qed.

(** Beyond twice the length of the text, more fuel changes nothing. *)
Lemma parse_fuel (n : nat) :
  (forall s m, (2 * List.length s + 1 <= n)%nat -> (n <= m)%nat ->
               parse_value m s = parse_value n s)
  /\ (forall acc s m, (2 * List.length s <= n)%nat -> (n <= m)%nat ->
                      parse_members m acc s = parse_members n acc s)
  /\ (forall acc s m, (2 * List.length s + 2 <= n)%nat -> (n <= m)%nat ->
                      parse_elements m acc s = parse_elements n acc s).
Proof.
  induction n as [|n (IHv & IHm & IHe)].
  - repeat split; intros; try lia.
    destruct s; [|cbn [List.length] in *; lia].
    destruct m; reflexivity.
  - repeat split.
    + intros s [|m] Hs Hm; [lia|]. cbn [parse_value].
      destruct (skip_ws s) as [|c t] eqn:E; [reflexivity|].
      apply skip_ws_cons_length in E.
      destruct (c =? 34); [reflexivity|].
      destruct (c =? 123).
      { destruct (skip_ws t) as [|c2 t2]; [reflexivity|].
        destruct (c2 =? 125); [reflexivity|]. apply IHm; lia. }
      destruct (c =? 91); [|reflexivity].
      destruct (skip_ws t) as [|c2 t2]; [reflexivity|].
      destruct (c2 =? 93); [reflexivity|]. apply IHe; lia.
    + intros acc s [|m] Hs Hm; [lia|]. cbn [parse_members].
      destruct (skip_ws s) as [|c t] eqn:E; [reflexivity|].
      apply skip_ws_cons_length in E.
      destruct (c =? 34); [|reflexivity].
      destruct (parse_string_chars t) as [[key r1]|] eqn:Ek; [|reflexivity].
      apply parse_string_chars_length in Ek.
      destruct (skip_ws r1) as [|c1 r2] eqn:E1; [reflexivity|].
      apply skip_ws_cons_length in E1.
      destruct (c1 =? 58); [|reflexivity].
      rewrite (IHv r2 m) by lia.
      destruct (parse_value n r2) as [[x r3]|] eqn:Ev; [|reflexivity].
      apply (proj1 (parse_consumes n)) in Ev.
      destruct (skip_ws r3) as [|c3 r4] eqn:E3; [reflexivity|].
      apply skip_ws_cons_length in E3.
      destruct (c3 =? 44); [|reflexivity]. apply IHm; lia.
    + intros acc s [|m] Hs Hm; [lia|]. cbn [parse_elements].
      rewrite (IHv s m) by lia.
      destruct (parse_value n s) as [[x r1]|] eqn:Ev; [|reflexivity].
      apply (proj1 (parse_consumes n)) in Ev.
      destruct (skip_ws r1) as [|c r2] eqn:E; [reflexivity|].
      apply skip_ws_cons_length in E.
      destruct (c =? 44); [|reflexivity]. apply IHe; lia.
Qed.

(** [JSON_parse] reads its text with enough fuel: no larger fuel gives
    another answer. *)
Lemma JSON_parse_fuel (text : jsstring) (m : nat) :
  (S (2 * List.length text) <= m)%nat ->
  parse_value m text = parse_value (S (2 * List.length text)) text.
Proof. intros H. apply (proj1 (parse_fuel _)); lia. Qed.

(** ** JSON: what [JSON.stringify] writes, [JSON.parse] reads back *)

Lemma hex_value_hex_digit (d : N) : d < 16 -> hex_value (hex_digit d) = Some d.
Proof.
  intros Hd. unfold hex_value, hex_digit.
  destruct (N.ltb_spec d 10) as [Hlt|Hge].
  - replace (48 <=? 48 + d) with true by (symmetry; apply N.leb_le; lia).
    replace (48 + d <=? 57) with true by (symmetry; apply N.leb_le; lia).
    cbn [andb]. f_equal. lia.
  - replace (87 + d <=? 57) with false by (symmetry; apply N.leb_gt; lia).
    rewrite andb_false_r.
    replace (97 <=? 87 + d) with true by (symmetry; apply N.leb_le; lia).
    replace (87 + d <=? 102) with true by (symmetry; apply N.leb_le; lia).
    cbn [andb]. f_equal. lia.
Qed.

Lemma hex4_unicode_escape (c : N) :
  c < 65536 ->
  hex4 (hex_digit (c / 4096 mod 16)) (hex_digit (c / 256 mod 16))
       (hex_digit (c / 16 mod 16)) (hex_digit (c mod 16)) = Some c.
Proof.
  intros Hc. unfold hex4.
  rewrite !hex_value_hex_digit by (apply N.mod_lt; discriminate).
  f_equal.
  assert (E2 : c / 256 = c / 16 / 16) by (rewrite N.Div0.div_div; reflexivity).
  assert (E3 : c / 4096 = c / 256 / 16) by (rewrite N.Div0.div_div; reflexivity).
  pose proof (N.div_mod c 16 ltac:(discriminate)) as H1.
  pose proof (N.div_mod (c / 16) 16 ltac:(discriminate)) as H2.
  pose proof (N.div_mod (c / 256) 16 ltac:(discriminate)) as H3.
  assert (H4 : c / 4096 < 16) by (apply N.Div0.div_lt_upper_bound; apply Hc).
  rewrite (N.mod_small (c / 4096) 16 H4).
  rewrite <- E2 in H2. rewrite <- E3 in H3. lia.
Qed.

Lemma parse_unicode_escape (c : N) (s : jsstring) :
  c < 65536 ->
  parse_string_chars (unicode_escape c ++ s) = cons_char c (parse_string_chars s).
Proof.
  intros Hc. unfold unicode_escape. cbn [app].
  change (parse_string_chars
            (92 :: 117 :: hex_digit (c / 4096 mod 16) :: hex_digit (c / 256 mod 16)
                :: hex_digit (c / 16 mod 16) :: hex_digit (c mod 16) :: s))
    with (match hex4 (hex_digit (c / 4096 mod 16)) (hex_digit (c / 256 mod 16))
                     (hex_digit (c / 16 mod 16)) (hex_digit (c mod 16)) with
          | Some u => cons_char u (parse_string_chars s)
          | None => None
          end).
  rewrite (hex4_unicode_escape c Hc). reflexivity.
Qed.

Lemma parse_plain (c : N) (s : jsstring) :
  c <> 34 -> c <> 92 -> 32 <= c ->
  parse_string_chars (c :: s) = cons_char c (parse_string_chars s).
Proof.
  intros H1 H2 H3. cbn [parse_string_chars].
  rewrite (proj2 (N.eqb_neq c 34) H1), (proj2 (N.eqb_neq c 92) H2).
  replace (c <? 32) with false by (symmetry; apply N.ltb_ge; exact H3).
  reflexivity.
Qed.

Lemma surrogate_bounds (c : N) :
  is_high_surrogate c = true \/ is_low_surrogate c = true ->
  55296 <= c /\ c < 65536.
Proof.
  unfold is_high_surrogate, is_low_surrogate.
  intros [H|H]; apply andb_prop in H; destruct H as [H1 H2];
    apply N.leb_le in H1, H2; lia.
Qed.

Lemma parse_quote_unit (c : N) (s : jsstring) :
  parse_string_chars (quote_unit c ++ s) = cons_char c (parse_string_chars s).
Proof.
  unfold quote_unit.
  destruct (N.eqb_spec c 8) as [->|N8]; [reflexivity|].
  destruct (N.eqb_spec c 9) as [->|N9]; [reflexivity|].
  destruct (N.eqb_spec c 10) as [->|N10]; [reflexivity|].
  destruct (N.eqb_spec c 12) as [->|N12]; [reflexivity|].
  destruct (N.eqb_spec c 13) as [->|N13]; [reflexivity|].
  destruct (N.eqb_spec c 34) as [->|N34]; [reflexivity|].
  destruct (N.eqb_spec c 92) as [->|N92]; [reflexivity|].
  destruct (N.ltb_spec c 32) as [Hlt|Hge]; cbn [orb].
  - apply parse_unicode_escape. lia.
  - destruct (is_high_surrogate c || is_low_surrogate c) eqn:Hs.
    + apply parse_unicode_escape. apply orb_prop in Hs.
      apply (surrogate_bounds c Hs).
    + cbn [app]. apply parse_plain; assumption.
Qed.

Lemma parse_string_chars_quote_bounded (n : nat) :
  forall s rest,
    (List.length s <= n)%nat ->
    parse_string_chars (quote_chars s ++ 34 :: rest) = Some (s, rest).
Proof.
  induction n as [|n IH]; intros s rest Hlen.
  - destruct s; [reflexivity | cbn in Hlen; lia].
  - destruct s as [|c r]; [reflexivity|].
    cbn [List.length] in Hlen. cbn [quote_chars].
    destruct (is_high_surrogate c) eqn:Hh.
    + destruct (surrogate_bounds c (or_introl Hh)) as [Hlo Hhi].
      destruct r as [|d r'].
      * rewrite parse_unicode_escape by exact Hhi. reflexivity.
      * destruct (is_low_surrogate d) eqn:Hl.
        -- destruct (surrogate_bounds d (or_intror Hl)) as [Hlo' _].
           cbn [app]. rewrite parse_plain by lia. rewrite parse_plain by lia.
           rewrite IH by (cbn [List.length] in Hlen; lia). reflexivity.
        -- rewrite <- app_assoc, parse_unicode_escape by exact Hhi.
           rewrite IH by lia. reflexivity.
    + rewrite <- app_assoc, parse_quote_unit.
      rewrite IH by lia. reflexivity.
Qed.

(** A quoted string is read back as the string it was written from. *)
Lemma parse_string_chars_quote (s rest : jsstring) :
  parse_string_chars (quote_chars s ++ 34 :: rest) = Some (s, rest).
Proof. apply (parse_string_chars_quote_bounded (List.length s)). lia. Qed.

Lemma parse_value_string (fuel : nat) (s str rest : jsstring) :
  skip_ws s = 34 :: quote_chars str ++ 34 :: rest ->
  parse_value (S fuel) s = Some (JString str, rest).
Proof.
  intros H. cbn [parse_value]. rewrite H.
  change (34 =? 34) with true. cbv iota.
  rewrite parse_string_chars_quote. reflexivity.
Qed.

(** One member of an object whose value is a string, written the way
    [JSON.stringify] writes it when it indents. *)
Lemma parse_members_string (fuel : nat) (acc : list (jsstring * jsval))
      (key value rest r : jsstring) (c : N) :
  skip_ws rest = c :: r ->
  parse_members (S (S fuel)) acc (memberText key value rest)
  = if c =? 44 then parse_members (S fuel) (set_prop key (JString value) acc) r
    else if c =? 125 then Some (JObject (set_prop key (JString value) acc), r)
    else None.
Proof.
  intros Hrest. cbn [parse_members].
  change (skip_ws (memberText key value rest))
    with (34 :: quote_chars key
             ++ 34 :: 58 :: 32 :: 34 :: quote_chars value ++ 34 :: rest).
  change (34 =? 34) with true. cbv iota.
  rewrite parse_string_chars_quote.
  change (skip_ws (58 :: 32 :: 34 :: quote_chars value ++ 34 :: rest))
    with (58 :: 32 :: 34 :: quote_chars value ++ 34 :: rest).
  change (58 =? 58) with true. cbv iota.
  rewrite (parse_value_string fuel (32 :: 34 :: quote_chars value ++ 34 :: rest)
                              value rest eq_refl).
  rewrite Hrest. reflexivity.
Qed.

Lemma parse_members_more (fuel : nat) (acc : list (jsstring * jsval))
      (key value r : jsstring) :
  parse_members (S (S fuel)) acc (memberText key value (44 :: r))
  = parse_members (S fuel) (set_prop key (JString value) acc) r.
Proof. apply (parse_members_string fuel acc key value (44 :: r) r 44 eq_refl). Qed.

Lemma parse_members_last (fuel : nat) (acc : list (jsstring * jsval))
      (key value r : jsstring) :
  parse_members (S (S fuel)) acc (memberText key value (10 :: 125 :: r))
  = Some (JObject (set_prop key (JString value) acc), r).
Proof. apply (parse_members_string fuel acc key value (10 :: 125 :: r) r 125 eq_refl). Qed.

Lemma parse_value_projectText (fuel : nat) (v f j ts : jsstring) :
  parse_value (6 + fuel) (projectText v f j ts)
  = Some (JObject [ (js "vertexShader", JString v); (js "fragmentShader", JString f);
                    (js "jsCode", JString j); (js "timestamp", JString ts) ], []).
Proof.
  unfold projectText. cbn [Nat.add parse_value].
  change (skip_ws (123 :: ?r)) with (123 :: r).
  change (123 =? 34) with false. change (123 =? 123) with true. cbv iota.
  change (skip_ws (memberText (js "vertexShader") v ?r))
    with (34 :: quote_chars (js "vertexShader")
             ++ 34 :: 58 :: 32 :: 34 :: quote_chars v ++ 34 :: r).
  change (34 =? 125) with false. cbv iota.
  rewrite !parse_members_more, parse_members_last.
  reflexivity.
Qed.

Lemma exportDocument_eq (v f j ts : jsstring) (p : World) :
  vertexShader p = JString v -> fragmentShader p = JString f -> jsCode p = JString j ->
  exportDocument p ts = projectText v f j ts.
Proof.
  intros Hv Hf Hj. unfold exportDocument, exportData, JSON_stringify.
  rewrite Hv, Hf, Hj. cbn -[quote_chars quote].
  unfold quote, projectText, memberText.
  repeat (rewrite <- app_assoc; cbn [app]).
  reflexivity.
Qed.

(** The project file of a project whose buffers are strings is read back
    as the object it was written from. *)
Lemma JSON_parse_exportDocument (v f j ts : jsstring) (p : World) :
  vertexShader p = JString v -> fragmentShader p = JString f -> jsCode p = JString j ->
  JSON_parse (exportDocument p ts)
  = inl (JObject [ (js "vertexShader", JString v); (js "fragmentShader", JString f);
                   (js "jsCode", JString j); (js "timestamp", JString ts) ]).
Proof.
  intros Hv Hf Hj. rewrite (exportDocument_eq v f j ts p Hv Hf Hj).
  unfold JSON_parse.
  assert (Hfuel : exists n, S (2 * List.length (projectText v f j ts)) = (6 + n)%nat)
    by (unfold projectText, memberText; cbn [List.length Nat.mul Nat.add];
        eexists; reflexivity).
  destruct Hfuel as [n ->].
  rewrite parse_value_projectText. reflexivity.
Qed.

Lemma js_or_string (value fallback : jsstring) :
  js_or (JString value) (JString fallback) = JString (orDefault value fallback).
Proof. destruct value; reflexivity. Qed.

Lemma orDefault_nonempty (value fallback : jsstring) :
  value <> [] -> orDefault value fallback = value.
Proof. destruct value; [contradiction | reflexivity]. Qed.

(** C1, as the code has it: exporting a project whose buffers are strings
    and importing the document gives, in each buffer, the exported string
    when that string is not empty and the built-in default when it is. *)
Theorem export_import (v f j timestamp : jsstring) (p w : World) :
  vertexShader p = JString v -> fragmentShader p = JString f -> jsCode p = JString j ->
  returns (importOnLoad (exportDocument p timestamp)) w = true
  /\ vertexShader (after (importOnLoad (exportDocument p timestamp)) w)
     = JString (orDefault v defaultVertexShader)
  /\ fragmentShader (after (importOnLoad (exportDocument p timestamp)) w)
     = JString (orDefault f defaultFragmentShader)
  /\ jsCode (after (importOnLoad (exportDocument p timestamp)) w)
     = JString (orDefault j defaultJavaScript).
Proof.
  intros Hv Hf Hj. unfold returns, after.
  rewrite importOnLoad_eq, (JSON_parse_exportDocument v f j timestamp p Hv Hf Hj).
  unfold imported. world_simpl.
  change (field (JObject ?o) (js "vertexShader")) with (JString v).
  change (field (JObject ?o) (js "fragmentShader")) with (JString f).
  change (field (JObject ?o) (js "jsCode")) with (JString j).
  rewrite !js_or_string. repeat split.
Qed.

Lemma export_import_witness :
  vertexShader smallWorld = JString (js "void main(){gl_Position=vec4(0.0);}")
  /\ fragmentShader smallWorld = JString (js "void main(){gl_FragColor=vec4(1.0);}")
  /\ jsCode smallWorld = JString (js "draw(`${vertexShader}`, `${fragmentShader}`);")
  /\ vertexShader
       (after (importOnLoad (exportDocument smallWorld (js "2025-01-01T00:00:00.000Z")))
              freshWorld)
     = JString (js "void main(){gl_Position=vec4(0.0);}").
Proof.
  split; [reflexivity|]. split; [reflexivity|]. split; [reflexivity|].
  apply (export_import (js "void main(){gl_Position=vec4(0.0);}")
                       (js "void main(){gl_FragColor=vec4(1.0);}")
                       (js "draw(`${vertexShader}`, `${fragmentShader}`);")
                       (js "2025-01-01T00:00:00.000Z") smallWorld freshWorld
                       eq_refl eq_refl eq_refl).
Defined.

(** The claim C1 at a project whose vertex buffer is empty: after export
    and import the vertex buffer is the built-in default, not the empty
    string that was exported. *)
Lemma export_import_empty_vertex :
  vertexShader emptyVertexWorld = JString []
  /\ vertexShader
       (after (importOnLoad (exportDocument emptyVertexWorld
                                            (js "2025-01-01T00:00:00.000Z")))
              freshWorld)
     <> vertexShader emptyVertexWorld.
Proof. split; [reflexivity | discriminate]. Qed.

(** ** Escaping a shader source *)

(** Replacing a one-character pattern works character by character. *)
Lemma replace_from_char (p : N) (replacement out : jsstring) :
  (forall before after, getSubstitution [p] before after replacement = out) ->
  forall s before,
    replace_from [p] replacement O before s
    = flat_map (fun c => if p =? c then out else [c]) s.
Proof.
  intros Hout. induction s as [|c s IH]; intros before; [reflexivity|].
  cbn [replace_from strip_prefix flat_map List.length Nat.pred].
  destruct (p =? c); rewrite IH; [rewrite Hout|]; reflexivity.
Qed.

Lemma flat_map_flat_map {A B C : Type} (f : A -> list B) (g : B -> list C)
      (l : list A) :
  flat_map g (flat_map f l) = flat_map (fun a => flat_map g (f a)) l.
Proof.
  induction l as [|a l IH]; cbn [flat_map]; [reflexivity|].
  rewrite flat_map_app, IH. reflexivity.
Qed.

Lemma escapeShader_string (s : jsstring) :
  escapeShader (JString s) = inl (flat_map escapeUnit s).
Proof.
  unfold escapeShader, method_replace, and_then, replace_all. f_equal.
  rewrite (replace_from_char 92 (js "\\") [92; 92]) by reflexivity.
  rewrite (replace_from_char 96 (js "\`") [92; 96]) by reflexivity.
  rewrite (replace_from_char 36 (js "\$") [92; 36]) by reflexivity.
  rewrite !flat_map_flat_map. apply flat_map_ext. intros c. unfold escapeUnit.
  destruct (N.eqb_spec c 92) as [->|N92]; [reflexivity|].
  destruct (N.eqb_spec c 96) as [->|N96]; [reflexivity|].
  destruct (N.eqb_spec c 36) as [->|N36]; [reflexivity|].
  cbn [orb].
  rewrite (proj2 (N.eqb_neq 92 c)) by congruence. cbn [flat_map app].
  rewrite (proj2 (N.eqb_neq 96 c)) by congruence. cbn [flat_map app].
  rewrite (proj2 (N.eqb_neq 36 c)) by congruence. reflexivity.
Qed.


Section Substitution.

(** One match: the matched text and the text around it. *)
Variables matched before after : jsstring.

Lemma getSubstitution_plain (r : jsstring) (c : N) :
  c <> 36 ->
  getSubstitution matched before after (c :: r)
  = c :: getSubstitution matched before after r.
Proof.
  intros H. cbn [getSubstitution]. rewrite (proj2 (N.eqb_neq c 36) H). reflexivity.
Qed.

Lemma getSubstitution_dollar (r : jsstring) (d : N) :
  d <> 36 -> d <> 38 -> d <> 96 -> d <> 39 ->
  getSubstitution matched before after (36 :: d :: r)
  = 36 :: getSubstitution matched before after (d :: r).
Proof.
  intros H36 H38 H96 H39.
  change (getSubstitution matched before after (36 :: d :: r))
    with (if d =? 36 then 36 :: getSubstitution matched before after r
          else if d =? 38 then matched ++ getSubstitution matched before after r
          else if d =? 96 then before ++ getSubstitution matched before after r
          else if d =? 39 then after ++ getSubstitution matched before after r
          else 36 :: getSubstitution matched before after (d :: r)).
  rewrite (proj2 (N.eqb_neq d 36) H36), (proj2 (N.eqb_neq d 38) H38),
    (proj2 (N.eqb_neq d 96) H96), (proj2 (N.eqb_neq d 39) H39).
  reflexivity.
Qed.

(** The substitution inserts the escaped source as it is, unless the
    source holds a dollar sign followed by [&] or by an apostrophe: those
    two are the patterns of a replacement text that escaping leaves
    standing. *)
Lemma getSubstitution_escaped (s : jsstring) :
  dollarSafe s = true ->
  getSubstitution matched before after (flat_map escapeUnit s)
  = flat_map escapeUnit s.
Proof.
  induction s as [|c s IH]; [reflexivity|].
  cbn [dollarSafe flat_map]. intros H. apply andb_prop in H. destruct H as [Hc Hs].
  specialize (IH Hs). unfold escapeUnit at 1 3.
  destruct (N.eqb_spec c 36) as [->|N36].
  - change (getSubstitution matched before after (92 :: 36 :: flat_map escapeUnit s)
            = 92 :: 36 :: flat_map escapeUnit s).
    rewrite getSubstitution_plain by discriminate. f_equal.
    destruct s as [|d s']; [reflexivity|].
    cbn [andb negb] in Hc. change (36 =? 36) with true in Hc. cbn [andb] in Hc.
    apply negb_true_iff, orb_false_elim in Hc. destruct Hc as [H38 H39].
    apply N.eqb_neq in H38, H39.
    cbn [flat_map] in *. unfold escapeUnit at 1 3 in IH. unfold escapeUnit at 1 3.
    destruct ((d =? 92) || (d =? 96) || (d =? 36)) eqn:Hspecial.
    + cbn [app] in *. rewrite getSubstitution_dollar by discriminate.
      rewrite IH. reflexivity.
    + apply orb_false_elim in Hspecial. destruct Hspecial as [Hs1 H36].
      apply orb_false_elim in Hs1. destruct Hs1 as [_ H96].
      apply N.eqb_neq in H36, H96.
      cbn [app] in *. rewrite getSubstitution_dollar by assumption.
      rewrite IH. reflexivity.
  - destruct ((c =? 92) || (c =? 96)) eqn:Hc2; cbn [orb app].
    + rewrite getSubstitution_plain by discriminate.
      rewrite getSubstitution_plain by exact N36. rewrite IH. reflexivity.
    + rewrite getSubstitution_plain by exact N36. rewrite IH. reflexivity.
Qed.

End Substitution.

(** ** Substitution of the shader sources *)

Lemma replace_from_ext (pat r1 r2 : jsstring) :
  (forall before after,
      getSubstitution pat before after r1 = getSubstitution pat before after r2) ->
  forall s skip before,
    replace_from pat r1 skip before s = replace_from pat r2 skip before s.
Proof.
  intros Hsub. induction s as [|c s IH]; intros skip before; cbn [replace_from];
    [reflexivity|].
  destruct skip as [|k]; [|apply IH].
  destruct (strip_prefix pat (c :: s)); rewrite IH; [rewrite Hsub|]; reflexivity.
Qed.

(** C2: escaping and substituting is not lossless: the vertex sources
    [$&] and [${vertexShader}] are different and give the same script
    for every fragment source and every driver script; with the driver
    [`${vertexShader}`] the script holds [\${vertexShader}] where the
    escaped source [\$&] was to go. *)
Theorem buildScript_confuses_sources :
  js "$&" <> js "${vertexShader}"
  /\ (forall fragmentShader jsCode : jsval,
         buildScript (JString (js "$&")) fragmentShader jsCode
         = buildScript (JString (js "${vertexShader}")) fragmentShader jsCode)
  /\ escapeShader (JString (js "$&")) = inl (js "\$&")
  /\ buildScript (JString (js "$&")) (JString []) (JString (js "`${vertexShader}`"))
     = inl (js "`\${vertexShader}`").
Proof.
  split; [discriminate|]. split; [|split; reflexivity].
  intros f d. unfold buildScript.
  change (escapeShader (JString (js "$&"))) with (@inl jsstring jserror (js "\$&")).
  change (escapeShader (JString (js "${vertexShader}")))
    with (@inl jsstring jserror (js "\${vertexShader}")).
  cbn [and_then]. destruct (escapeShader f) as [ef|e]; [|reflexivity].
  cbn [and_then]. destruct d; try reflexivity.
  unfold method_replace at 1 3. unfold replace_all.
  rewrite (replace_from_ext (js "${vertexShader}") (js "\$&") (js "\${vertexShader}"));
    [reflexivity|].
  intros before after. reflexivity.
Qed.

(** ** Signature help *)

(** C3, as the code has it: the answer for the line [mix(a, b,] with the
    cursor at its end is the signature of [mix] with active parameter 0,
    and every answer of [provideSignatureHelp] has active signature 0 and
    active parameter 0, whatever the commas before the cursor. *)
Theorem provideSignatureHelp_activeParameter :
  (exists sig,
      assoc (js "mix") signatures = Some sig
      /\ provideSignatureHelp (js "mix(a, b,") 10
         = Some {| help_signatures := [Signature sig];
                   activeSignature := 0; activeParameter := 0 |})
  /\ forall line column help,
      provideSignatureHelp line column = Some help ->
      activeParameter help = 0 /\ activeSignature help = 0.
Proof.
  split.
  - eexists. split; reflexivity.
  - intros line column help. unfold provideSignatureHelp.
    destruct (functionMatch (firstn (column - 1) line)) as [name|]; [|discriminate].
    destruct (get_property signatures name); try discriminate;
      intros H; injection H as <-; split; reflexivity.
Qed.

Lemma provideSignatureHelp_activeParameter_witness :
  exists help,
    provideSignatureHelp (js "vec3(1.0, 2.0, ") 16 = Some help
    /\ activeParameter help = 0 /\ activeSignature help = 0.
Proof.
  eexists. split; [reflexivity|].
  apply (proj2 provideSignatureHelp_activeParameter (js "vec3(1.0, 2.0, ") 16%nat).
  reflexivity.
Defined.

(** The claim C3 at its own example: the active parameter is not 2. *)
Lemma provideSignatureHelp_mix_not_2 :
  option_map activeParameter (provideSignatureHelp (js "mix(a, b,") 10) <> Some 2.
Proof. discriminate. Qed.

(** ** Stop *)

(** C4: [stopShader] in a state that is not running returns, leaves the
    running flag false and leaves the three buffers as they were. *)
Theorem stopShader_idle (w : World) :
  isRunning w = false ->
  returns stopShader w = true
  /\ isRunning (after stopShader w) = false
  /\ vertexShader (after stopShader w) = vertexShader w
  /\ fragmentShader (after stopShader w) = fragmentShader w
  /\ jsCode (after stopShader w) = jsCode w.
Proof.
  intros _. unfold returns, after.
  destruct (stopShader_spec w) as [Hr Hc]. rewrite Hr.
  unfold core in Hc. world_simpl.
  injection Hc as Hv Hf Hj Hrun _ _ _ _ _ _. auto.
Qed.

Lemma stopShader_idle_witness :
  isRunning smallWorld = false
  /\ returns stopShader smallWorld = true
  /\ isRunning (after stopShader smallWorld) = false
  /\ vertexShader (after stopShader smallWorld) = vertexShader smallWorld
  /\ fragmentShader (after stopShader smallWorld) = fragmentShader smallWorld
  /\ jsCode (after stopShader smallWorld) = jsCode smallWorld.
Proof.
  split; [reflexivity|]. apply (stopShader_idle smallWorld). reflexivity.
Defined.

(** ** Examples *)

(** C5: [loadExample('basic')] returns, sets the vertex and the fragment
    buffer to the sources of the catalog entry [basic] and leaves the
    driver script as it was. *)
Theorem loadExample_basic (w : World) :
  exists example,
    assoc (js "basic") shaderExamples = Some example
    /\ returns (loadExample (js "basic")) w = true
    /\ vertexShader (after (loadExample (js "basic")) w) = JString (vertex example)
    /\ fragmentShader (after (loadExample (js "basic")) w) = JString (fragment example)
    /\ jsCode (after (loadExample (js "basic")) w) = jsCode w.
Proof.
  eexists. split; [reflexivity|].
  unfold returns, after. rewrite loadExample_eq.
  change (get_property shaderExamples (js "basic"))
    with (Own {| vertex := basic_vertex; fragment := basic_fragment |}).
  repeat split.
Qed.

(** C9, as the code has it: for a name that is neither a key of the
    catalog nor a property the catalog object inherits, [loadExample]
    returns to its caller, logs the TypeError it caught, and leaves the
    three buffers as they were. *)
Theorem loadExample_unknown (exampleName : jsstring) (w : World) :
  get_property shaderExamples exampleName = Absent ->
  returns (loadExample exampleName) w = true
  /\ trace (after (loadExample exampleName) w)
     = trace w ++ [ConsoleError (js "Error loading example:") (TypeError (js "vertex"))]
  /\ vertexShader (after (loadExample exampleName) w) = vertexShader w
  /\ fragmentShader (after (loadExample exampleName) w) = fragmentShader w
  /\ jsCode (after (loadExample exampleName) w) = jsCode w.
Proof.
  intros H. unfold returns, after. rewrite loadExample_eq, H.
  repeat split.
Qed.

Lemma loadExample_unknown_witness :
  get_property shaderExamples (js "plasma") = Absent
  /\ returns (loadExample (js "plasma")) smallWorld = true
  /\ trace (after (loadExample (js "plasma")) smallWorld)
     = trace smallWorld
       ++ [ConsoleError (js "Error loading example:") (TypeError (js "vertex"))]
  /\ vertexShader (after (loadExample (js "plasma")) smallWorld) = vertexShader smallWorld
  /\ fragmentShader (after (loadExample (js "plasma")) smallWorld)
     = fragmentShader smallWorld
  /\ jsCode (after (loadExample (js "plasma")) smallWorld) = jsCode smallWorld.
Proof.
  split; [reflexivity|].
  apply (loadExample_unknown (js "plasma") smallWorld). reflexivity.
Defined.

(** The claim C9 at the name [plasma]: the name is not in the catalog
    and the call does not fail for its caller. *)
Lemma loadExample_unknown_returns :
  assoc (js "plasma") shaderExamples = None
  /\ returns (loadExample (js "plasma")) smallWorld <> false.
Proof. split; [reflexivity | discriminate]. Qed.

(** ** Import *)

(** C6: importing the document [{"fragmentShader": "X"}] sets the
    fragment buffer to [X] and the vertex and driver buffers to the
    built-in defaults, whatever the buffers held before. *)
Theorem importOnLoad_one_field (w : World) :
  returns (importOnLoad (dq "{'fragmentShader': 'X'}")) w = true
  /\ fragmentShader (after (importOnLoad (dq "{'fragmentShader': 'X'}")) w)
     = JString (js "X")
  /\ vertexShader (after (importOnLoad (dq "{'fragmentShader': 'X'}")) w)
     = JString defaultVertexShader
  /\ jsCode (after (importOnLoad (dq "{'fragmentShader': 'X'}")) w)
     = JString defaultJavaScript.
Proof.
  unfold returns, after. rewrite importOnLoad_eq.
  change (JSON_parse (dq "{'fragmentShader': 'X'}"))
    with (@inl jsval jserror (JObject [(js "fragmentShader", JString (js "X"))])).
  repeat split.
Qed.

Lemma field_empty_or_absent (props : list (jsstring * jsval)) (key : jsstring)
      (default : jsval) :
  lookup_prop key props = Some (JString []) \/ lookup_prop key props = None ->
  js_or (field (JObject props) key) default = default.
Proof. unfold field. intros [-> | ->]; reflexivity. Qed.

(** C10: when the imported document is an object in which a field of the
    project is the empty string, the buffer of that field is set to the
    built-in default, exactly as when the field is absent. *)
Theorem importOnLoad_empty_field (text : jsstring) (props : list (jsstring * jsval))
        (w : World) :
  JSON_parse text = inl (JObject props) ->
  (lookup_prop (js "vertexShader") props = Some (JString [])
   \/ lookup_prop (js "vertexShader") props = None ->
   vertexShader (after (importOnLoad text) w) = JString defaultVertexShader)
  /\ (lookup_prop (js "fragmentShader") props = Some (JString [])
      \/ lookup_prop (js "fragmentShader") props = None ->
      fragmentShader (after (importOnLoad text) w) = JString defaultFragmentShader)
  /\ (lookup_prop (js "jsCode") props = Some (JString [])
      \/ lookup_prop (js "jsCode") props = None ->
      jsCode (after (importOnLoad text) w) = JString defaultJavaScript).
Proof.
  intros Hparse. unfold after. rewrite importOnLoad_eq, Hparse.
  unfold imported. world_simpl.
  repeat split; apply field_empty_or_absent.
Qed.

Lemma importOnLoad_empty_field_witness :
  JSON_parse (dq "{'vertexShader': '', 'jsCode': 'run()'}")
  = inl (JObject [(js "vertexShader", JString []); (js "jsCode", JString (js "run()"))])
  /\ lookup_prop (js "vertexShader")
       [(js "vertexShader", JString []); (js "jsCode", JString (js "run()"))]
     = Some (JString [])
  /\ vertexShader (after (importOnLoad (dq "{'vertexShader': '', 'jsCode': 'run()'}"))
                         smallWorld)
     = JString defaultVertexShader.
Proof.
  split; [reflexivity|]. split; [reflexivity|].
  apply (proj1 (importOnLoad_empty_field
                  (dq "{'vertexShader': '', 'jsCode': 'run()'}")
                  [(js "vertexShader", JString []); (js "jsCode", JString (js "run()"))]
                  smallWorld eq_refl)).
  left. reflexivity.
Defined.

(** ** Start *)

(** C7: [runShader] always returns to its caller; and when the body of
    its [try] throws, the error is logged with [console.error], as the
    last effect of the call, and the running flag ends up false. *)
Theorem runShader_catches (effect : ScriptEffect) (w : World) :
  returns (runShader effect) w = true
  /\ forall e,
      canvasRef w = true ->
      fst (injectScript w effect (tryEntry w)) = inr e ->
      isRunning (after (runShader effect) w) = false
      /\ exists earlier,
          trace (after (runShader effect) w)
          = earlier ++ [ConsoleError (js "Error running shader:") e].
Proof.
  unfold returns, after. rewrite runShader_eq. split.
  - destruct (negb (canvasRef w)); [reflexivity|].
    destruct (injectScript w effect (tryEntry w)) as [[[]|e] w']; reflexivity.
  - intros e Hc Hthrow. rewrite Hc. cbn [negb].
    destruct (injectScript w effect (tryEntry w)) as [[[]|e'] w'];
      cbn [fst] in Hthrow; [discriminate|].
    injection Hthrow as ->. world_simpl. split; [reflexivity|].
    exists (trace w'). reflexivity.
Qed.

(** C8, as the code has it: in every reachable state the page holds at
    most one element with the id of the injected script; after two calls
    of [runShader] in a row the state is running exactly when the
    injection does not fail, and the page then holds exactly one such
    element; when the injection fails it holds none. *)
Theorem one_injected_script (w : World) :
  reachable w ->
  (shaderScripts w <= 1)%nat
  /\ forall effect1 effect2,
      isRunning (after (runShader effect2) (after (runShader effect1) w))
      = match injectionFailure w with Some _ => false | None => true end
      /\ shaderScripts (after (runShader effect2) (after (runShader effect1) w))
         = if isRunning (after (runShader effect2) (after (runShader effect1) w))
           then 1%nat else 0%nat.
Proof.
  intros Hr. destruct (reachable_invariant w Hr) as [Hc Hle].
  split; [exact Hle|]. intros effect1 effect2.
  pose proof (reachable_step w (Run effect1) Hr) as Hr1. cbn [handle] in Hr1.
  destruct (reachable_invariant _ Hr1) as [Hc1 Hle1].
  assert (Hsame : injectionFailure (after (runShader effect1) w) = injectionFailure w).
  { destruct (runShader_spec effect1 w Hc) as [Hcomp _].
    unfold component in Hcomp. injection Hcomp as Hv Hf Hj _ _ Hx.
    unfold injectionFailure, after. rewrite Hv, Hf, Hj, Hx. reflexivity. }
  assert (Hrun : isRunning (after (runShader effect2) (after (runShader effect1) w))
                 = match injectionFailure w with Some _ => false | None => true end).
  { destruct (runShader_spec effect2 _ Hc1) as [Hcomp _].
    unfold component in Hcomp. injection Hcomp as _ _ _ Hrun _ _.
    rewrite <- Hsame. exact Hrun. }
  split; [exact Hrun|].
  rewrite (runShader_count effect2 _ Hc1 Hle1), Hsame, Hrun.
  destruct (injectionFailure w); reflexivity.
Qed.

Lemma runShader_catches_witness :
  canvasRef numberWorld = true
  /\ fst (injectScript numberWorld KeepHook (tryEntry numberWorld))
     = inr (TypeError (js "replace"))
  /\ isRunning (after (runShader KeepHook) numberWorld) = false
  /\ exists earlier,
      trace (after (runShader KeepHook) numberWorld)
      = earlier ++ [ConsoleError (js "Error running shader:") (TypeError (js "replace"))].
Proof.
  split; [reflexivity|]. split; [reflexivity|].
  apply (proj2 (runShader_catches KeepHook numberWorld) (TypeError (js "replace")));
    reflexivity.
Defined.

Lemma one_injected_script_witness :
  reachable smallWorld
  /\ (shaderScripts smallWorld <= 1)%nat
  /\ isRunning (after (runShader KeepHook)
                      (after (runShader (InstallHook {| hook_throws := false |}))
                             smallWorld))
     = true
  /\ shaderScripts (after (runShader KeepHook)
                          (after (runShader (InstallHook {| hook_throws := false |}))
                                 smallWorld))
     = 1%nat.
Proof.
  assert (Hr : reachable smallWorld) by (apply reachable_mount; apply le_0_n).
  split; [exact Hr|].
  split; [exact (proj1 (one_injected_script smallWorld Hr))|].
  destruct (proj2 (one_injected_script smallWorld Hr)
                  (InstallHook {| hook_throws := false |}) KeepHook) as [H1 H2].
  rewrite H2, H1. split; reflexivity.
Defined.

(** The claim C8 in the state reached by importing a project file whose
    vertex field is a number: two calls of [runShader] in a row leave no
    injected script in the page, not one. *)
Lemma two_starts_no_script :
  reachable numberWorld
  /\ shaderScripts (after (runShader KeepHook) (after (runShader KeepHook) numberWorld))
     <> 1%nat.
Proof.
  split; [|discriminate].
  apply (reachable_step smallWorld (Import (Some (dq "{'vertexShader': 5}")))).
  apply reachable_mount. apply le_0_n.
Qed.

(* ================================================================= *)
(** * Further properties of the handlers *)

(** ** Exceptions and frames *)

Lemma runShader_returns (effect : ScriptEffect) (w : World) :
  fst (runShader effect w) = inl tt.
Proof.
  rewrite runShader_eq. destruct (negb (canvasRef w)); [reflexivity|].
  destruct (injectScript w effect (tryEntry w)) as [[[]|e] w']; reflexivity.
Qed.

(** X1: no handler of the component lets an exception reach its caller,
    whatever the event and whatever the state and the page. *)
Theorem handle_returns (ev : Event) (w : World) :
  returns (handle ev) w = true.
Proof.
  unfold returns.
  destruct ev as [eff| | |iso ms|[text|]|name|v|v|v|tab|]; cbn [handle importCode];
    try reflexivity.
  - rewrite runShader_returns. reflexivity.
  - rewrite (proj1 (stopShader_spec w)). reflexivity.
  - rewrite importOnLoad_eq. destruct (JSON_parse text) as [[]|e]; reflexivity.
  - rewrite loadExample_eq.
    destruct (get_property shaderExamples name); reflexivity.
Qed.

Lemma runShader_buffers (effect : ScriptEffect) (w : World) :
  vertexShader (after (runShader effect) w) = vertexShader w
  /\ fragmentShader (after (runShader effect) w) = fragmentShader w
  /\ jsCode (after (runShader effect) w) = jsCode w.
Proof.
  unfold after. destruct (canvasRef w) eqn:Hc.
  - destruct (runShader_spec effect w Hc) as [H _]. unfold component in H.
    injection H as Hv Hf Hj _ _ _. auto.
  - rewrite runShader_eq, Hc. repeat split.
Qed.

Lemma handle_keeps_buffers_aux (ev : Event) (w : World) :
  writesBuffers ev = false ->
  vertexShader (after (handle ev) w) = vertexShader w
  /\ fragmentShader (after (handle ev) w) = fragmentShader w
  /\ jsCode (after (handle ev) w) = jsCode w.
Proof.
  destruct ev as [eff| | |iso ms|[text|]|name|v|v|v|tab|]; cbn [writesBuffers];
    try discriminate; intros _; cbn [handle importCode];
    try (repeat split; reflexivity).
  - apply runShader_buffers.
  - unfold after. destruct (stopShader_spec w) as [_ H]. unfold core in H.
    world_simpl. injection H as Hv Hf Hj _ _ _ _ _ _ _. auto.
Qed.

(** X2: starting, stopping, exporting, switching the tab, opening the
    examples menu and a cancelled import leave the three buffers as they
    are: only an edit, a reset, an import and an example write them. *)
Theorem handle_keeps_buffers (ev : Event) (w : World) :
  writesBuffers ev = false ->
  vertexShader (after (handle ev) w) = vertexShader w
  /\ fragmentShader (after (handle ev) w) = fragmentShader w
  /\ jsCode (after (handle ev) w) = jsCode w.
Proof. apply handle_keeps_buffers_aux. Qed.

Lemma handle_keeps_buffers_witness :
  writesBuffers (Run KeepHook) = false
  /\ vertexShader (after (handle (Run KeepHook)) numberWorld) = vertexShader numberWorld
  /\ fragmentShader (after (handle (Run KeepHook)) numberWorld)
     = fragmentShader numberWorld
  /\ jsCode (after (handle (Run KeepHook)) numberWorld) = jsCode numberWorld.
Proof.
  split; [reflexivity|]. apply (handle_keeps_buffers (Run KeepHook) numberWorld).
  reflexivity.
Defined.

(** ** The running flag and the injected script *)

Lemma handle_running (ev : Event) (w : World) :
  match ev with
  | Run _ | Stop => True
  | _ => isRunning (after (handle ev) w) = isRunning w
  end.
Proof.
  destruct ev as [eff| | |iso ms|[text|]|name|v|v|v|tab|]; try exact I;
    unfold after; cbn [handle importCode]; try reflexivity.
  - rewrite importOnLoad_eq. destruct (JSON_parse text) as [[]|e]; reflexivity.
  - rewrite loadExample_eq.
    destruct (get_property shaderExamples name); reflexivity.
Qed.

Lemma reachable_running (w : World) :
  reachable w ->
  canvasRef w = true /\ (isRunning w = true -> shaderScripts w = 1%nat).
Proof.
  induction 1 as [iv ifr ij pageHead hook ctx Hle | w ev Hr [Hc Hrun]].
  - split; [reflexivity | discriminate].
  - split; [apply handle_keeps_canvas; exact Hc|].
    pose proof (proj2 (reachable_invariant w Hr)) as Hle.
    pose proof (handle_running ev w) as Hk. pose proof (handle_page ev w) as Hp.
    destruct ev;
      try (destruct Hp as (Hp & _); unfold shaderScripts in *;
           rewrite Hk, Hp; exact Hrun).
    + cbn [handle]. rewrite (runShader_count effect w Hc Hle).
      unfold after. destruct (runShader_spec effect w Hc) as [Hcomp _].
      unfold component in Hcomp. injection Hcomp as _ _ _ Hr' _ _. rewrite Hr'.
      destruct (injectionFailure w); [discriminate | reflexivity].
    + cbn [handle]. unfold after. destruct (stopShader_spec w) as [_ H'].
      unfold core in H'. world_simpl. injection H' as _ _ _ Hr' _ _ _ _ _ _.
      rewrite Hr'. discriminate.
Qed.

(** X3: in every reachable state in which the running flag is set, the
    page holds exactly one element with the id of the injected script. *)
Theorem running_has_one_script (w : World) :
  reachable w -> isRunning w = true -> shaderScripts w = 1%nat.
Proof. intros Hr. exact (proj2 (reachable_running w Hr)). Qed.

Lemma running_has_one_script_witness :
  reachable (after (handle (Run KeepHook)) smallWorld)
  /\ isRunning (after (handle (Run KeepHook)) smallWorld) = true
  /\ shaderScripts (after (handle (Run KeepHook)) smallWorld) = 1%nat.
Proof.
  assert (Hr : reachable (after (handle (Run KeepHook)) smallWorld))
    by (apply reachable_step, reachable_mount, le_0_n).
  split; [exact Hr|]. split; [reflexivity|].
  apply (running_has_one_script _ Hr). reflexivity.
Defined.

(** X4: in every reachable state, [stopShader] leaves no element with
    the id of the injected script in the page, clears the running flag
    and leaves [window.cleanupShader] registered as it was. *)
Theorem stopShader_removes_script (w : World) :
  reachable w ->
  shaderScripts (after stopShader w) = 0%nat
  /\ isRunning (after stopShader w) = false
  /\ cleanupShader (after stopShader w) = cleanupShader w.
Proof.
  intros Hr. pose proof (proj2 (reachable_invariant w Hr)) as Hle.
  unfold after, shaderScripts in *. rewrite stopShader_head.
  destruct (stopShader_spec w) as [_ H]. unfold core in H. world_simpl.
  injection H as _ _ _ Hrun _ _ _ _ Hhook _.
  change (countId shader_script_id (remove_first shader_script_id (head w)) = 0%nat
          /\ isRunning (snd (stopShader w)) = false
          /\ cleanupShader (snd (stopShader w)) = cleanupShader w).
  rewrite countId_remove_first. unfold countId. repeat split; auto. lia.
Qed.

Lemma stopShader_removes_script_witness :
  reachable (after (handle (Run (InstallHook {| hook_throws := true |}))) smallWorld)
  /\ shaderScripts
       (after stopShader
              (after (handle (Run (InstallHook {| hook_throws := true |}))) smallWorld))
     = 0%nat.
Proof.
  assert (Hr : reachable (after (handle (Run (InstallHook {| hook_throws := true |})))
                                smallWorld))
    by (apply reachable_step, reachable_mount, le_0_n).
  split; [exact Hr|]. exact (proj1 (stopShader_removes_script _ Hr)).
Defined.

(** ** What a handler does, in order *)

Lemma callCleanup_trace (w : World) :
  trace (snd (callCleanup w)) = trace w ++ hookEffects w "Error during shader cleanup:"
  /\ animationFrameRef (snd (callCleanup w)) = animationFrameRef w.
Proof.
  unfold callCleanup, call_hook, hookEffects. unfold_monad.
  destruct (cleanupShader w) as [[[|]]|]; cbn [hook_throws]; cbv beta iota;
    world_simpl; rewrite <- ?app_assoc, ?app_nil_r; split; reflexivity.
Qed.

Lemma cancelAnimationFrames_trace (w : World) :
  trace (snd (cancelAnimationFrames w))
  = trace w ++ match animationFrameRef w with
               | Some handle => if handle =? 0 then [] else [CancelAnimationFrame handle]
               | None => []
               end
  /\ animationFrameRef (snd (cancelAnimationFrames w)) = cancelledRef w.
Proof.
  unfold cancelAnimationFrames, cancelledRef. unfold_monad.
  destruct (animationFrameRef w) as [h|] eqn:E; [destruct (h =? 0)|];
    world_simpl; rewrite ?app_nil_r, ?E; split; reflexivity.
Qed.

Lemma clearCanvas_trace (w : World) :
  trace (snd (clearCanvas w))
  = trace w ++ (if canvasRef w then
                  match context w with
                  | WebGL => [ClearSurface false]
                  | NoContext => []
                  | ContextThrows =>
                      [ConsoleWarn (js "Could not clear WebGL context:")
                                   (HostError (js "getContext"))]
                  end
                else [])
  /\ animationFrameRef (snd (clearCanvas w)) = animationFrameRef w.
Proof.
  unfold clearCanvas, getContext. unfold_monad.
  destruct (canvasRef w), (context w); world_simpl; rewrite ?app_nil_r;
    split; reflexivity.
Qed.

(** The trace and the animation-frame ref of a world. *)
Lemma world_eq (w1 w2 : World) :
  core w1 = core w2 -> animationFrameRef w1 = animationFrameRef w2 ->
  trace w1 = trace w2 -> w1 = w2.
Proof.
  destruct w1, w2. unfold core. world_simpl. intros H -> ->.
  injection H as -> -> -> -> -> -> -> -> -> ->. reflexivity.
Qed.

(** [stopShader], executed. *)
Lemma stopShader_eq (w : World) : stopShader w = (inl tt, stopped w).
Proof.
  destruct (stopShader_spec w) as [Hr Hc].
  rewrite (surjective_pairing (stopShader w)), Hr. f_equal.
  apply world_eq; [rewrite Hc; reflexivity| |].
  - unfold stopShader.
    rewrite bind_returns by reflexivity.
    rewrite (bind_quiet _ _ _ callCleanup_quiet).
    rewrite (bind_quiet _ _ _ cancelAnimationFrames_quiet).
    rewrite bind_returns by (rewrite removeExistingScript_eq; reflexivity).
    rewrite (proj2 (clearCanvas_trace _)), removeExistingScript_eq. world_simpl.
    rewrite (proj2 (cancelAnimationFrames_trace _)). unfold cancelledRef.
    rewrite (proj2 (callCleanup_trace _)). reflexivity.
  - unfold stopShader.
    rewrite bind_returns by reflexivity.
    rewrite (bind_quiet _ _ _ callCleanup_quiet).
    rewrite (bind_quiet _ _ _ cancelAnimationFrames_quiet).
    rewrite bind_returns by (rewrite removeExistingScript_eq; reflexivity).
    rewrite (proj1 (clearCanvas_trace _)), removeExistingScript_eq. world_simpl.
    rewrite (proj1 (cancelAnimationFrames_trace _)).
    rewrite (proj2 (callCleanup_trace _)).
    rewrite (proj1 (callCleanup_trace _)). world_simpl.
    destruct (cancelAnimationFrames_quiet
                (snd (callCleanup (snd (modify (setIsRunning false) w))))) as [_ H2].
    destruct (callCleanup_quiet (snd (modify (setIsRunning false) w))) as [_ H1].
    rewrite H1 in H2. unfold core in H2.
    change (snd (modify (setIsRunning false) w)) with (setIsRunning false w) in *.
    world_simpl.
    injection H2 as _ _ _ _ _ _ Hcv _ _ Hctx. rewrite Hcv, Hctx.
    unfold stopEffects, hookEffects. world_simpl.
    rewrite <- !app_assoc. reflexivity.
Qed.

Lemma tryEntry_eq (w : World) :
  tryEntry w = setIsRunning true (if isRunning w then stopped w else w).
Proof. unfold tryEntry. rewrite stopShader_eq. reflexivity. Qed.

(** [injectScript], executed. *)
Lemma injectScript_eq (c : World) (effect : ScriptEffect) (w : World) :
  injectScript c effect w =
  let w1 := setHead (remove_first shader_script_id (head w)) w in
  match context w with
  | ContextThrows => (inr (HostError (js "getContext")), w1)
  | ctx =>
      let w2 := match ctx with WebGL => emit (ClearSurface true) w1 | _ => w1 end in
      match buildScript (vertexShader c) (fragmentShader c) (jsCode c) with
      | inr e => (inr e, w2)
      | inl code =>
          let w3 :=
            emit (ScriptExecuted code)
                 (setHead (head w2 ++ [ {| el_tag := js "script";
                                           el_type := js "text/javascript";
                                           el_id := shader_script_id;
                                           el_text := code |} ]) w2) in
          (inl tt, match effect with
                   | KeepHook => w3
                   | InstallHook h => setCleanupShader (Some h) w3
                   | RemoveHook => setCleanupShader None w3
                   end)
      end
  end.
Proof.
  unfold injectScript.
  rewrite bind_returns by (rewrite removeExistingScript_eq; reflexivity).
  rewrite removeExistingScript_eq. cbn [snd].
  unfold clearContext, getContext, appendChild. unfold_monad.
  destruct w as [v f j r t s cv a h k x tr]. cbn [context setHead head].
  destruct x; cbv zeta; try reflexivity;
    destruct (buildScript (vertexShader c) (fragmentShader c) (jsCode c));
    try reflexivity; destruct effect; reflexivity.
Qed.

(** What [runShader] does to the trace, to the animation-frame ref and to
    [window.cleanupShader]. *)
Lemma runShader_observed (effect : ScriptEffect) (w : World) :
  trace (after (runShader effect) w) = trace w ++ runEffects w
  /\ animationFrameRef (after (runShader effect) w)
     = (if canvasRef w && isRunning w then cancelledRef w else animationFrameRef w)
  /\ cleanupShader (after (runShader effect) w)
     = (if canvasRef w then
          match injectionFailure w with
          | None => hookAfter effect (cleanupShader w)
          | Some _ => cleanupShader w
          end
        else cleanupShader w).
Proof.
  unfold after, runEffects, injectEffects, injectionFailure.
  rewrite runShader_eq, injectScript_eq, tryEntry_eq.
  destruct (canvasRef w); cbn [negb andb];
    [|rewrite app_nil_r; repeat split; reflexivity].
  cbv zeta.
  assert (Hctx : context (setIsRunning true (if isRunning w then stopped w else w))
                 = context w) by (destruct (isRunning w); reflexivity).
  rewrite Hctx.
  destruct (isRunning w), (context w);
    try (destruct (buildScript (vertexShader w) (fragmentShader w) (jsCode w));
         [destruct effect|]);
    cbn [stopped hookAfter trace animationFrameRef cleanupShader
         setIsRunning setHead setCleanupShader emit fst snd];
    rewrite <- ?app_assoc; repeat split; reflexivity.
Qed.

(** ** The animation-frame ref *)

Lemma stopEffects_no_cancel (w : World) :
  animationFrameRef w = None -> filter isCancel (stopEffects w) = [].
Proof.
  intros H. unfold stopEffects, hookEffects. rewrite H.
  destruct (cleanupShader w) as [[[|]]|], (canvasRef w), (context w); reflexivity.
Qed.

Lemma injectEffects_no_cancel (w : World) : filter isCancel (injectEffects w) = [].
Proof.
  unfold injectEffects.
  destruct (context w); try reflexivity;
    destruct (buildScript (vertexShader w) (fragmentShader w) (jsCode w));
    reflexivity.
Qed.

Lemma handle_no_cancel (ev : Event) (w : World) :
  animationFrameRef w = None ->
  animationFrameRef (after (handle ev) w) = None
  /\ filter isCancel (trace (after (handle ev) w)) = filter isCancel (trace w).
Proof.
  intros H.
  destruct ev as [eff| | |iso ms|[text|]|name|v|v|v|tab|]; cbn [handle importCode];
    try (split; [exact H | reflexivity]).
  - destruct (runShader_observed eff w) as (Ht & Hr & _). rewrite Ht, Hr.
    unfold cancelledRef, runEffects. rewrite H. split; [destruct (_ && _); reflexivity|].
    rewrite filter_app.
    destruct (canvasRef w); [|apply app_nil_r].
    rewrite filter_app, injectEffects_no_cancel.
    destruct (isRunning w); [rewrite (stopEffects_no_cancel w H)|]; apply app_nil_r.
  - unfold after. rewrite stopShader_eq. cbn [snd stopped animationFrameRef trace].
    unfold cancelledRef. rewrite H. split; [reflexivity|].
    rewrite filter_app, (stopEffects_no_cancel w H). apply app_nil_r.
  - unfold after, exportCode. unfold_monad. world_simpl.
    split; [exact H|]. rewrite filter_app. apply app_nil_r.
  - unfold after. rewrite importOnLoad_eq.
    destruct (JSON_parse text) as [[]|e]; unfold logged, imported; world_simpl;
      (split; [exact H|]); rewrite ?filter_app; cbn [filter isCancel];
      rewrite ?app_nil_r; reflexivity.
  - unfold after. rewrite loadExample_eq.
    destruct (get_property shaderExamples name); unfold logged; world_simpl;
      (split; [exact H|]); rewrite ?filter_app; cbn [filter isCancel];
      rewrite ?app_nil_r; reflexivity.
Qed.

(** X5: the animation-frame ref of the component is never assigned: in
    every reachable state it is unset, and no handler has ever cancelled
    an animation frame (the render loop of the injected script is stopped
    by the script's own cleanup hook or not at all). *)
Theorem animation_frame_never_cancelled (w : World) :
  reachable w ->
  animationFrameRef w = None /\ filter isCancel (trace w) = [].
Proof.
  induction 1 as [iv ifr ij pageHead hook ctx Hle | w ev Hr [Href Htr]].
  - split; reflexivity.
  - destruct (handle_no_cancel ev w Href) as [H1 H2].
    split; [exact H1 | rewrite H2; exact Htr].
Qed.

Lemma animation_frame_never_cancelled_witness :
  reachable (afterAll [Run (InstallHook {| hook_throws := false |}); Stop; Run KeepHook]
                      smallWorld)
  /\ animationFrameRef
       (afterAll [Run (InstallHook {| hook_throws := false |}); Stop; Run KeepHook]
                 smallWorld) = None
  /\ filter isCancel
       (trace (afterAll [Run (InstallHook {| hook_throws := false |}); Stop; Run KeepHook]
                        smallWorld)) = [].
Proof.
  assert (Hr : reachable
                 (afterAll [Run (InstallHook {| hook_throws := false |}); Stop;
                            Run KeepHook] smallWorld))
    by (cbn [afterAll fold_left]; repeat apply reachable_step;
        apply reachable_mount, le_0_n).
  split; [exact Hr|]. exact (animation_frame_never_cancelled _ Hr).
Defined.

(** ** The cleanup hook *)

(** X6: [stopShader] calls [window.cleanupShader] exactly once when it is
    registered and never otherwise; when the hook throws, the warning is
    logged next and the stop still completes: the running flag is false
    and the injected script is removed. *)
Theorem stopShader_calls_hook (w : World) :
  List.length (filter isCleanup (trace (after stopShader w)))
  = (List.length (filter isCleanup (trace w))
     + match cleanupShader w with Some _ => 1 | None => 0 end)%nat
  /\ forall h,
      cleanupShader w = Some h -> hook_throws h = true ->
      isRunning (after stopShader w) = false
      /\ head (after stopShader w) = remove_first shader_script_id (head w)
      /\ exists rest,
          trace (after stopShader w)
          = trace w
            ++ CleanupCalled
            :: ConsoleWarn (js "Error during shader cleanup:")
                           (HostError (js "cleanupShader"))
            :: rest.
Proof.
  unfold after. rewrite stopShader_eq. cbn [snd stopped trace isRunning head].
  split.
  - rewrite filter_app, length_app. f_equal.
    unfold stopEffects, hookEffects.
    destruct (cleanupShader w) as [[[|]]|], (animationFrameRef w) as [[|p]|],
      (canvasRef w), (context w); reflexivity.
  - intros h Hh Ht. split; [reflexivity|]. split; [reflexivity|].
    unfold stopEffects, hookEffects. rewrite Hh, Ht. eexists.
    cbn [app]. reflexivity.
Qed.

Lemma stopShader_calls_hook_witness :
  cleanupShader (after (handle (Run (InstallHook {| hook_throws := true |}))) smallWorld)
  = Some {| hook_throws := true |}
  /\ isRunning
       (after stopShader
              (after (handle (Run (InstallHook {| hook_throws := true |}))) smallWorld))
     = false.
Proof.
  split; [reflexivity|].
  exact (proj1 (proj2 (stopShader_calls_hook
                         (after (handle (Run (InstallHook {| hook_throws := true |})))
                                smallWorld))
                      {| hook_throws := true |} eq_refl eq_refl)).
Defined.

Lemma restart_shape {A : Type} (tr warn b c d : list A) (first last : A) :
  tr ++ ((first :: warn) ++ b ++ c) ++ d ++ [last]
  = tr ++ first :: (warn ++ b ++ c ++ d) ++ [last].
Proof. cbn [app]. rewrite <- !app_assoc. reflexivity. Qed.

(** X7: [runShader] calls the cleanup hook only through [stopShader]: in
    a state that is not running it does not call the hook even when one
    is registered; in a running state with a mounted canvas and a
    registered hook it calls it exactly once, and when the injection goes
    through the call comes before the new script is executed, which is
    the last effect. *)
Theorem runShader_calls_hook (effect : ScriptEffect) (w : World) :
  (isRunning w = false ->
   filter isCleanup (trace (after (runShader effect) w)) = filter isCleanup (trace w))
  /\ forall h code,
      canvasRef w = true -> isRunning w = true -> cleanupShader w = Some h ->
      context w <> ContextThrows ->
      buildScript (vertexShader w) (fragmentShader w) (jsCode w) = inl code ->
      exists between,
        trace (after (runShader effect) w)
        = trace w ++ CleanupCalled :: between ++ [ScriptExecuted code]
        /\ filter isCleanup between = []
        /\ filter isExecuted between = [].
Proof.
  destruct (runShader_observed effect w) as (Ht & _ & _). rewrite Ht. split.
  - intros Hrun. rewrite filter_app. unfold runEffects, injectEffects. rewrite Hrun.
    destruct (canvasRef w); [|apply app_nil_r].
    destruct (context w); cbn [app];
      try destruct (buildScript (vertexShader w) (fragmentShader w) (jsCode w));
      apply app_nil_r.
  - intros h code Hc Hrun Hh Hctx Hb.
    unfold runEffects, injectEffects, stopEffects, hookEffects.
    rewrite Hc, Hrun, Hh, Hb.
    destruct (context w); [| |contradiction];
      (eexists; split; [apply restart_shape|]);
      destruct (hook_throws h), (animationFrameRef w) as [[|p]|];
      split; reflexivity.
Qed.

Lemma runShader_calls_hook_witness :
  exists between,
    trace (after (runShader KeepHook)
                 (after (handle (Run (InstallHook {| hook_throws := false |})))
                        smallWorld))
    = trace (after (handle (Run (InstallHook {| hook_throws := false |}))) smallWorld)
      ++ CleanupCalled
      :: between
      ++ [ScriptExecuted
            (js "draw(`void main(){gl_Position=vec4(0.0);}`, `void main(){gl_FragColor=vec4(1.0);}`);")]
    /\ filter isCleanup between = []
    /\ filter isExecuted between = [].
Proof.
  apply (proj2 (runShader_calls_hook
                  KeepHook
                  (after (handle (Run (InstallHook {| hook_throws := false |})))
                         smallWorld))
               {| hook_throws := false |}); try reflexivity.
  discriminate.
Defined.

(** ** When the injection goes through *)

Lemma buildScript_strings (v f j : jsstring) :
  buildScript (JString v) (JString f) (JString j)
  = inl (replace_all (js "${fragmentShader}") (escaped f)
           (replace_all (js "${vertexShader}") (escaped v) j)).
Proof. unfold buildScript. rewrite !escapeShader_string. reflexivity. Qed.

Lemma buildScript_total (v f j : jsval) :
  isString v && isString f && isString j = true ->
  exists code, buildScript v f j = inl code.
Proof.
  destruct v as [| | | |sv| |]; try discriminate.
  destruct f as [| | | |sf| |]; try discriminate.
  destruct j as [| | | |sj| |]; try discriminate.
  intros _. eexists. apply buildScript_strings.
Qed.

(** X8: [buildScript] yields a script exactly when the three buffers are
    strings; otherwise the first [replace] on a value that is not a
    string throws a TypeError, whatever the other buffers hold. *)
Theorem buildScript_defined (v f j : jsval) :
  (isString v && isString f && isString j = true ->
   exists code, buildScript v f j = inl code)
  /\ (isString v && isString f && isString j = false ->
      buildScript v f j = inr (TypeError (js "replace"))).
Proof.
  split; [apply buildScript_total|].
  destruct v as [| | | |sv| |]; try reflexivity.
  unfold buildScript. rewrite escapeShader_string. cbn [and_then].
  destruct f as [| | | |sf| |]; try reflexivity.
  rewrite escapeShader_string. cbn [and_then].
  destruct j as [| | | |sj| |]; try reflexivity.
  discriminate.
Qed.

Lemma buildScript_defined_witness :
  isString (JString (js "v")) && isString (JArray []) && isString (JString (js "j")) = false
  /\ buildScript (JString (js "v")) (JArray []) (JString (js "j"))
     = inr (TypeError (js "replace")).
Proof.
  split; [reflexivity|].
  apply (proj2 (buildScript_defined (JString (js "v")) (JArray []) (JString (js "j")))).
  reflexivity.
Defined.

Lemma runShader_started (effect : ScriptEffect) (w : World) :
  canvasRef w = true -> context w <> ContextThrows -> stringBuffers w = true ->
  exists code,
    buildScript (vertexShader w) (fragmentShader w) (jsCode w) = inl code
    /\ isRunning (after (runShader effect) w) = true
    /\ head (after (runShader effect) w)
       = remove_first shader_script_id
           (if isRunning w then remove_first shader_script_id (head w) else head w)
         ++ [scriptElement code]
    /\ (exists earlier,
           trace (after (runShader effect) w) = earlier ++ [ScriptExecuted code])
    /\ cleanupShader (after (runShader effect) w) = hookAfter effect (cleanupShader w).
Proof.
  intros Hc Hctx Hs.
  destruct (buildScript_total (vertexShader w) (fragmentShader w) (jsCode w) Hs)
    as [code Hb].
  exists code. split; [exact Hb|].
  assert (Hfail : injectionFailure w = None).
  { unfold injectionFailure. rewrite Hb. destruct (context w); congruence. }
  destruct (runShader_spec effect w Hc) as [Hcomp Hhead].
  destruct (runShader_observed effect w) as (Ht & _ & Hhook).
  unfold after in *. rewrite Hfail in *. rewrite Hc in Hhook.
  unfold component in Hcomp. injection Hcomp as _ _ _ Hrun _ _.
  split; [exact Hrun|]. split.
  - rewrite Hhead. unfold injectedScripts, scriptElement. rewrite Hb. reflexivity.
  - split; [|exact Hhook].
    rewrite Ht. unfold runEffects, injectEffects. rewrite Hc, Hb.
    destruct (context w); [| |contradiction]; eexists;
      rewrite !app_assoc; reflexivity.
Qed.

(** X9: with a mounted canvas, a context lookup that does not throw and
    three string buffers, [runShader] ends running; the injected script
    is the last child of the head and holds the text [buildScript] made;
    executing it is the last effect, and [window.cleanupShader] is what
    the script left. *)
Theorem runShader_starts (effect : ScriptEffect) (w : World) :
  canvasRef w = true -> context w <> ContextThrows -> stringBuffers w = true ->
  exists code,
    buildScript (vertexShader w) (fragmentShader w) (jsCode w) = inl code
    /\ isRunning (after (runShader effect) w) = true
    /\ head (after (runShader effect) w)
       = remove_first shader_script_id
           (if isRunning w then remove_first shader_script_id (head w) else head w)
         ++ [scriptElement code]
    /\ (exists earlier,
           trace (after (runShader effect) w) = earlier ++ [ScriptExecuted code])
    /\ cleanupShader (after (runShader effect) w) = hookAfter effect (cleanupShader w).
Proof. apply runShader_started. Qed.

Lemma runShader_starts_witness :
  canvasRef smallWorld = true /\ context smallWorld <> ContextThrows
  /\ stringBuffers smallWorld = true
  /\ exists code,
      buildScript (vertexShader smallWorld) (fragmentShader smallWorld) (jsCode smallWorld)
      = inl code
      /\ isRunning (after (runShader KeepHook) smallWorld) = true
      /\ head (after (runShader KeepHook) smallWorld)
         = remove_first shader_script_id
             (if isRunning smallWorld
              then remove_first shader_script_id (head smallWorld)
              else head smallWorld)
           ++ [scriptElement code]
      /\ (exists earlier,
             trace (after (runShader KeepHook) smallWorld)
             = earlier ++ [ScriptExecuted code])
      /\ cleanupShader (after (runShader KeepHook) smallWorld)
         = hookAfter KeepHook (cleanupShader smallWorld).
Proof.
  split; [reflexivity|]. split; [discriminate|]. split; [reflexivity|].
  apply (runShader_starts KeepHook smallWorld); [reflexivity | discriminate | reflexivity].
Defined.

(** ** The buffers stay strings *)

Lemma js_or_stringOrFalsy (v : jsval) (fallback : jsstring) :
  stringOrFalsy v = true -> isString (js_or v (JString fallback)) = true.
Proof.
  unfold stringOrFalsy, js_or. destruct (truthy v); [|reflexivity].
  rewrite orb_false_r. auto.
Qed.

Lemma handle_keepsStrings (ev : Event) (w : World) :
  stringBuffers w = true -> keepsStrings ev = true ->
  stringBuffers (after (handle ev) w) = true.
Proof.
  intros Hs Hk.
  destruct (writesBuffers ev) eqn:Hw.
  - destruct ev as [eff| | |iso ms|[text|]|name|v|v|v|tab|]; try discriminate;
      unfold after; cbn [handle importCode].
    + reflexivity.
    + cbn [keepsStrings] in Hk. unfold importsStrings in Hk.
      rewrite importOnLoad_eq.
      destruct (JSON_parse text) as [[| | | | | |props]|e]; try exact Hs;
        try reflexivity.
      cbn [forallb] in Hk. rewrite !andb_true_iff in Hk.
      destruct Hk as (Hv & Hf & Hj & _).
      unfold stringBuffers, imported. world_simpl.
      rewrite !js_or_stringOrFalsy by assumption. reflexivity.
    + cbn [keepsStrings] in Hk. rewrite loadExample_eq.
      destruct (get_property shaderExamples name);
        [ | discriminate | exact Hs].
      unfold stringBuffers in *. world_simpl.
      apply andb_prop in Hs. destruct Hs as [_ Hj]. rewrite Hj. reflexivity.
    + unfold stringBuffers, modify in *. world_simpl. destruct v;
        apply andb_prop in Hs; destruct Hs as [Hs Hj]; apply andb_prop in Hs;
        destruct Hs as [_ Hf]; rewrite Hf, Hj; reflexivity.
    + unfold stringBuffers, modify in *. world_simpl. destruct v;
        apply andb_prop in Hs; destruct Hs as [Hs Hj]; apply andb_prop in Hs;
        destruct Hs as [Hv _]; rewrite Hv, Hj; reflexivity.
    + unfold stringBuffers, modify in *. world_simpl. destruct v;
        apply andb_prop in Hs; destruct Hs as [Hs _]; rewrite Hs; reflexivity.
  - destruct (handle_keeps_buffers_aux ev w Hw) as (Hv & Hf & Hj).
    unfold stringBuffers in *. rewrite Hv, Hf, Hj. exact Hs.
Qed.

(** X10: the buffers of a mounted component are strings after every
    sequence of events that neither imports a JSON object with a truthy
    field of the project that is not a string nor loads an example under
    a name the catalog only inherits. *)
Theorem buffers_stay_strings (evs : list Event) (w : World) :
  stringBuffers w = true -> forallb keepsStrings evs = true ->
  stringBuffers (afterAll evs w) = true.
Proof.
  revert w. induction evs as [|ev evs IH]; intros w Hs Hk; [exact Hs|].
  cbn [forallb] in Hk. apply andb_prop in Hk. destruct Hk as [Hev Hevs].
  cbn [afterAll fold_left]. apply IH; [|exact Hevs].
  apply handle_keepsStrings; assumption.
Qed.

Lemma buffers_stay_strings_witness :
  stringBuffers smallWorld = true
  /\ forallb keepsStrings
       [EditVertex None; Import (Some (dq "{'jsCode': 0, 'vertexShader': 'void main(){}'}"));
        LoadExample (js "noise"); LoadExample (js "plasma"); Run KeepHook; Reset]
     = true
  /\ stringBuffers
       (afterAll
          [EditVertex None; Import (Some (dq "{'jsCode': 0, 'vertexShader': 'void main(){}'}"));
           LoadExample (js "noise"); LoadExample (js "plasma"); Run KeepHook; Reset]
          smallWorld)
     = true.
Proof.
  split; [reflexivity|]. split; [reflexivity|].
  apply buffers_stay_strings; reflexivity.
Defined.

(** ** The placeholders of a driver script *)

Lemma strip_prefix_app (p rest : jsstring) : strip_prefix p (p ++ rest) = Some rest.
Proof.
  induction p as [|c p IH]; [reflexivity|].
  cbn [app strip_prefix]. rewrite N.eqb_refl. exact IH.
Qed.

Lemma noDollar_app (a b : jsstring) :
  noDollar (a ++ b) = noDollar a && noDollar b.
Proof. apply forallb_app. Qed.

Lemma noDollar_escaped (s : jsstring) : noDollar s = true -> noDollar (escaped s) = true.
Proof.
  induction s as [|c s IH]; [reflexivity|].
  cbn [noDollar forallb]. intros H. apply andb_prop in H. destruct H as [Hc Hs].
  unfold escaped. cbn [flat_map]. fold (escaped s). rewrite noDollar_app, (IH Hs).
  apply negb_true_iff in Hc. unfold escapeUnit. rewrite Hc, orb_false_r.
  destruct ((c =? 92) || (c =? 96)); cbn [noDollar forallb]; rewrite Hc; reflexivity.
Qed.

Lemma noDollar_dollarSafe (s : jsstring) : noDollar s = true -> dollarSafe s = true.
Proof.
  induction s as [|c s IH]; [reflexivity|].
  cbn [noDollar forallb dollarSafe]. intros H. apply andb_prop in H.
  destruct H as [Hc Hs]. apply negb_true_iff in Hc. rewrite Hc. cbn [andb negb].
  exact (IH Hs).
Qed.

Section Replace.

(** The pattern [$pbody], the other text [$obody], and a replacement
    text that stands for [out] at every match. *)
Variables pbody obody replacement out : jsstring.

Hypothesis substitution :
  forall before after, getSubstitution (36 :: pbody) before after replacement = out.
Hypothesis other_plain : noDollar obody = true.
Hypothesis other_differs :
  forall rest, strip_prefix (36 :: pbody) (36 :: obody ++ rest) = None.

Lemma replace_from_skip (l : jsstring) :
  forall before s,
    replace_from (36 :: pbody) replacement (List.length l) before (l ++ s)
    = replace_from (36 :: pbody) replacement O (before ++ l) s.
Proof.
  induction l as [|c l IH]; intros before s.
  - rewrite app_nil_r. destruct s; reflexivity.
  - cbn [List.length app replace_from]. rewrite IH, <- app_assoc. reflexivity.
Qed.

Lemma replace_from_plain (t : jsstring) :
  noDollar t = true ->
  forall before s,
    replace_from (36 :: pbody) replacement O before (t ++ s)
    = t ++ replace_from (36 :: pbody) replacement O (before ++ t) s.
Proof.
  induction t as [|c t IH]; intros Ht before s.
  - rewrite app_nil_r. reflexivity.
  - cbn [noDollar forallb] in Ht. apply andb_prop in Ht. destruct Ht as [Hc Ht].
    apply negb_true_iff in Hc. rewrite N.eqb_sym in Hc.
    cbn [app replace_from strip_prefix]. rewrite Hc, (IH Ht), <- app_assoc.
    reflexivity.
Qed.

Lemma replace_from_match (before s : jsstring) :
  replace_from (36 :: pbody) replacement O before ((36 :: pbody) ++ s)
  = out ++ replace_from (36 :: pbody) replacement O (before ++ 36 :: pbody) s.
Proof.
  change ((36 :: pbody) ++ s) with (36 :: (pbody ++ s)).
  cbn [replace_from].
  change (36 :: (pbody ++ s)) with ((36 :: pbody) ++ s).
  rewrite strip_prefix_app, substitution.
  cbn [List.length Nat.pred]. rewrite replace_from_skip, <- app_assoc. reflexivity.
Qed.

Lemma replace_from_other (before s : jsstring) :
  replace_from (36 :: pbody) replacement O before ((36 :: obody) ++ s)
  = (36 :: obody) ++ replace_from (36 :: pbody) replacement O (before ++ 36 :: obody) s.
Proof.
  change ((36 :: obody) ++ s) with (36 :: (obody ++ s)).
  cbn [replace_from]. rewrite other_differs.
  rewrite (replace_from_plain obody other_plain), <- app_assoc. reflexivity.
Qed.

(** Replacing in a text cut at the occurrences of the pattern puts [out]
    at each of them and keeps the rest. *)
Lemma replace_pieces (ps : list Piece) :
  forallb plainPiece ps = true ->
  replace_all (36 :: pbody) replacement (piecesText (36 :: pbody) (36 :: obody) ps)
  = piecesText out (36 :: obody) ps.
Proof.
  unfold replace_all. generalize (@nil N) as before.
  induction ps as [|p ps IH]; intros before Hps; [reflexivity|].
  cbn [forallb] in Hps. apply andb_prop in Hps. destruct Hps as [Hp Hps].
  unfold piecesText in *. cbn [flat_map].
  destruct p as [t| |].
  - rewrite (replace_from_plain t Hp), (IH _ Hps). reflexivity.
  - rewrite replace_from_match, (IH _ Hps). reflexivity.
  - rewrite replace_from_other, (IH _ Hps). reflexivity.
Qed.

End Replace.

Lemma piecesText_flat_map {A : Type} (hole kept : jsstring) (g : A -> list Piece)
      (l : list A) :
  piecesText hole kept (flat_map g l)
  = flat_map (fun a => piecesText hole kept (g a)) l.
Proof. unfold piecesText. apply flat_map_flat_map. Qed.

Lemma forallb_flat_map {A B : Type} (p : B -> bool) (q : A -> bool) (g : A -> list B)
      (l : list A) :
  (forall a, q a = true -> forallb p (g a) = true) ->
  forallb q l = true -> forallb p (flat_map g l) = true.
Proof.
  intros Hg. induction l as [|a l IH]; [reflexivity|].
  cbn [forallb flat_map]. intros H. apply andb_prop in H. destruct H as [Ha Hl].
  rewrite forallb_app, (Hg a Ha), (IH Hl). reflexivity.
Qed.

(** The first pass: the vertex placeholders of a driver script. *)
Lemma replace_vertex (v : jsstring) (segs : list Segment) :
  dollarSafe v = true -> forallb plainText segs = true ->
  replace_all (js "${vertexShader}") (escaped v) (driverText segs)
  = expandedScript (escaped v) (js "${fragmentShader}") segs.
Proof.
  intros Hv Hsegs.
  pose (g := fun seg => match seg with
                        | Text t => [Plain t]
                        | VertexSource => [Hole]
                        | FragmentSource => [Kept]
                        end).
  assert (Htext : driverText segs
                  = piecesText (js "${vertexShader}") (js "${fragmentShader}")
                               (flat_map g segs)).
  { rewrite piecesText_flat_map. unfold driverText. apply flat_map_ext.
    intros [t| |]; cbn [g piecesText flat_map]; rewrite ?app_nil_r; reflexivity. }
  rewrite Htext.
  change (js "${vertexShader}") with (36 :: js "{vertexShader}").
  change (js "${fragmentShader}") with (36 :: js "{fragmentShader}").
  rewrite (replace_pieces (js "{vertexShader}") (js "{fragmentShader}")
                          (escaped v) (escaped v)).
  - rewrite piecesText_flat_map. unfold expandedScript. apply flat_map_ext.
    intros [t| |]; cbn [g piecesText flat_map]; rewrite ?app_nil_r; reflexivity.
  - intros before after. apply getSubstitution_escaped. exact Hv.
  - reflexivity.
  - intros rest. reflexivity.
  - apply (forallb_flat_map plainPiece plainText g); [|exact Hsegs].
    intros [t| |] H; cbn [g forallb plainPiece]; [|reflexivity|reflexivity].
    cbn [plainText] in H. rewrite H. reflexivity.
Qed.

(** The second pass: the fragment placeholders, in a text whose vertex
    placeholders hold the pieces [atVertex]. *)
Lemma replace_fragment (f : jsstring) (atVertex : list Piece) (segs : list Segment) :
  dollarSafe f = true -> forallb plainPiece atVertex = true ->
  forallb plainText segs = true ->
  replace_all (js "${fragmentShader}") (escaped f)
    (expandedScript (piecesText (js "${fragmentShader}") [] atVertex)
                    (js "${fragmentShader}") segs)
  = expandedScript (piecesText (escaped f) [] atVertex) (escaped f) segs.
Proof.
  intros Hf Hv Hsegs.
  pose (g := fun seg => match seg with
                        | Text t => [Plain t]
                        | VertexSource => atVertex
                        | FragmentSource => [Hole]
                        end).
  assert (Htext : forall hole,
             expandedScript (piecesText hole [] atVertex) hole segs
             = piecesText hole [] (flat_map g segs)).
  { intros hole. rewrite piecesText_flat_map. unfold expandedScript. apply flat_map_ext.
    intros [t| |]; cbn [g]; [|reflexivity|];
      unfold piecesText; cbn [flat_map]; rewrite ?app_nil_r; reflexivity. }
  rewrite !Htext.
  change (js "${fragmentShader}") with (36 :: js "{fragmentShader}").
  assert (Hgen : forall ps before,
             forallb plainPiece ps = true ->
             replace_from (36 :: js "{fragmentShader}") (escaped f) O before
               (piecesText (36 :: js "{fragmentShader}") [] ps)
             = piecesText (escaped f) [] ps).
  { induction ps as [|p ps IH]; intros before Hps; [reflexivity|].
    cbn [forallb] in Hps. apply andb_prop in Hps. destruct Hps as [Hp Hps].
    unfold piecesText in *. cbn [flat_map]. destruct p as [t| |].
    - rewrite (replace_from_plain _ (escaped f) t Hp), (IH _ Hps). reflexivity.
    - rewrite (replace_from_match _ (escaped f) (escaped f)), (IH _ Hps);
        [reflexivity|].
      intros b a. apply getSubstitution_escaped. exact Hf.
    - cbn [app]. apply IH. exact Hps. }
  unfold replace_all. apply Hgen.
  apply (forallb_flat_map plainPiece plainText g); [|exact Hsegs].
  intros [t| |] H; cbn [g forallb plainPiece]; [|exact Hv|reflexivity].
  cbn [plainText] in H. rewrite H. reflexivity.
Qed.



Lemma strip_prefix_sound (p s rest : jsstring) :
  strip_prefix p s = Some rest -> s = p ++ rest.
Proof.
  revert s. induction p as [|x p IH]; intros s H.
  - cbn in H. injection H as ->. reflexivity.
  - destruct s as [|y s]; [discriminate|]. cbn [strip_prefix] in H.
    destruct (N.eqb_spec x y) as [->|]; [|discriminate].
    cbn [app]. f_equal. apply IH. exact H.
Qed.

Lemma segmentsFrom_skipn (s : jsstring) :
  forall skip, (skip <= List.length s)%nat ->
               driverText (segmentsFrom skip s) = skipn skip s.
Proof.
  induction s as [|c s IH]; intros skip Hskip.
  - destruct skip; reflexivity.
  - destruct skip as [|k].
    + cbn [segmentsFrom skipn].
      destruct (strip_prefix (js "${vertexShader}") (c :: s)) as [rest|] eqn:Hv.
      { apply strip_prefix_sound in Hv.
        assert (Hs : s = js "{vertexShader}" ++ rest)
          by (injection Hv as _ Hs; exact Hs).
        change (driverText (VertexSource :: ?l))
          with (js "${vertexShader}" ++ driverText l).
        change (Nat.pred (List.length (js "${vertexShader}")))
          with (List.length (js "{vertexShader}")).
        rewrite IH by (rewrite Hs, length_app; lia).
        rewrite Hv, Hs, skipn_app, skipn_all, Nat.sub_diag. reflexivity. }
      destruct (strip_prefix (js "${fragmentShader}") (c :: s)) as [rest|] eqn:Hf.
      { apply strip_prefix_sound in Hf.
        assert (Hs : s = js "{fragmentShader}" ++ rest)
          by (injection Hf as _ Hs; exact Hs).
        change (driverText (FragmentSource :: ?l))
          with (js "${fragmentShader}" ++ driverText l).
        change (Nat.pred (List.length (js "${fragmentShader}")))
          with (List.length (js "{fragmentShader}")).
        rewrite IH by (rewrite Hs, length_app; lia).
        rewrite Hf, Hs, skipn_app, skipn_all, Nat.sub_diag. reflexivity. }
      change (driverText (Text [c] :: ?l)) with (c :: driverText l).
      f_equal. apply (IH O). lia.
    + cbn [segmentsFrom skipn]. apply IH. cbn [List.length] in Hskip. lia.
Qed.

Lemma driverText_segmentsOf (s : jsstring) : driverText (segmentsOf s) = s.
Proof. apply (segmentsFrom_skipn s O). lia. Qed.

Lemma buildScript_expanded (v f : jsstring) (segs : list Segment) :
  forallb plainText segs = true -> noDollar v = true -> dollarSafe f = true ->
  buildScript (JString v) (JString f) (JString (driverText segs))
  = inl (expandedScript (escaped v) (escaped f) segs).
Proof.
  intros Hsegs Hv Hf.
  rewrite buildScript_strings. f_equal.
  rewrite (replace_vertex v segs (noDollar_dollarSafe v Hv) Hsegs).
  assert (Hone : forall hole, piecesText hole [] [Plain (escaped v)] = escaped v)
    by (intros hole; unfold piecesText; cbn [flat_map]; apply app_nil_r).
  rewrite <- (Hone (js "${fragmentShader}")) at 1.
  rewrite (replace_fragment f [Plain (escaped v)] segs Hf);
    [|cbn [forallb plainPiece]; rewrite (noDollar_escaped v Hv); reflexivity
     |exact Hsegs].
  rewrite Hone. reflexivity.
Qed.



(** X12: the second [replace] also scans the vertex source the first
    one put in: a vertex source that holds the text of the fragment
    placeholder, between texts without a dollar sign, ends up in the
    script with the escaped fragment source in place of that text, after
    the backslash that escaped its dollar sign. *)
Theorem buildScript_rescans_vertex (a b f j : jsstring) :
  forallb plainText (segmentsOf j) = true -> noDollar a = true ->
  noDollar b = true -> dollarSafe f = true ->
  buildScript (JString (a ++ js "${fragmentShader}" ++ b)) (JString f) (JString j)
  = inl (expandedScript (escaped a ++ 92 :: escaped f ++ escaped b) (escaped f)
                        (segmentsOf j)).
Proof.
  intros Hsegs Ha Hb Hf.
  rewrite <- (driverText_segmentsOf j) at 1.
  rewrite buildScript_strings. f_equal.
  assert (Hsafe : dollarSafe (a ++ js "${fragmentShader}" ++ b) = true).
  { clear Hsegs. induction a as [|c a IH].
    - cbn [app]. change (dollarSafe (js "${fragmentShader}" ++ b))
        with (dollarSafe (js "{fragmentShader}" ++ b)).
      apply noDollar_dollarSafe. rewrite noDollar_app, Hb. reflexivity.
    - cbn [noDollar forallb] in Ha. apply andb_prop in Ha. destruct Ha as [Hc Ha].
      apply negb_true_iff in Hc. cbn [app dollarSafe]. rewrite Hc, (IH Ha). reflexivity. }
  rewrite (replace_vertex _ (segmentsOf j) Hsafe Hsegs).
  assert (Hesc : forall hole,
             piecesText hole [] [Plain (escaped a ++ [92]); Hole; Plain (escaped b)]
             = escaped a ++ 92 :: hole ++ escaped b).
  { intros hole. unfold piecesText. cbn [flat_map].
    rewrite app_nil_r, <- app_assoc. reflexivity. }
  assert (Hv : escaped (a ++ js "${fragmentShader}" ++ b)
               = escaped a ++ 92 :: js "${fragmentShader}" ++ escaped b).
  { unfold escaped. rewrite !flat_map_app. reflexivity. }
  rewrite Hv, <- (Hesc (js "${fragmentShader}")).
  rewrite (replace_fragment f _ (segmentsOf j) Hf);
    [|cbn [forallb plainPiece]|exact Hsegs].
  - rewrite Hesc. reflexivity.
  - rewrite noDollar_app, !noDollar_escaped by assumption. reflexivity.
Qed.

Lemma buildScript_rescans_vertex_witness :
  forallb plainText (segmentsOf (js "draw(`${vertexShader}`);")) = true
  /\ noDollar (js "// uses ") = true /\ noDollar (js " below") = true
  /\ dollarSafe (js "void main(){}") = true
  /\ buildScript (JString (js "// uses " ++ js "${fragmentShader}" ++ js " below"))
       (JString (js "void main(){}")) (JString (js "draw(`${vertexShader}`);"))
     = inl (expandedScript
              (escaped (js "// uses ") ++ 92 :: escaped (js "void main(){}")
                 ++ escaped (js " below"))
              (escaped (js "void main(){}"))
              (segmentsOf (js "draw(`${vertexShader}`);"))).
Proof.
  split; [reflexivity|]. split; [reflexivity|]. split; [reflexivity|].
  split; [reflexivity|].
  apply (buildScript_rescans_vertex (js "// uses ") (js " below") (js "void main(){}")
                                    (js "draw(`${vertexShader}`);"));
    reflexivity.
Defined.

(** ** Importing and exporting *)




(** X14: importing a JSON text whose value is not [null] and has none
    of the three fields, or has them with empty or other falsy values,
    does what the reset button does: a number, a string, an array and
    the empty object all load the built-in project. *)
Theorem importOnLoad_falsy_is_reset (text : jsstring) (data : jsval) (w : World) :
  JSON_parse text = inl data -> nullish data = false ->
  truthy (field data (js "vertexShader")) = false ->
  truthy (field data (js "fragmentShader")) = false ->
  truthy (field data (js "jsCode")) = false ->
  after (importOnLoad text) w = after resetCode w.
Proof.
  intros Hparse Hnull Hv Hf Hj. unfold after. rewrite importOnLoad_eq, Hparse.
  assert (Himp : imported data w = snd (resetCode w)).
  { unfold imported, js_or. rewrite Hv, Hf, Hj. reflexivity. }
  destruct data; first [discriminate Hnull | exact Himp].
Qed.

Lemma importOnLoad_falsy_is_reset_witness :
  JSON_parse (dq "[{'vertexShader': 'void main(){}'}]")
  = inl (JArray [JObject [(js "vertexShader", JString (js "void main(){}"))]])
  /\ after (importOnLoad (dq "[{'vertexShader': 'void main(){}'}]")) smallWorld
     = after resetCode smallWorld.
Proof.
  split; [reflexivity|].
  apply (importOnLoad_falsy_is_reset
           (dq "[{'vertexShader': 'void main(){}'}]")
           (JArray [JObject [(js "vertexShader", JString (js "void main(){}"))]]));
    reflexivity.
Defined.

(** X15: exporting a project whose buffers are strings changes nothing
    but the trace, which gains one download named after the clock; its
    content is a JSON text that is read back as the object of the three
    buffers and the time stamp. *)
Theorem exportCode_download (nowISO : jsstring) (nowMs : N) (w : World) :
  stringBuffers w = true ->
  returns (exportCode nowISO nowMs) w = true
  /\ core (after (exportCode nowISO nowMs) w) = core w
  /\ animationFrameRef (after (exportCode nowISO nowMs) w) = animationFrameRef w
  /\ exists content,
      trace (after (exportCode nowISO nowMs) w)
      = trace w ++ [Download (js "ogl-shader-" ++ decimal nowMs ++ js ".json") content]
      /\ JSON_parse content = inl (exportData w nowISO).
Proof.
  intros Hs. unfold stringBuffers in Hs.
  apply andb_prop in Hs. destruct Hs as [Hs Hj]. apply andb_prop in Hs.
  destruct Hs as [Hv Hf].
  destruct (vertexShader w) as [| | | |v| |] eqn:Ev; try discriminate.
  destruct (fragmentShader w) as [| | | |f| |] eqn:Ef; try discriminate.
  destruct (jsCode w) as [| | | |j| |] eqn:Ej; try discriminate.
  split; [reflexivity|]. split.
  { unfold after, exportCode, core. unfold_monad. world_simpl.
    rewrite Ev, Ef, Ej. reflexivity. }
  split; [reflexivity|].
  exists (exportDocument w nowISO). split; [reflexivity|].
  rewrite (JSON_parse_exportDocument v f j nowISO w Ev Ef Ej).
  unfold exportData. rewrite Ev, Ef, Ej. reflexivity.
Qed.

Lemma exportCode_download_witness :
  stringBuffers smallWorld = true
  /\ exists content,
      trace (after (exportCode (js "2024-01-01T00:00:00.000Z") 1704067200000) smallWorld)
      = trace smallWorld
          ++ [Download (js "ogl-shader-" ++ decimal 1704067200000 ++ js ".json") content]
      /\ JSON_parse content = inl (exportData smallWorld (js "2024-01-01T00:00:00.000Z")).
Proof.
  split; [reflexivity|].
  apply (exportCode_download (js "2024-01-01T00:00:00.000Z") 1704067200000 smallWorld).
  reflexivity.
Defined.

(** ** Signature help *)

Lemma span_spec (p : N -> bool) (s : jsstring) :
  s = fst (span p s) ++ snd (span p s)
  /\ forallb p (fst (span p s)) = true
  /\ match snd (span p s) with c :: _ => p c = false | [] => True end.
Proof.
  induction s as [|c s IH]; [repeat split|].
  cbn [span]. destruct (p c) eqn:Hc.
  - destruct (span p s) as [a b]. cbn [fst snd] in *.
    destruct IH as (Hs & Ha & Hb). repeat split.
    + cbn [app]. f_equal. exact Hs.
    + cbn [forallb]. rewrite Hc, Ha. reflexivity.
    + exact Hb.
  - cbn [fst snd]. repeat split. exact Hc.
Qed.

Lemma span_app (p : N -> bool) (a b : jsstring) :
  forallb p a = true ->
  match b with c :: _ => p c = false | [] => True end ->
  span p (a ++ b) = (a, b).
Proof.
  intros Ha Hb. induction a as [|c a IH].
  - destruct b as [|c b]; [reflexivity|]. cbn [app span]. rewrite Hb. reflexivity.
  - cbn [forallb] in Ha. apply andb_prop in Ha. destruct Ha as [Hc Ha].
    cbn [app span]. rewrite Hc, (IH Ha). reflexivity.
Qed.

Lemma match_here_sound (s word : jsstring) :
  match_here s = Some word ->
  exists blank rest,
    s = word ++ blank ++ 40 :: rest
    /\ word <> []
    /\ forallb is_word_char word = true
    /\ forallb is_space blank = true
    /\ forallb (fun x => negb (x =? 41)) rest = true.
Proof.
  unfold match_here.
  destruct (span_spec is_word_char s) as (Hs & Hw & _).
  destruct (span is_word_char s) as [w r]. cbn [fst snd] in *.
  destruct w as [|c w]; [discriminate|].
  destruct (span_spec is_space r) as (Hr & Hb & _).
  destruct (span is_space r) as [blank r2]. cbn [fst snd] in *.
  destruct r2 as [|c2 rest]; [discriminate|].
  destruct (N.eqb_spec c2 40) as [->|]; [|discriminate]. cbn [andb].
  destruct (forallb (fun x => negb (x =? 41)) rest) eqn:Hrest; [|discriminate].
  intros H. injection H as <-.
  exists blank, rest. repeat split; try assumption; [|discriminate].
  rewrite Hs, Hr. reflexivity.
Qed.

Lemma functionMatch_sound (s word : jsstring) :
  functionMatch s = Some word ->
  exists skipped blank rest,
    s = skipped ++ word ++ blank ++ 40 :: rest
    /\ word <> []
    /\ forallb is_word_char word = true
    /\ forallb is_space blank = true
    /\ forallb (fun x => negb (x =? 41)) rest = true.
Proof.
  induction s as [|c s IH]; [discriminate|].
  cbn [functionMatch].
  destruct (match_here (c :: s)) as [name|] eqn:Hhere.
  - intros H. injection H as <-.
    destruct (match_here_sound _ _ Hhere) as (blank & rest & H).
    exists [], blank, rest. exact H.
  - intros H. destruct (IH H) as (skipped & blank & rest & Hs & Hrest).
    exists (c :: skipped), blank, rest. split; [|exact Hrest].
    rewrite Hs. reflexivity.
Qed.

Lemma space_not_word (c : N) : is_space c = true -> is_word_char c = false.
Proof.
  intros Hs. destruct (is_word_char c) eqn:Hw; [|reflexivity].
  assert (Hb : 48 <= c <= 122).
  { unfold is_word_char, is_digit in Hw.
    rewrite !orb_true_iff, !andb_true_iff, !N.leb_le, N.eqb_eq in Hw. lia. }
  unfold is_space in Hs.
  rewrite !orb_true_iff, !andb_true_iff, !N.leb_le, !N.eqb_eq in Hs. lia.
Qed.

Lemma match_here_call (word blank rest : jsstring) :
  word <> [] -> forallb is_word_char word = true ->
  forallb is_space blank = true ->
  forallb (fun x => negb (x =? 41)) rest = true ->
  match_here (word ++ blank ++ 40 :: rest) = Some word.
Proof.
  intros Hne Hw Hb Hrest. unfold match_here.
  assert (Hstop : match blank ++ 40 :: rest with
                  | c :: _ => is_word_char c = false
                  | [] => True
                  end).
  { destruct blank as [|c blank]; [reflexivity|].
    cbn [forallb] in Hb. apply andb_prop in Hb. destruct Hb as [Hc _].
    cbn [app]. apply space_not_word. exact Hc. }
  rewrite (span_app is_word_char word _ Hw Hstop).
  destruct word as [|c word]; [contradiction|].
  rewrite (span_app is_space blank (40 :: rest) Hb eq_refl). cbn [snd].
  rewrite Hrest. reflexivity.
Qed.

(** X16: signature help is only given inside an unclosed call: when
    there is an answer, the text before the cursor ends with a word of
    the signature table or of [Object.prototype], optional white space,
    an opening parenthesis and a text without a closing parenthesis; the
    answer has one signature and its first parameter active. *)
Theorem provideSignatureHelp_unclosed_call (line : jsstring) (column : nat)
        (help : SignatureHelp) :
  provideSignatureHelp line column = Some help ->
  exists skipped word blank rest,
    firstn (column - 1) line = skipped ++ word ++ blank ++ 40 :: rest
    /\ word <> []
    /\ forallb is_word_char word = true
    /\ forallb is_space blank = true
    /\ forallb (fun x => negb (x =? 41)) rest = true
    /\ get_property signatures word <> Absent
    /\ List.length (help_signatures help) = 1%nat
    /\ activeSignature help = 0
    /\ activeParameter help = 0.
Proof.
  unfold provideSignatureHelp.
  destruct (functionMatch (firstn (column - 1) line)) as [word|] eqn:Hm;
    [|discriminate].
  destruct (functionMatch_sound _ _ Hm) as (skipped & blank & rest & Hs & H1 & H2 & H3 & H4).
  intros H. exists skipped, word, blank, rest.
  repeat (split; [assumption|]).
  destruct (get_property signatures word); try discriminate;
    injection H as <-; repeat split; discriminate.
Qed.

Lemma provideSignatureHelp_unclosed_call_witness :
  provideSignatureHelp (js "c = clamp(x) + mix (a, vec3(1.0), t);") 28
  = Some {| help_signatures :=
              [Signature
                 {| label := js "mix(x: T, y: T, a: float) -> T";
                    documentation := js "Linear interpolation between x and y based on a";
                    parameters := [ parameter "x" "First value";
                                    parameter "y" "Second value";
                                    parameter "a" "Interpolation factor (0.0 to 1.0)" ] |}];
            activeSignature := 0; activeParameter := 0 |}
  /\ exists skipped word blank rest,
      firstn (28 - 1) (js "c = clamp(x) + mix (a, vec3(1.0), t);")
      = skipped ++ word ++ blank ++ 40 :: rest
      /\ word <> []
      /\ forallb is_word_char word = true
      /\ forallb is_space blank = true
      /\ forallb (fun x => negb (x =? 41)) rest = true
      /\ get_property signatures word <> Absent.
Proof.
  split; [reflexivity|].
  destruct (provideSignatureHelp_unclosed_call
              (js "c = clamp(x) + mix (a, vec3(1.0), t);") 28 _ eq_refl)
    as (skipped & word & blank & rest & H1 & H2 & H3 & H4 & H5 & H6 & _).
  exists skipped, word, blank, rest. repeat (split; [assumption|]). assumption.
Defined.

(** X17: the call the help is about is the outermost unclosed one, not
    the one the cursor is in: for a line that starts with a word, white
    space and an opening parenthesis and has no closing parenthesis
    before the cursor, the answer is the table's entry for that word,
    whatever calls follow inside. *)
Theorem provideSignatureHelp_outermost (word blank rest tail : jsstring) :
  word <> [] -> forallb is_word_char word = true ->
  forallb is_space blank = true ->
  forallb (fun x => negb (x =? 41)) rest = true ->
  provideSignatureHelp (word ++ blank ++ 40 :: rest ++ tail)
                       (S (List.length (word ++ blank ++ 40 :: rest)))
  = match get_property signatures word with
    | Own sig =>
        Some {| help_signatures := [Signature sig];
                activeSignature := 0; activeParameter := 0 |}
    | Inherited =>
        Some {| help_signatures := [BuiltIn word];
                activeSignature := 0; activeParameter := 0 |}
    | Absent => None
    end.
Proof.
  intros Hne Hw Hb Hrest. unfold provideSignatureHelp.
  assert (Hcut : firstn (S (List.length (word ++ blank ++ 40 :: rest)) - 1)
                        (word ++ blank ++ 40 :: rest ++ tail)
                 = word ++ blank ++ 40 :: rest).
  { cbn [Nat.sub]. rewrite Nat.sub_0_r.
    replace (word ++ blank ++ 40 :: rest ++ tail)
      with ((word ++ blank ++ 40 :: rest) ++ tail)
      by (rewrite <- !app_assoc; reflexivity).
    rewrite firstn_app, firstn_all, Nat.sub_diag, firstn_O. apply app_nil_r. }
  rewrite Hcut.
  assert (Hm : functionMatch (word ++ blank ++ 40 :: rest) = Some word).
  { pose proof (match_here_call word blank rest Hne Hw Hb Hrest) as Hhere.
    destruct word as [|c word]; [contradiction|].
    cbn [app functionMatch]. cbn [app] in Hhere. rewrite Hhere. reflexivity. }
  rewrite Hm. destruct (get_property signatures word); reflexivity.
Qed.

Lemma provideSignatureHelp_outermost_witness :
  js "mix" <> [] /\ forallb is_word_char (js "mix") = true
  /\ forallb is_space (js " ") = true
  /\ forallb (fun x => negb (x =? 41)) (js "a, vec4(b, smoothstep(0.0, ") = true
  /\ provideSignatureHelp
       (js "mix" ++ js " " ++ 40 :: js "a, vec4(b, smoothstep(0.0, " ++ js "1.0, t)));")
       (S (List.length (js "mix" ++ js " " ++ 40 :: js "a, vec4(b, smoothstep(0.0, ")))
     = match get_property signatures (js "mix") with
       | Own sig =>
           Some {| help_signatures := [Signature sig];
                   activeSignature := 0; activeParameter := 0 |}
       | Inherited =>
           Some {| help_signatures := [BuiltIn (js "mix")];
                   activeSignature := 0; activeParameter := 0 |}
       | Absent => None
       end.
Proof.
  split; [discriminate|]. split; [reflexivity|]. split; [reflexivity|].
  split; [reflexivity|].
  apply (provideSignatureHelp_outermost (js "mix") (js " ")
           (js "a, vec4(b, smoothstep(0.0, ") (js "1.0, t)));"));
    [discriminate | reflexivity | reflexivity | reflexivity].
Defined.

(** ** Unmounting *)

(** X18: the cleanup of the unmounting component calls
    [window.cleanupShader] when it is set and warns when that throws; it
    never throws itself and stops nothing: the injected script, the hook
    and the animation frame stay as they are, and a component mounted
    next in the same page starts in a reachable state. *)
Theorem unmountCleanup_leaves_page (iv ifr ij : jsstring) (ctx : Context) (w : World) :
  reachable w ->
  returns unmountCleanup w = true
  /\ core (after unmountCleanup w) = core w
  /\ animationFrameRef (after unmountCleanup w) = animationFrameRef w
  /\ trace (after unmountCleanup w)
     = trace w ++ hookEffects w "Error during component unmount cleanup:"
  /\ reachable (mount iv ifr ij (head (after unmountCleanup w))
                      (cleanupShader (after unmountCleanup w)) ctx).
Proof.
  intros Hr. pose proof (proj2 (reachable_invariant w Hr)) as Hle.
  assert (H : returns unmountCleanup w = true
              /\ core (after unmountCleanup w) = core w
              /\ animationFrameRef (after unmountCleanup w) = animationFrameRef w
              /\ trace (after unmountCleanup w)
                 = trace w ++ hookEffects w "Error during component unmount cleanup:").
  { unfold returns, after, unmountCleanup, hookEffects, call_hook, core.
    unfold_monad. cbn [fst snd].
    destruct (cleanupShader w) as [[[|]]|] eqn:Hh; cbn [hook_throws fst snd];
      world_simpl; rewrite ?Hh, ?app_nil_r, <- ?app_assoc; repeat split. }
  destruct H as (H1 & H2 & H3 & H4). repeat (split; [assumption|]).
  apply reachable_mount.
  unfold core in H2. injection H2 as _ _ _ _ _ _ _ Hhead _ _.
  rewrite Hhead. exact Hle.
Qed.

Lemma unmountCleanup_leaves_page_witness :
  reachable (after (handle (Run (InstallHook {| hook_throws := true |}))) smallWorld)
  /\ returns unmountCleanup
       (after (handle (Run (InstallHook {| hook_throws := true |}))) smallWorld)
     = true
  /\ shaderScripts
       (after unmountCleanup
          (after (handle (Run (InstallHook {| hook_throws := true |}))) smallWorld))
     = 1%nat.
Proof.
  assert (Hr : reachable (after (handle (Run (InstallHook {| hook_throws := true |})))
                                smallWorld))
    by (apply reachable_step, reachable_mount, le_0_n).
  split; [exact Hr|].
  destruct (unmountCleanup_leaves_page [] [] [] WebGL _ Hr) as (H1 & _).
  split; [exact H1 | reflexivity].
Defined.

(** ** The catalog *)

(** X19: every entry of the catalog is loaded under its name:
    [loadExample] returns, puts the entry's sources in the shader
    buffers, closes the menu, and leaves the driver script, the page, the
    running shader and the trace alone; the vertex source of every entry
    is the built-in vertex shader. *)
Theorem loadExample_catalog (exampleName : jsstring) (example : Example) (w : World) :
  In (exampleName, example) shaderExamples ->
  returns (loadExample exampleName) w = true
  /\ after (loadExample exampleName) w
     = setShowExamples false
         (setFragmentShader (JString (fragment example))
            (setVertexShader (JString (vertex example)) w))
  /\ vertex example = defaultVertexShader.
Proof.
  intros Hin. unfold returns, after. rewrite loadExample_eq.
  assert (Hget : get_property shaderExamples exampleName = Own example
                 /\ vertex example = defaultVertexShader).
  { unfold shaderExamples in Hin. cbn [In] in Hin.
    destruct Hin as [H|[H|[H|[H|[]]]]]; injection H as <- <-;
      split; vm_compute; reflexivity. }
  destruct Hget as [-> Hv]. repeat split. exact Hv.
Qed.

Lemma loadExample_catalog_witness :
  In (js "noise", {| vertex := noise_vertex; fragment := noise_fragment |}) shaderExamples
  /\ after (loadExample (js "noise")) smallWorld
     = setShowExamples false
         (setFragmentShader (JString noise_fragment)
            (setVertexShader (JString noise_vertex) smallWorld)).
Proof.
  split; [right; right; right; left; reflexivity|].
  apply (loadExample_catalog (js "noise")
           {| vertex := noise_vertex; fragment := noise_fragment |} smallWorld).
  right; right; right; left; reflexivity.
Defined.

(** X20: a name the catalog only inherits empties the project: after
    [loadExample] the exported document has no shader field (an
    [undefined] value is left out by [JSON.stringify]), and importing
    that document gives the built-in shaders. *)
Theorem inherited_example_export (exampleName j timestamp : jsstring) (w w2 : World) :
  get_property shaderExamples exampleName = Inherited -> jsCode w = JString j ->
  JSON_parse (exportDocument (after (loadExample exampleName) w) timestamp)
  = inl (JObject [(js "jsCode", JString j); (js "timestamp", JString timestamp)])
  /\ vertexShader
       (after (importOnLoad
                 (exportDocument (after (loadExample exampleName) w) timestamp)) w2)
     = JString defaultVertexShader
  /\ fragmentShader
       (after (importOnLoad
                 (exportDocument (after (loadExample exampleName) w) timestamp)) w2)
     = JString defaultFragmentShader
  /\ jsCode
       (after (importOnLoad
                 (exportDocument (after (loadExample exampleName) w) timestamp)) w2)
     = JString (orDefault j defaultJavaScript).
Proof.
  intros Hget Hj.
  assert (Hdoc : exportDocument (after (loadExample exampleName) w) timestamp
                 = 123 :: memberText (js "jsCode") j
                            (44 :: memberText (js "timestamp") timestamp [10; 125])).
  { unfold after. rewrite loadExample_eq, Hget. cbn [snd].
    unfold exportDocument, exportData, JSON_stringify. world_simpl. rewrite Hj.
    cbn -[quote_chars quote]. unfold quote, memberText.
    repeat (rewrite <- app_assoc; cbn [app]). reflexivity. }
  assert (Hparse : JSON_parse (exportDocument (after (loadExample exampleName) w) timestamp)
                   = inl (JObject [(js "jsCode", JString j);
                                   (js "timestamp", JString timestamp)])).
  { rewrite Hdoc. unfold JSON_parse.
    assert (Hfuel : exists n,
               S (2 * List.length
                        (123 :: memberText (js "jsCode") j
                           (44 :: memberText (js "timestamp") timestamp [10; 125])))
               = (4 + n)%nat)
      by (unfold memberText; cbn [List.length Nat.mul Nat.add]; eexists; reflexivity).
    destruct Hfuel as [n ->].
    cbn [Nat.add parse_value].
    change (skip_ws (123 :: ?r)) with (123 :: r).
    change (123 =? 34) with false. change (123 =? 123) with true. cbv iota.
    change (skip_ws (memberText (js "jsCode") j ?r))
      with (34 :: quote_chars (js "jsCode")
               ++ 34 :: 58 :: 32 :: 34 :: quote_chars j ++ 34 :: r).
    change (34 =? 125) with false. cbv iota.
    rewrite parse_members_more, parse_members_last. reflexivity. }
  split; [exact Hparse|].
  unfold after at 1 3 5. rewrite importOnLoad_eq, Hparse.
  unfold imported. world_simpl. repeat split. apply js_or_string.
Qed.

Lemma inherited_example_export_witness :
  get_property shaderExamples (js "constructor") = Inherited
  /\ jsCode smallWorld = JString (js "draw(`${vertexShader}`, `${fragmentShader}`);")
  /\ vertexShader
       (after (importOnLoad
                 (exportDocument (after (loadExample (js "constructor")) smallWorld)
                                 (js "2024-01-01T00:00:00.000Z")))
              smallWorld)
     = JString defaultVertexShader.
Proof.
  split; [reflexivity|]. split; [reflexivity|].
  destruct (inherited_example_export (js "constructor")
              (js "draw(`${vertexShader}`, `${fragmentShader}`);")
              (js "2024-01-01T00:00:00.000Z") smallWorld smallWorld
              eq_refl eq_refl) as (_ & H & _).
  exact H.
Defined.

(** ** Quick fixes *)

Lemma includes_spec (s sub : jsstring) :
  includes s sub = true <-> exists before after, s = before ++ sub ++ after.
Proof.
  split.
  - induction s as [|c s IH]; cbn [includes].
    + destruct (strip_prefix sub []) as [rest|] eqn:H; [|discriminate].
      intros _. exists [], rest. apply strip_prefix_sound in H. exact H.
    + destruct (strip_prefix sub (c :: s)) as [rest|] eqn:H.
      * intros _. exists [], rest. apply strip_prefix_sound in H. exact H.
      * intros Hs. destruct (IH Hs) as (before & after & ->).
        exists (c :: before), after. reflexivity.
  - intros (before & after & ->). induction before as [|c before IH].
    + cbn [app]. destruct (sub ++ after) eqn:E; cbn [includes]; rewrite <- ?E;
        rewrite strip_prefix_app; reflexivity.
    + cbn [app includes]. rewrite IH.
      destruct (strip_prefix sub (c :: before ++ sub ++ after)); reflexivity.
Qed.

Lemma provideCodeActions_filter (uri : jsstring) (markers : list Marker) :
  provideCodeActions uri markers
  = map (declareVariable uri)
        (filter (fun m => includes (marker_message m) (js "undefined")) markers).
Proof.
  unfold provideCodeActions.
  assert (H : forall actions,
             fold_left
               (fun actions marker =>
                  if includes (marker_message marker) (js "undefined")
                  then actions ++ [declareVariable uri marker]
                  else actions) markers actions
             = actions
               ++ map (declareVariable uri)
                    (filter (fun m => includes (marker_message m) (js "undefined"))
                            markers)).
  { induction markers as [|m markers IH]; intros actions; cbn [fold_left filter].
    - rewrite app_nil_r. reflexivity.
    - rewrite IH. destruct (includes (marker_message m) (js "undefined"));
        [rewrite <- app_assoc|]; reflexivity. }
  apply (H []).
Qed.

(** X21: the code action provider offers one quick fix for each marker
    whose message holds the text [undefined], in the order of the
    markers, and nothing else: each inserts the declaration at column 1
    of the marker's first line, in the model's resource. *)
Theorem provideCodeActions_spec (uri : jsstring) (markers : list Marker) :
  (forall action,
      In action (provideCodeActions uri markers)
      <-> exists marker before after,
          In marker markers
          /\ marker_message marker = before ++ js "undefined" ++ after
          /\ action = declareVariable uri marker)
  /\ (forall more,
         provideCodeActions uri (markers ++ more)
         = provideCodeActions uri markers ++ provideCodeActions uri more)
  /\ (List.length (provideCodeActions uri markers) <= List.length markers)%nat.
Proof.
  split; [|split].
  - intros action. rewrite provideCodeActions_filter, in_map_iff. split.
    + intros (m & <- & Hin). apply filter_In in Hin. destruct Hin as [Hin Hinc].
      apply includes_spec in Hinc. destruct Hinc as (before & after & Hm).
      exists m, before, after. repeat split; assumption.
    + intros (m & before & after & Hin & Hm & ->). exists m. split; [reflexivity|].
      apply filter_In. split; [exact Hin|]. apply includes_spec.
      exists before, after. exact Hm.
  - intros more. rewrite !provideCodeActions_filter, filter_app, map_app. reflexivity.
  - rewrite provideCodeActions_filter, length_map. apply filter_length_le.
Qed.

(** ** Reset and start *)

Lemma inl_eq {A B : Type} (a b : A) : @inl A B a = inl b -> a = b.
Proof. intros H. injection H as ->. reflexivity. Qed.

(** X22: in every state a mounted component can reach, if the context
    lookup does not throw, the reset button followed by the start button
    leaves the shader running with the built-in project: the head holds
    one injected script, it is its last child, and its text is the
    built-in driver with the escaped built-in sources at the
    placeholders. *)
Theorem reset_then_run (effect : ScriptEffect) (w : World) :
  reachable w -> context w <> ContextThrows ->
  isRunning (afterAll [Reset; Run effect] w) = true
  /\ shaderScripts (afterAll [Reset; Run effect] w) = 1%nat
  /\ exists others,
      head (afterAll [Reset; Run effect] w)
      = others
        ++ [scriptElement
              (expandedScript (escaped defaultVertexShader)
                              (escaped defaultFragmentShader)
                              (segmentsOf defaultJavaScript))].
Proof.
  intros Hr Hctx. cbn [afterAll fold_left].
  assert (Hr1 : reachable (after (handle Reset) w)) by (apply reachable_step; exact Hr).
  assert (Hr2 : reachable (after (handle (Run effect)) (after (handle Reset) w)))
    by (apply reachable_step; exact Hr1).
  pose proof (proj1 (reachable_invariant _ Hr1)) as Hc.
  assert (Hctx1 : context (after (handle Reset) w) <> ContextThrows) by exact Hctx.
  assert (Hs : stringBuffers (after (handle Reset) w) = true) by reflexivity.
  destruct (runShader_started effect _ Hc Hctx1 Hs) as (code & Hb & Hrun & Hhead & _).
  assert (Hcode : code = expandedScript (escaped defaultVertexShader)
                                        (escaped defaultFragmentShader)
                                        (segmentsOf defaultJavaScript)).
  { change (buildScript (JString defaultVertexShader) (JString defaultFragmentShader)
                        (JString defaultJavaScript) = inl code) in Hb.
    rewrite <- (driverText_segmentsOf defaultJavaScript) in Hb at 1.
    rewrite buildScript_expanded in Hb by (vm_compute; reflexivity).
    symmetry. exact (inl_eq _ _ Hb). }
  cbn [handle] in *. split; [exact Hrun|]. split.
  - apply (proj2 (reachable_running _ Hr2)). exact Hrun.
  - rewrite Hhead, Hcode. eexists. reflexivity.
Qed.

Lemma reset_then_run_witness :
  reachable numberWorld /\ context numberWorld <> ContextThrows
  /\ isRunning (afterAll [Reset; Run KeepHook] numberWorld) = true
  /\ shaderScripts (afterAll [Reset; Run KeepHook] numberWorld) = 1%nat.
Proof.
  assert (Hr : reachable numberWorld) by (apply reachable_step, reachable_mount, le_0_n).
  assert (Hctx : context numberWorld <> ContextThrows) by discriminate.
  split; [exact Hr|]. split; [exact Hctx|].
  destruct (reset_then_run KeepHook numberWorld Hr Hctx) as (H1 & H2 & _).
  split; assumption.
Defined.

(** ** The toolbar button *)

(** X23: the first button of the toolbar never throws.  Labelled Stop,
    a click turns it to Run and does what [stopShader] does; labelled
    Run, a click turns it to Stop exactly when the injection goes
    through, and the click neither calls the cleanup hook nor cancels a
    frame.  After the click the page holds one injected script if the
    label is Stop and none if it is Run. *)
Theorem toolbarClick_toggles (effect : ScriptEffect) (w : World) :
  reachable w ->
  returns (toolbarClick effect) w = true
  /\ buttonLabel (after (toolbarClick effect) w)
     = (if isRunning w then js "Run"
        else match injectionFailure w with
             | None => js "Stop"
             | Some _ => js "Run"
             end)
  /\ shaderScripts (after (toolbarClick effect) w)
     = (if isRunning (after (toolbarClick effect) w) then 1%nat else 0%nat)
  /\ trace (after (toolbarClick effect) w)
     = trace w ++ (if isRunning w then stopEffects w else injectEffects w).
Proof.
  intros Hr. destruct (reachable_invariant w Hr) as [Hc Hle].
  unfold returns, after, toolbarClick, buttonLabel. unfold_monad.
  destruct (isRunning w) eqn:Hrun.
  - rewrite stopShader_eq. cbn [fst snd stopped isRunning trace].
    repeat split. unfold shaderScripts. cbn [head].
    change (countId shader_script_id (remove_first shader_script_id (head w)) = 0%nat).
    rewrite countId_remove_first. unfold shaderScripts, countId in *. lia.
  - rewrite runShader_returns. split; [reflexivity|].
    pose proof (runShader_count effect w Hc Hle) as Hcount.
    destruct (runShader_spec effect w Hc) as [Hcomp _].
    destruct (runShader_observed effect w) as (Ht & _).
    unfold after, runEffects in *. rewrite Hc, Hrun in Ht. cbn [app] in Ht.
    unfold component in Hcomp. injection Hcomp as _ _ _ Hrun' _ _.
    rewrite Hcount, Hrun', Ht.
    destruct (injectionFailure w); repeat split.
Qed.

Lemma toolbarClick_toggles_witness :
  reachable numberWorld
  /\ buttonLabel (after (toolbarClick KeepHook) numberWorld) = js "Run"
  /\ shaderScripts (after (toolbarClick KeepHook) numberWorld) = 0%nat.
Proof.
  assert (Hr : reachable numberWorld) by (apply reachable_step, reachable_mount, le_0_n).
  split; [exact Hr|].
  destruct (toolbarClick_toggles KeepHook numberWorld Hr) as (_ & H1 & H2 & _).
  split; [exact H1 | exact H2].
Defined.

(** ** Hover *)




